(** * Verification of the Zyrnix developer tools

    Shallow embedding of [tools/clang_format_all.py] (the formatter
    driver) and [tools/generate_docs.py] (the documentation extractor).

    Conventions of the embedding:
    - a Python [str] is a list of characters; a character is a code
      point below 256, so the character classes below are Python's
      Unicode classes restricted to that range;
    - a [pathlib.Path] is its tuple of [parts];
    - the file system is a finite tree, the external formatter an
      oracle answering each command line from the history of the
      commands run before it;
    - the effects of the scripts ([print], [subprocess.run],
      [write_text], [mkdir], [sys.exit], uncaught exceptions) are
      threaded through a state-and-exception monad;
    - a script is compiled as a whole before any statement of it
      runs. *)

From Stdlib Require Import List String Ascii Bool Arith Lia NArith ZArith.
From Stdlib Require Import Sorting.Sorted Sorting.Permutation FinFun.
From Stdlib Require Import Numbers.DecimalString.
From Equations Require Import Equations.
Import ListNotations.


(** A Python string. *)
Definition str := list ascii.

(** String literals of the source. *)
Definition txt (s : string) : str := list_ascii_of_string s.

Definition str_eqb (a b : str) : bool :=
  if list_eq_dec ascii_dec a b then true else false.

(* ================================================================= *)
(** ** Python string methods *)

Module PyStr.

(** [str.isspace] on one character; also the regex class [\s]. *)
Definition isspace (c : ascii) : bool :=
  let n := N_of_ascii c in
  (((9 <=? n) && (n <=? 13)) || ((28 <=? n) && (n <=? 32))
   || (n =? 133) || (n =? 160))%N.

(** The regex class [\w]: alphanumeric characters and the underscore. *)
Definition isword (c : ascii) : bool :=
  let n := N_of_ascii c in
  (((48 <=? n) && (n <=? 57)) || ((65 <=? n) && (n <=? 90))
   || (n =? 95) || ((97 <=? n) && (n <=? 122))
   || (n =? 170) || (n =? 178) || (n =? 179) || (n =? 181)
   || (n =? 185) || (n =? 186) || ((188 <=? n) && (n <=? 190))
   || ((192 <=? n) && (n <=? 214)) || ((216 <=? n) && (n <=? 246))
   || (248 <=? n))%N.

Fixpoint lstrip (s : str) : str :=
  match s with
  | c :: s' => if isspace c then lstrip s' else s
  | [] => []
  end.

Definition rstrip (s : str) : str := rev (lstrip (rev s)).

Definition strip (s : str) : str := rstrip (lstrip s).

Fixpoint startswith (s prefix : str) : bool :=
  match prefix, s with
  | [], _ => true
  | a :: prefix', b :: s' => Ascii.eqb a b && startswith s' prefix'
  | _ :: _, [] => false
  end.

Definition endswith (s suffix : str) : bool :=
  startswith (rev s) (rev suffix).

(** [s.rfind(sub)]: the highest index where [sub] occurs; [None] is
    Python's [-1]. *)
Fixpoint rfind (s sub : str) : option nat :=
  match s with
  | [] => if startswith [] sub then Some 0 else None
  | _ :: s' =>
      match rfind s' sub with
      | Some i => Some (S i)
      | None => if startswith s sub then Some 0 else None
      end
  end.

(** [s.split(sep)] for a one-character separator. *)
Fixpoint split (sep : ascii) (s : str) : list str :=
  match s with
  | [] => [[]]
  | c :: s' =>
      if Ascii.eqb c sep then [] :: split sep s'
      else match split sep s' with
           | l :: ls => (c :: l) :: ls
           | [] => [[c]]
           end
  end.

(** [sep.join(items)]. *)
Fixpoint join (sep : str) (items : list str) : str :=
  match items with
  | [] => []
  | x :: rest =>
      match rest with
      | [] => x
      | _ :: _ => x ++ sep ++ join sep rest
      end
  end.

(** [str(n)] for a non-negative integer. *)
Definition of_nat (n : nat) : str :=
  txt (NilEmpty.string_of_uint (Nat.to_uint n)).

(** [str(n)] for an integer. *)
Definition of_Z (n : Z) : str :=
  txt (NilEmpty.string_of_int (Z.to_int n)).

End PyStr.

(* ================================================================= *)
(** ** The fragment of Python's [re] used by the tools

    A backtracking matcher that returns the successes of a pattern in
    the order in which Python's engine tries them, so that the head of
    the list is the match Python reports.  Repetition is over character
    classes only, which is all the patterns of the tools need. *)

Module Re.

Inductive regex : Type :=
| Eps
| Lit (l : str)
| Cls (p : ascii -> bool)
| Seq (a b : regex)
| Alt (a b : regex)
| Star (p : ascii -> bool)
| LazyStar (p : ascii -> bool)
| Group (n : nat) (r : regex)
| Bol
| Eol.

(** [p+] and [r?] (both greedy). *)
Definition Plus (p : ascii -> bool) : regex := Seq (Cls p) (Star p).
Definition Opt (r : regex) : regex := Alt r Eps.

(** State of a match attempt: the input still to read, the index
    reached, and the spans of the groups closed so far. *)
Record mstate : Type :=
  MS { rest : str; pos : nat; caps : list (nat * (nat * nat)) }.

Fixpoint strip_prefix (l s : str) : option str :=
  match l, s with
  | [], _ => Some s
  | a :: l', b :: s' => if Ascii.eqb a b then strip_prefix l' s' else None
  | _ :: _, [] => None
  end.

Fixpoint star_greedy (p : ascii -> bool) (s : str) (i : nat)
  : list (str * nat) :=
  match s with
  | c :: s' =>
      if p c then star_greedy p s' (S i) ++ [(s, i)] else [(s, i)]
  | [] => [([], i)]
  end.

Fixpoint star_lazy (p : ascii -> bool) (s : str) (i : nat)
  : list (str * nat) :=
  match s with
  | c :: s' => (s, i) :: (if p c then star_lazy p s' (S i) else [])
  | [] => [([], i)]
  end.

Definition newline : ascii := ascii_of_nat 10.

Fixpoint rmatch (r : regex) (st : mstate) : list mstate :=
  match r with
  | Eps => [st]
  | Lit l =>
      match strip_prefix l (rest st) with
      | Some s' => [MS s' (pos st + List.length l) (caps st)]
      | None => []
      end
  | Cls p =>
      match rest st with
      | c :: s' => if p c then [MS s' (S (pos st)) (caps st)] else []
      | [] => []
      end
  | Seq a b => flat_map (rmatch b) (rmatch a st)
  | Alt a b => rmatch a st ++ rmatch b st
  | Star p =>
      map (fun si => MS (fst si) (snd si) (caps st))
          (star_greedy p (rest st) (pos st))
  | LazyStar p =>
      map (fun si => MS (fst si) (snd si) (caps st))
          (star_lazy p (rest st) (pos st))
  | Group n r' =>
      map (fun st' => MS (rest st') (pos st')
                         ((n, (pos st, pos st')) :: caps st'))
          (rmatch r' st)
  | Bol => if pos st =? 0 then [st] else []
  | Eol =>
      match rest st with
      | [] => [st]
      | c :: [] => if Ascii.eqb c newline then [st] else []
      | _ :: _ :: _ => []
      end
  end.

(** A match object: [m.start()], [m.end()] and the group spans. *)
Record Match : Type :=
  MkMatch { m_start : nat; m_end : nat; m_caps : list (nat * (nat * nat)) }.

(** The match anchored at index [i], where [s] is the input from [i] on. *)
Definition match_at (r : regex) (s : str) (i : nat) : option Match :=
  match rmatch r (MS s i []) with
  | st :: _ => Some (MkMatch i (pos st) (caps st))
  | [] => None
  end.

(** [re.search]: the leftmost match. *)
Fixpoint search_from (r : regex) (s : str) (i : nat) : option Match :=
  match match_at r s i with
  | Some m => Some m
  | None =>
      match s with
      | [] => None
      | _ :: s' => search_from r s' (S i)
      end
  end.

Definition search (r : regex) (s : str) : option Match := search_from r s 0.

(** [pattern.finditer]: the leftmost non-overlapping matches.  [skip]
    counts the characters still covered by the previous match.  (The
    patterns of the tools never match the empty string, so Python's
    special treatment of empty matches is not needed.) *)
Fixpoint finditer_from (r : regex) (s : str) (i skip : nat) : list Match :=
  match skip with
  | S k =>
      match s with
      | [] => []
      | _ :: s' => finditer_from r s' (S i) k
      end
  | 0 =>
      match match_at r s i with
      | Some m =>
          m :: match s with
               | [] => []
               | _ :: s' => finditer_from r s' (S i) (m_end m - i - 1)
               end
      | None =>
          match s with
          | [] => []
          | _ :: s' => finditer_from r s' (S i) 0
          end
      end
  end.

Definition finditer (r : regex) (s : str) : list Match :=
  finditer_from r s 0 0.

(** [re.sub(pattern, '', s)]: the input with the matches removed. *)
Fixpoint sub_from (r : regex) (s : str) (i skip : nat) : str :=
  match skip with
  | S k =>
      match s with
      | [] => []
      | _ :: s' => sub_from r s' (S i) k
      end
  | 0 =>
      match s with
      | [] => []
      | c :: s' =>
          match match_at r s i with
          | Some m =>
              if m_end m <=? i then c :: sub_from r s' (S i) 0
              else sub_from r s' (S i) (m_end m - i - 1)
          | None => c :: sub_from r s' (S i) 0
          end
      end
  end.

Definition sub (r : regex) (s : str) : str := sub_from r s 0 0.

Fixpoint span_of (n : nat) (cs : list (nat * (nat * nat)))
  : option (nat * nat) :=
  match cs with
  | [] => None
  | (k, sp) :: cs' => if k =? n then Some sp else span_of n cs'
  end.

(** [m.group(n)]; [None] when the group took no part in the match. *)
Definition group (content : str) (m : Match) (n : nat) : option str :=
  match span_of n (m_caps m) with
  | Some (a, b) => Some (firstn (b - a) (skipn a content))
  | None => None
  end.

End Re.

(* ================================================================= *)
(** ** Paths and the file system *)

Module Pathlib.

(** A path is the tuple of its [parts]; an absolute path starts with
    the component ["/"]; the empty tuple is [Path('.')]. *)
Definition Path := list str.

Definition sep : str := txt "/".
Definition dotdot : str := txt "..".

Definition is_absolute (p : Path) : bool :=
  match p with
  | c :: _ => str_eqb c sep
  | [] => false
  end.

(** [p / q] *)
Definition joinpath (p q : Path) : Path :=
  if is_absolute q then q else p ++ q.

(** [p.parent] *)
Definition parent (p : Path) : Path :=
  if is_absolute p && (List.length p =? 1) then p else removelast p.

(** [p.name] *)
Definition name (p : Path) : str :=
  if is_absolute p && (List.length p =? 1) then [] else last p [].

Definition dot : str := txt ".".

(** The index at which the suffix of a file name starts, as
    [PurePath.suffix] and [PurePath.stem] compute it. *)
Definition suffix_index (nm : str) : option nat :=
  match PyStr.rfind nm dot with
  | Some i =>
      if (0 <? i) && (i <? List.length nm - 1) then Some i else None
  | None => None
  end.

(** [p.suffix] *)
Definition suffix (p : Path) : str :=
  match suffix_index (name p) with
  | Some i => skipn i (name p)
  | None => []
  end.

(** [p.stem] *)
Definition stem (p : Path) : str :=
  match suffix_index (name p) with
  | Some i => firstn i (name p)
  | None => name p
  end.

(** [str(p)] *)
Definition to_str (p : Path) : str :=
  match p with
  | [] => dot
  | c :: p' => if str_eqb c sep then sep ++ PyStr.join sep p'
               else PyStr.join sep p
  end.

Fixpoint strip_parts (other p : Path) : option Path :=
  match other, p with
  | [], _ => Some p
  | a :: other', b :: p' =>
      if str_eqb a b then strip_parts other' p' else None
  | _ :: _, [] => None
  end.

(** [p.relative_to(other)]; [None] is [ValueError]. *)
Definition relative_to (p other : Path) : option Path :=
  match other with
  | [] => if is_absolute p then None else Some p
  | _ :: _ => strip_parts other p
  end.

(** Python compares two paths part by part, the parts as strings by
    code point. *)
Definition str_compare : str -> str -> comparison :=
  list_compare Ascii.compare.

Definition path_compare : Path -> Path -> comparison :=
  list_compare str_compare.

Definition path_leb (p q : Path) : bool :=
  match path_compare p q with
  | Gt => false
  | _ => true
  end.

Definition path_lt (p q : Path) : Prop := path_compare p q = Lt.

(** [sorted(paths)]: a stable sort by [<]. *)
Fixpoint insert (p : Path) (l : list Path) : list Path :=
  match l with
  | [] => [p]
  | q :: l' => if path_leb p q then p :: l else q :: insert p l'
  end.

Fixpoint sorted (l : list Path) : list Path :=
  match l with
  | [] => []
  | p :: l' => insert p (sorted l')
  end.

(** The file system: a regular file holds its text, or the message of
    the error that reading it as UTF-8 text raises; [Special] stands
    for what is neither a regular file nor a directory, with the
    message of the error that reading it raises. *)
#[warnings="-register-all"]
Inductive node : Type :=
| File (content : str + str)
| Special (read_error : str)
| Dir (entries : list (str * node)).

Fixpoint find_entry (nm : str) (entries : list (str * node)) : option node :=
  match entries with
  | [] => None
  | (k, n) :: entries' =>
      if str_eqb k nm then Some n else find_entry nm entries'
  end.

(** Resolution of the components of a path from a directory; [up] is
    the chain of the directories above it. *)
Fixpoint walk (up : list node) (cur : node) (comps : list str)
  : option (list node * node) :=
  match comps with
  | [] => Some (up, cur)
  | c :: comps' =>
      match cur with
      | Dir entries =>
          if str_eqb c dotdot then
            match up with
            | [] => walk [] cur comps'
            | d :: up' => walk up' d comps'
            end
          else
            match find_entry c entries with
            | Some n => walk (cur :: up) n comps'
            | None => None
            end
      | _ => None
      end
  end.

(** Everything below a directory, as paths relative to it. *)
Fixpoint enum (n : node) : list Path :=
  match n with
  | Dir entries =>
      (fix go (es : list (str * node)) : list Path :=
         match es with
         | [] => []
         | (nm, child) :: es' =>
             ([nm] :: map (cons nm) (enum child)) ++ go es'
         end) entries
  | _ => []
  end.

Definition entry_names (entries : list (str * node)) : list str :=
  map fst entries.

Fixpoint distinct (names : list str) : bool :=
  match names with
  | [] => true
  | nm :: names' =>
      negb (existsb (str_eqb nm) names') && distinct names'
  end.

(** A well-formed tree: every directory lists each name once. *)
Fixpoint wf_node (n : node) : bool :=
  match n with
  | Dir entries =>
      distinct (entry_names entries)
      && (fix all (es : list (str * node)) : bool :=
            match es with
            | [] => true
            | (_, child) :: es' => wf_node child && all es'
            end) entries
  | _ => true
  end.

End Pathlib.

Import Pathlib.

(* ================================================================= *)
(** ** The environment of a run and the effects of the scripts *)

(** [subprocess.CompletedProcess] *)
Record CompletedProcess : Type :=
  { returncode : Z; stdout : str; stderr : str }.

(** What a run depends on: the file system, the working directory, the
    directory of the script ([Path(__file__).resolve().parent]), the
    executables on the search path, and the answer of an executable to a
    command line given the command lines run before. *)
Record world : Type :=
  { fs : node;
    cwd : Path;
    script_dir : Path;
    installed : str -> bool;
    respond : list (list str) -> list str -> CompletedProcess }.

Section FileSystem.

Variable w : world.

Definition lookup (p : Path) : option node :=
  if is_absolute p then option_map snd (walk [] (fs w) (tl p))
  else match walk [] (fs w) (tl (cwd w)) with
       | Some (up, cur) => option_map snd (walk up cur p)
       | None => None
       end.

(** [p.exists()] *)
Definition exists_ (p : Path) : bool :=
  match lookup p with
  | Some _ => true
  | None => false
  end.

(** [p.is_file()] *)
Definition is_file (p : Path) : bool :=
  match lookup p with
  | Some (File _) => true
  | _ => false
  end.

(** [p.is_dir()] *)
Definition is_dir (p : Path) : bool :=
  match lookup p with
  | Some (Dir _) => true
  | _ => false
  end.

(** [p.rglob('*')], in the order of the directory listings. *)
Definition rglob (p : Path) : list Path :=
  match lookup p with
  | Some (Dir entries) => map (app p) (enum (Dir entries))
  | _ => []
  end.

(** [p.glob('*' + ext)]: the entries of [p] whose name ends in [ext]. *)
Definition glob_ext (p : Path) (ext : str) : list Path :=
  match lookup p with
  | Some (Dir entries) =>
      map (fun nm => p ++ [nm])
          (filter (fun nm => PyStr.endswith nm ext) (entry_names entries))
  | _ => []
  end.

(** [p.read_text(encoding='utf-8')]: the text, or the message of the
    exception raised. *)
Definition read_text (p : Path) : str + str :=
  match lookup p with
  | Some (File c) => c
  | Some (Special e) => inr e
  | Some (Dir _) =>
      inr (txt "[Errno 21] Is a directory: '" ++ to_str p ++ txt "'")
  | None =>
      inr (txt "[Errno 2] No such file or directory: '" ++ to_str p
           ++ txt "'")
  end.

(** Some parent of [p] is there and is not a directory. *)
Definition blocked (p : Path) : bool :=
existsb (fun k => match lookup (firstn k p) with
                  | Some (Dir _) | None => false
                  | Some _ => true
                  end)
        (seq 1 (List.length p - 1)).

End FileSystem.

(** State of a run: the lines printed, the command lines run, the files
    written and the directories created, each in order. *)
Record pystate : Type :=
  { printed : list str;
    procs : list (list str);
    written : list (Path * str);
    made_dirs : list Path }.

Definition initial : pystate :=
  {| printed := []; procs := []; written := []; made_dirs := [] |}.

Definition add_printed (lines : list str) (st : pystate) : pystate :=
  {| printed := printed st ++ lines; procs := procs st;
     written := written st; made_dirs := made_dirs st |}.

Definition add_procs (cmds : list (list str)) (st : pystate) : pystate :=
  {| printed := printed st; procs := procs st ++ cmds;
     written := written st; made_dirs := made_dirs st |}.

Definition add_written (files : list (Path * str)) (st : pystate) : pystate :=
  {| printed := printed st; procs := procs st;
     written := written st ++ files; made_dirs := made_dirs st |}.

Definition add_made_dirs (dirs : list Path) (st : pystate) : pystate :=
  {| printed := printed st; procs := procs st;
     written := written st; made_dirs := made_dirs st ++ dirs |}.

Inductive exn : Type :=
| SystemExit (code : Z)
| FileNotFoundError
| FileExistsError
| NotADirectoryError
| IsADirectoryError
| OSError (message : str)
| ValueError
| IndentationError (line : nat).

Definition M (A : Type) : Type := pystate -> (A + exn) * pystate.

Definition ret {A} (a : A) : M A := fun st => (inl a, st).

Definition raise {A} (e : exn) : M A := fun st => (inr e, st).

Definition bind {A B} (m : M A) (k : A -> M B) : M B :=
  fun st =>
    match m st with
    | (inl a, st') => k a st'
    | (inr e, st') => (inr e, st')
    end.

Notation "x <- m ;; k" := (bind m (fun x => k))
  (at level 61, m at next level, right associativity).
Notation "m ;;; k" := (bind m (fun _ => k))
  (at level 61, right associativity).

(** [print(line)] *)
Definition print (line : str) : M unit :=
  fun st => (inl tt, add_printed [line] st).

(** [sys.exit(code)] *)
Definition sys_exit {A} (code : Z) : M A := raise (SystemExit code).

(** [subprocess.run(cmd, capture_output=True, text=True)] *)
Definition subprocess_run (w : world) (cmd : list str) : M CompletedProcess :=
  fun st =>
    if installed w (hd [] cmd) then
      (inl (respond w (procs st) cmd), add_procs [cmd] st)
    else (inr FileNotFoundError, st).

(** [try: m  except FileNotFoundError: h] *)
Definition except_FileNotFoundError {A} (m h : M A) : M A :=
  fun st =>
    match m st with
    | (inr FileNotFoundError, st') => h st'
    | r => r
    end.

(** Whether the run has made the directory [p]: [mkdir] makes the path
    it is given and the missing ones among its parents. *)
Definition made (st : pystate) (p : Path) : bool :=
  existsb (fun d => match relative_to d p with
                    | Some _ => true
                    | None => false
                    end)
          (made_dirs st).

(** [p.write_text(content, encoding='utf-8')].  The file is opened for
    writing: that fails on a directory, on what is neither a regular
    file nor a directory (with the error that opening it for reading
    raises), and on a new name whose parent is not a directory. *)
Definition write_text (w : world) (p : Path) (content : str) : M unit :=
  fun st =>
    match lookup w p with
    | Some (Dir _) => (inr IsADirectoryError, st)
    | Some (Special e) => (inr (OSError e), st)
    | Some (File _) => (inl tt, add_written [(p, content)] st)
    | None =>
        if made st p then (inr IsADirectoryError, st)
        else if is_dir w (parent p) || made st (parent p) then
               (inl tt, add_written [(p, content)] st)
             else if blocked w p then (inr NotADirectoryError, st)
                  else (inr FileNotFoundError, st)
    end.

(** [p.mkdir(parents=True, exist_ok=True)], called before the run has
    written a file.  A directory that is there already is left as it
    is; what is there and is no directory raises [FileExistsError]; a
    parent that is no directory raises [NotADirectoryError]; otherwise
    the directory is made, with the parents that are missing. *)
Definition mkdir (w : world) (p : Path) : M unit :=
  fun st =>
    match lookup w p with
    | Some (Dir _) => (inl tt, st)
    | Some _ => (inr FileExistsError, st)
    | None =>
        if made st p then (inl tt, st)
        else if blocked w p then (inr NotADirectoryError, st)
             else (inl tt, add_made_dirs [p] st)
    end.

(** [for x in items: body(x)] *)
Fixpoint for_each {A} (items : list A) (body : A -> M unit) : M unit :=
  match items with
  | [] => ret tt
  | x :: items' => body x ;;; for_each items' body
  end.

(** A loop that updates a local variable. *)
Fixpoint for_fold {A B} (items : list A) (body : B -> A -> M B) (b : B)
  : M B :=
  match items with
  | [] => ret b
  | x :: items' => b' <- body b x ;; for_fold items' body b'
  end.

(** The exit status of [sys.exit(main())]: the value returned, the code
    of a [sys.exit], or 1 after an uncaught exception. *)
Definition exit_status (r : Z + exn) : Z :=
  match r with
  | inl code => code
  | inr (SystemExit code) => code
  | inr _ => 1%Z
  end.

Definition nl : str := [Re.newline].

(* ================================================================= *)
(** ** The project-root locator (the same text in both scripts) *)

Module Locator.

Definition marker : str := txt "CMakeLists.txt".

Definition path_eq_dec (p q : Path) : {p = q} + {p <> q} :=
  list_eq_dec (list_eq_dec ascii_dec) p q.

(** The loop [while current != current.parent: ...] and the
    [return Path.cwd()] after it. *)
Equations? find_project_root_from (w : world) (current : Path) : Path
  by wf (List.length current) lt :=
  find_project_root_from w current
    with path_eq_dec current (parent current) => {
    | left _ := cwd w
    | right _ with exists_ w (joinpath current [marker]) => {
      | true := current
      | false := find_project_root_from w (parent current) } }.
Proof.
  unfold parent in *.
  destruct (is_absolute current && (List.length current =? 1)).
  - congruence.
  - destruct current as [|c current]; [simpl in *; congruence|].
    rewrite removelast_firstn_len, length_firstn. simpl. lia.
Qed.

Definition find_project_root (w : world) : Path :=
  find_project_root_from w (script_dir w).

End Locator.

(* ================================================================= *)
(** ** tools/clang_format_all.py *)

Module ClangFormatAll.

Definition CPP_EXTENSIONS : list str :=
  [txt ".cpp"; txt ".hpp"; txt ".h"; txt ".cc"; txt ".cxx"; txt ".hxx";
   txt ".c"].

Definition SKIP_DIRS : list str :=
  [txt "build"; txt "cmake-build-debug"; txt "cmake-build-release";
   txt "out"; txt ".git"; txt "third_party"; txt "external"; txt "vendor"].

(** [x in items] *)
Definition mem (x : str) (items : list str) : bool :=
  existsb (str_eqb x) items.

Definition find_project_root := Locator.find_project_root.

(** [any(skip_dir in path.parts for skip_dir in SKIP_DIRS)] *)
Definition skipped (path : Path) : bool :=
  existsb (fun skip_dir => mem skip_dir path) SKIP_DIRS.

(** The body of the loop of [find_cpp_files]: whether [path] is
    appended. *)
Definition wanted (w : world) (path : Path) : bool :=
  if skipped path then false
  else is_file w path && mem (suffix path) CPP_EXTENSIONS.

Definition find_cpp_files (w : world) (root : Path) : list Path :=
  sorted (filter (wanted w) (rglob w root)).

Definition tool_names : list str :=
  [txt "clang-format"; txt "clang-format-17"; txt "clang-format-16";
   txt "clang-format-15"; txt "clang-format-14"].

Definition version_cmd (tool : str) : list str := [tool; txt "--version"].

(** The loop of [check_clang_format] and what follows it. *)
Fixpoint probe (w : world) (names : list str) : M str :=
  match names with
  | [] =>
      print (txt "Error: clang-format not found. Please install clang-format.") ;;;
      print (txt "  Ubuntu/Debian: sudo apt install clang-format") ;;;
      print (txt "  macOS:         brew install clang-format") ;;;
      print (txt "  Windows:       choco install llvm") ;;;
      sys_exit 1%Z
  | name :: names' =>
      found <- except_FileNotFoundError
                 (result <- subprocess_run w (version_cmd name) ;;
                  ret (returncode result =? 0)%Z)
                 (ret false) ;;
      if found then ret name else probe w names'
  end.

Definition check_clang_format (w : world) : M str := probe w tool_names.

Definition check_cmd (clang_format : str) (filepath : Path) : list str :=
  [clang_format; txt "--style=file"; txt "--dry-run"; txt "--Werror";
   to_str filepath].

Definition fix_cmd (clang_format : str) (filepath : Path) : list str :=
  [clang_format; txt "--style=file"; txt "-i"; to_str filepath].

Definition format_file (w : world) (clang_format : str) (filepath : Path)
           (check_only verbose : bool) : M bool :=
  (if verbose then print (txt "Processing: " ++ to_str filepath)
   else ret tt) ;;;
  if check_only then
    result <- subprocess_run w (check_cmd clang_format filepath) ;;
    if negb (returncode result =? 0)%Z then
      print (txt "Needs formatting: " ++ to_str filepath) ;;;
      ret true
    else ret false
  else
    result <- subprocess_run w (fix_cmd clang_format filepath) ;;
    if negb (returncode result =? 0)%Z then
      print (txt "Error formatting " ++ to_str filepath ++ txt ": "
             ++ stderr result) ;;;
      ret false
    else ret true.

(** The parsed command line. *)
Record Args : Type :=
  { check : bool; verbose : bool; dry_run : bool; paths : list Path }.

(** The loop over [args.paths]. *)
Fixpoint collect (w : world) (paths : list Path) (cpp_files : list Path)
  : list Path :=
  match paths with
  | [] => cpp_files
  | path :: paths' =>
      if is_file w path then collect w paths' (cpp_files ++ [path])
      else if is_dir w path then
             collect w paths' (cpp_files ++ find_cpp_files w path)
           else collect w paths' cpp_files
  end.

(** The files to process. *)
Definition candidates (w : world) (args : Args) (project_root : Path)
  : list Path :=
  match paths args with
  | _ :: _ => collect w (paths args) []
  | [] => find_cpp_files w project_root
  end.

Definition main (w : world) (args : Args) : M Z :=
  let project_root := find_project_root w in
  print (txt "Project root: " ++ to_str project_root) ;;;
  clang_format <- check_clang_format w ;;
  version <- subprocess_run w (version_cmd clang_format) ;;
  print (txt "Using: " ++ PyStr.strip (stdout version)) ;;;
  let cpp_files := candidates w args project_root in
  print (txt "Found " ++ PyStr.of_nat (List.length cpp_files)
         ++ txt " C++ files") ;;;
  if dry_run args then
    print (nl ++ txt "Files that would be formatted:") ;;;
    for_each cpp_files
      (fun f =>
         match relative_to f project_root with
         | Some rel => print (txt "  " ++ to_str rel)
         | None => raise ValueError
         end) ;;;
    ret 0%Z
  else
    needs_formatting <-
      for_fold cpp_files
        (fun needs_formatting filepath =>
           changed <- format_file w clang_format filepath
                        (check args) (verbose args) ;;
           ret (if changed then needs_formatting + 1 else needs_formatting))
        0 ;;
    if check args then
      if 0 <? needs_formatting then
        print (nl ++ PyStr.of_nat needs_formatting
               ++ txt " file(s) need formatting.") ;;;
        print (txt "Run 'python tools/clang_format_all.py' to fix.") ;;;
        ret 1%Z
      else
        print (nl ++ txt "All files are properly formatted!") ;;;
        ret 0%Z
    else
      print (nl ++ txt "Formatted " ++ PyStr.of_nat (List.length cpp_files)
             ++ txt " files.") ;;;
      ret 0%Z.

(** The exit status of a run of the script. *)
Definition run (w : world) (args : Args) : Z * pystate :=
  let r := main w args initial in (exit_status (fst r), snd r).

End ClangFormatAll.

(* ================================================================= *)
(** ** tools/generate_docs.py *)

Module GenerateDocs.

Import Re.

(** The dataclass [Parameter]. *)
Record Param : Type :=
  { p_name : str; p_type : str; p_description : str }.

(** The dataclass [Function]. *)
Record Func : Type :=
  { f_name : str;
    return_type : str;
    parameters : list Param;
    f_description : str;
    is_static : bool;
    is_virtual : bool;
    is_const : bool }.

Record Class : Type :=
  { name : str;
    description : str;
    methods : list Func;
    base_classes : list str;
    is_struct : bool }.

Record Header : Type :=
  { path : Path;
    classes : list Class;
    functions : list Func;
    h_description : str }.

Definition find_project_root := Locator.find_project_root.

Definition any_char (c : ascii) : bool :=
  PyStr.isspace c || negb (PyStr.isspace c).

Definition word_or_colon (c : ascii) : bool :=
  PyStr.isword c || Ascii.eqb c ":"%char.

Infix ">>" := Seq (at level 60, right associativity).

(** [^/\*\*\s*] *)
Definition re_open : regex := Bol >> Lit (txt "/**") >> Star PyStr.isspace.

(** [\*/$] *)
Definition re_close : regex := Lit (txt "*/") >> Eol.

(** [^\s*\*\s?] *)
Definition re_star : regex :=
  Bol >> Star PyStr.isspace >> Lit (txt "*") >> Opt (Cls PyStr.isspace).

(** [/\*\*[\s\S]*?\*/] *)
Definition file_comment_re : regex :=
  Lit (txt "/**") >> LazyStar any_char >> Lit (txt "*/").

(** [(class|struct)\s+(\w+)(?:\s*:\s*(?:public|protected|private)?\s*([\w:]+))?\s*\{] *)
Definition class_pattern : regex :=
  Group 1 (Alt (Lit (txt "class")) (Lit (txt "struct")))
  >> Plus PyStr.isspace
  >> Group 2 (Plus PyStr.isword)
  >> Opt (Star PyStr.isspace >> Lit (txt ":") >> Star PyStr.isspace
          >> Opt (Alt (Lit (txt "public"))
                    (Alt (Lit (txt "protected")) (Lit (txt "private"))))
          >> Star PyStr.isspace
          >> Group 3 (Plus word_or_colon))
  >> Star PyStr.isspace >> Lit (txt "{").

(** The body of the loop over the lines of a block comment. *)
Definition clean_line (line : str) : str :=
  let line := sub re_open line in
  let line := sub re_close line in
  let line := sub re_star line in
  PyStr.strip line.

Fixpoint clean_lines (lines : list str) (cleaned : list str) : list str :=
  match lines with
  | [] => cleaned
  | line :: lines' =>
      let line := clean_line line in
      match line with
      | [] => clean_lines lines' cleaned
      | _ :: _ => clean_lines lines' (cleaned ++ [line])
      end
  end.

(** The loop over the reversed lines before a declaration. *)
Fixpoint comment_run (reversed_lines : list str) (comment_lines : list str)
  : list str :=
  match reversed_lines with
  | [] => comment_lines
  | line :: lines' =>
      let line := PyStr.strip line in
      if PyStr.startswith line (txt "///") then
        comment_run lines' (PyStr.strip (skipn 3 line) :: comment_lines)
      else if PyStr.startswith line (txt "//") then
        comment_run lines' comment_lines
      else comment_lines
  end.

Definition line_comment (before : str) : str :=
  let lines := PyStr.split newline before in
  PyStr.join (txt " ") (comment_run (rev lines) []).

Definition extract_doxygen_comment (content : str) (pos : nat) : str :=
  let before := PyStr.rstrip (firstn pos content) in
  if PyStr.endswith before (txt "*/") then
    match PyStr.rfind before (txt "/**") with
    | Some start =>
        let comment := PyStr.strip (skipn start before) in
        let lines := PyStr.split newline comment in
        PyStr.join (txt " ") (clean_lines lines [])
    | None => line_comment before
    end
  else line_comment before.

(** [m.group(n)] of a group that takes part in every match. *)
Definition group_text (content : str) (m : Match) (n : nat) : str :=
  match group content m n with
  | Some s => s
  | None => []
  end.

(** The body of the loop over the matches of [class_pattern]. *)
Definition class_of_match (content : str) (m : Match) : Class :=
  let is_struct := str_eqb (group_text content m 1) (txt "struct") in
  let class_name := group_text content m 2 in
  let base_class := group content m 3 in
  {| name := class_name;
     description := extract_doxygen_comment content (m_start m);
     methods := [];
     base_classes := match base_class with
                     | Some (c :: b) => [c :: b]
                     | _ => []
                     end;
     is_struct := is_struct |}.

(** [parse_header] once the text of the file is read. *)
Definition parse_content (filepath : Path) (content : str) : Header :=
  let description :=
    match search file_comment_re (firstn 500 content) with
    | Some file_comment => extract_doxygen_comment content (m_end file_comment)
    | None => []
    end in
  {| path := filepath;
     classes := map (class_of_match content) (finditer class_pattern content);
     functions := [];
     h_description := description |}.

Definition parse_header (w : world) (filepath : Path) : M Header :=
  match read_text w filepath with
  | inr e =>
      print (txt "Warning: Could not read " ++ to_str filepath ++ txt ": "
             ++ e) ;;;
      ret {| path := filepath; classes := []; functions := [];
             h_description := [] |}
  | inl content => ret (parse_content filepath content)
  end.

Definition method_line (method : Func) : list str :=
  let params :=
    PyStr.join (txt ", ")
      (map (fun p => p_type p ++ txt " " ++ p_name p) (parameters method)) in
  let signature :=
    txt "`" ++ return_type method ++ txt " " ++ f_name method ++ txt "("
    ++ params ++ txt ")`" in
  let signature :=
    if is_const method then signature ++ txt " const" else signature in
  (txt "- " ++ signature)
  :: match f_description method with
     | [] => []
     | _ :: _ => [txt "  - " ++ f_description method]
     end.

(** The lines that [if cls.methods:] adds. *)
Definition methods_section (cls : Class) : list str :=
  match methods cls with
  | [] => []
  | _ :: _ =>
      [txt "#### Methods"; []] ++ flat_map method_line (methods cls) ++ [[]]
  end.

Definition class_heading (cls : Class) : list str :=
  let kind := if is_struct cls then txt "struct" else txt "class" in
  [txt "### `" ++ kind ++ txt " " ++ name cls ++ txt "`"; []].

Definition description_lines (cls : Class) : list str :=
  match description cls with
  | [] => []
  | _ :: _ => [description cls; []]
  end.

Definition inherits_lines (cls : Class) : list str :=
  match base_classes cls with
  | [] => []
  | _ :: _ =>
      [txt "**Inherits from:** `"
       ++ PyStr.join (txt "`, `") (base_classes cls) ++ txt "`"; []]
  end.

Definition generate_class_doc (cls : Class) : str :=
  let lines :=
    class_heading cls ++ description_lines cls ++ inherits_lines cls
    ++ methods_section cls in
  PyStr.join nl lines.

Definition include_dir_of (project_root : Path) : Path :=
  joinpath (joinpath project_root [txt "include"]) [txt "Zyrnix"].

Definition index_heading : list str :=
  [txt "# Zyrnix API Reference"; [];
   txt "Auto-generated API documentation for Zyrnix."; [];
   txt "## Headers"; []].

(** The page written for one header. *)
Definition page_of (header : Header) : str :=
  let name := stem (path header) in
  let doc_content :=
    [txt "# " ++ name; [];
     txt "Header: `include/Zyrnix/" ++ Pathlib.name (path header) ++ txt "`";
     []] in
  let doc_content :=
    match classes header with
    | [] => doc_content
    | _ :: _ =>
        doc_content ++ [txt "## Classes"; []]
        ++ map generate_class_doc (classes header)
    end in
  PyStr.join nl doc_content.

Definition page_path (output_dir : Path) (header : Header) : Path :=
  joinpath output_dir [stem (path header) ++ txt ".md"].

Definition index_line (header : Header) : str :=
  let name := stem (path header) in
  txt "- [" ++ name ++ txt "](" ++ name ++ txt ".md)".

(** [generate_docs].  The body of the function ends with line 249:
    line 251 holds the single name [z] in the first column, which is
    a statement of the module, not of the function.  ([index_lines]
    is filled by the loop and never read.) *)
Definition generate_docs (w : world) (project_root output_dir : Path)
  : M unit :=
  let include_dir := include_dir_of project_root in
  if negb (exists_ w include_dir) then
    print (txt "Error: Include directory not found: " ++ to_str include_dir) ;;;
    sys_exit 1%Z
  else
    headers <-
      for_fold (sorted (glob_ext w include_dir (txt ".hpp")))
        (fun headers header_path =>
           print (txt "Parsing: " ++ Pathlib.name header_path) ;;;
           header <- parse_header w header_path ;;
           ret (headers ++ [header]))
        [] ;;
    mkdir w output_dir ;;;
    index_lines <-
      for_fold headers
        (fun index_lines header =>
           let output_file := page_path output_dir header in
           write_text w output_file (page_of header) ;;;
           print (txt "Generated: " ++ to_str output_file) ;;;
           ret (index_lines ++ [index_line header]))
        index_heading ;;
    ret tt.

(** [main], for the value of [--output]. *)
Definition main (w : world) (output : Path) : M Z :=
  let project_root := find_project_root w in
  print (txt "Project root: " ++ to_str project_root) ;;;
  let output_dir := joinpath project_root output in
  print (txt "Output directory: " ++ to_str output_dir) ;;;
  generate_docs w project_root output_dir ;;;
  print (nl ++ txt "Documentation generated successfully!") ;;;
  ret 0%Z.

(** The logical lines of [generate_docs.py]: for each the number of
    the line of the file where it starts, the column of its first
    token, and whether it ends in a colon and so opens a block.
    Blank lines, comment lines and the continuation lines of a
    bracket or of the docstring of the module are no logical lines.
    Lines 247 to 254 are the end of the loop of [generate_docs] in
    column 8, the name [z] in column 0, and the three lines that
    write the index in column 4. *)
Definition file_layout : list (nat * nat * bool) :=
  [(2, 0, false); (12, 0, false); (13, 0, false); (14, 0, false);
   (15, 0, false); (16, 0, false); (17, 0, false); (18, 0, false);
   (21, 0, false); (22, 0, true); (23, 4, false); (24, 4, false);
   (25, 4, false); (26, 4, false); (29, 0, false); (30, 0, true);
   (31, 4, false); (32, 4, false); (33, 4, false); (34, 4, false);
   (35, 4, false); (36, 4, false); (37, 4, false); (38, 4, false);
   (41, 0, false); (42, 0, true); (43, 4, false); (44, 4, false);
   (45, 4, false); (46, 4, false); (47, 4, false); (48, 4, false);
   (51, 0, false); (52, 0, true); (53, 4, false); (54, 4, false);
   (55, 4, false); (56, 4, false); (57, 4, false); (60, 0, true);
   (61, 4, false); (62, 4, false); (63, 4, true); (64, 8, true);
   (65, 12, false); (66, 8, false); (67, 4, false); (70, 0, true);
   (71, 4, false); (73, 4, false); (76, 4, true); (77, 8, false);
   (78, 8, true); (79, 12, false); (81, 12, false); (82, 12, false);
   (83, 12, true); (84, 16, false); (85, 16, false); (86, 16, false);
   (87, 16, false); (88, 16, true); (89, 20, false); (90, 12, false);
   (93, 4, false); (94, 4, false); (95, 4, true); (96, 8, false);
   (97, 8, true); (98, 12, false); (99, 8, true); (100, 12, false);
   (101, 8, true); (102, 12, false); (104, 4, false); (107, 0, true);
   (108, 4, false); (109, 4, false); (111, 4, true); (112, 8, false);
   (113, 4, true); (114, 8, false); (115, 8, false); (118, 4, false);
   (119, 4, true); (120, 8, false); (123, 4, false); (128, 4, true);
   (129, 8, false); (130, 8, false); (131, 8, false); (133, 8, false);
   (139, 8, true); (140, 12, false); (142, 8, false); (145, 4, false);
   (150, 4, false); (153, 0, true); (154, 4, false); (155, 4, false);
   (157, 4, false); (158, 4, false); (159, 4, false); (161, 4, true);
   (162, 8, false); (163, 8, false); (165, 4, true); (166, 8, false);
   (167, 8, false); (169, 4, true); (170, 8, false); (171, 8, false);
   (172, 8, true); (173, 12, false); (174, 12, false); (175, 12, true);
   (176, 16, false); (177, 12, false); (178, 12, true); (179, 16, false);
   (180, 8, false); (182, 4, false); (185, 0, true); (186, 4, false);
   (187, 4, false); (189, 4, false); (190, 4, false); (191, 4, false);
   (193, 4, true); (194, 8, false); (195, 8, false); (197, 4, true);
   (198, 8, false); (200, 4, false); (203, 0, true); (204, 4, false);
   (205, 4, false); (207, 4, true); (208, 8, false); (209, 8, false);
   (212, 4, false); (213, 4, true); (214, 8, false); (215, 8, false);
   (218, 4, false); (220, 4, false); (229, 4, true); (230, 8, false);
   (231, 8, false); (234, 8, false); (241, 8, true); (242, 12, false);
   (243, 12, false); (244, 12, true); (245, 16, false); (247, 8, false);
   (248, 8, false); (249, 8, false); (251, 0, false); (252, 4, false);
   (253, 4, false); (254, 4, false); (257, 0, true); (258, 4, false);
   (261, 4, false); (263, 4, false); (266, 4, false); (268, 4, false);
   (269, 4, false); (271, 4, false); (272, 4, false); (274, 4, false);
   (276, 4, false); (277, 4, false); (280, 0, true); (281, 4, false)].

(** The columns of the open blocks once a line in column [col] has
    closed the deeper ones. *)
Fixpoint dedent (col : nat) (stack : list nat) : list nat :=
  match stack with
  | top :: stack' => if col <? top then dedent col stack' else stack
  | [] => []
  end.

(** The indentation rule of Python's compiler, with the columns of the
    open blocks in [stack]: a line may stand deeper than the line
    before only if that one opened a block, and must then; a line
    that stands less deep must return to the column of an open block.
    The result is the number of the first line that breaks the rule
    ([previous] is the number of the line before). *)
Fixpoint first_indentation_error (stack : list nat) (block_expected : bool)
         (previous : nat) (lines : list (nat * nat * bool)) : option nat :=
  match lines with
  | [] => if block_expected then Some (S previous) else None
  | (number, col, opens) :: lines' =>
      if hd 0 stack <? col then
        if block_expected then
          first_indentation_error (col :: stack) opens number lines'
        else Some number
      else if block_expected then Some number
      else
        let stack' := dedent col stack in
        if hd 0 stack' =? col then
          first_indentation_error stack' opens number lines'
        else Some number
  end.

(** Python compiles the whole file before it runs the first statement
    of it, and raises [IndentationError] for a file that breaks the
    indentation rule. *)
Definition load : M unit :=
  match first_indentation_error [0] false 0 file_layout with
  | Some line => raise (IndentationError line)
  | None => ret tt
  end.

(** The script run as [python tools/generate_docs.py --output output]:
    once the file is compiled its statements run, the last of which
    is [sys.exit(main())]. *)
Definition script (w : world) (output : Path) : M Z :=
  load ;;; main w output.

Definition run (w : world) (output : Path) : Z * pystate :=
  let r := script w output initial in (exit_status (fst r), snd r).

End GenerateDocs.

(* ================================================================= *)
(** ** What a run of the formatter driver is expected to show

    The lines printed by the loop over the files and the files counted,
    written out file by file; [history] is the list of the command
    lines run so far, which the answer of the formatter may depend on. *)

Module DriverReports.

Import ClangFormatAll.

(** The state in which tool resolution starts. *)
Definition banner (w : world) : pystate :=
  add_printed [txt "Project root: " ++ to_str (find_project_root w)] initial.

(** Whether the check invocation for [f] reports a difference. *)
Definition needs_reformatting (w : world) (cf : str)
           (history : list (list str)) (f : Path) : bool :=
  negb (returncode (respond w history (check_cmd cf f)) =? 0)%Z.

(** The files whose check invocation returns a non-zero code. *)
Fixpoint flagged (w : world) (cf : str) (history : list (list str))
         (files : list Path) : list Path :=
  match files with
  | [] => []
  | f :: files' =>
      (if needs_reformatting w cf history f then [f] else [])
      ++ flagged w cf (history ++ [check_cmd cf f]) files'
  end.

Fixpoint check_report (w : world) (cf : str) (verbose : bool)
         (history : list (list str)) (files : list Path) : list str :=
  match files with
  | [] => []
  | f :: files' =>
      (if verbose then [txt "Processing: " ++ to_str f] else [])
      ++ (if needs_reformatting w cf history f
          then [txt "Needs formatting: " ++ to_str f] else [])
      ++ check_report w cf verbose (history ++ [check_cmd cf f]) files'
  end.

Fixpoint fix_report (w : world) (cf : str) (verbose : bool)
         (history : list (list str)) (files : list Path) : list str :=
  match files with
  | [] => []
  | f :: files' =>
      (if verbose then [txt "Processing: " ++ to_str f] else [])
      ++ (let result := respond w history (fix_cmd cf f) in
          if negb (returncode result =? 0)%Z
          then [txt "Error formatting " ++ to_str f ++ txt ": "
                ++ stderr result]
          else [])
      ++ fix_report w cf verbose (history ++ [fix_cmd cf f]) files'
  end.

(** The lines printed between tool resolution and the loop. *)
Definition preamble (w : world) (cf : str) (history : list (list str))
           (files : list Path) : list str :=
  [txt "Using: " ++ PyStr.strip (stdout (respond w history (version_cmd cf)));
   txt "Found " ++ PyStr.of_nat (List.length files) ++ txt " C++ files"].

(** The line of the dry-run listing for [f]. *)
Definition listing_line (root f : Path) : str :=
  match relative_to f root with
  | Some rel => txt "  " ++ to_str rel
  | None => []
  end.

(** [f] lies under [root], in the sense of [relative_to]. *)
Definition under (root f : Path) : Prop := relative_to f root <> None.

Definition with_paths (args : Args) (ps : list Path) : Args :=
  {| check := check args; verbose := verbose args;
     dry_run := dry_run args; paths := ps |}.

(** What one positional argument adds to the processing list. *)
Definition expand (w : world) (path : Path) : list Path :=
  if is_file w path then [path]
  else if is_dir w path then find_cpp_files w path else [].

(** The state in which the files are processed or listed, when tool
    resolution ended in state [st1] with the name [cf]. *)
Definition ready (w : world) (args : Args) (cf : str) (st1 : pystate)
  : pystate :=
  add_printed
    (preamble w cf (procs st1) (candidates w args (find_project_root w)))
    (add_procs [version_cmd cf] st1).

(** The line that ends a run with no file to process. *)
Definition nothing_to_do (args : Args) : str :=
  if dry_run args then nl ++ txt "Files that would be formatted:"
  else if check args then nl ++ txt "All files are properly formatted!"
  else nl ++ txt "Formatted 0 files.".

(** A version probe of one of the known executable names. *)
Definition is_probe (cmd : list str) : Prop :=
  exists name, In name tool_names /\ cmd = version_cmd name.

End DriverReports.

(* ================================================================= *)
(** ** Properties of patterns and of match states used in the proofs *)

Module ReAnalysis.

Import Re.

(** The index and the input left move together. *)
Definition balanced (st st' : mstate) : Prop :=
pos st' + List.length (rest st') = pos st + List.length (rest st)
/\ pos st <= pos st'.

(** The pattern has no [^]. *)
Fixpoint no_bol (r : regex) : bool :=
match r with
| Seq a b | Alt a b => no_bol a && no_bol b
| Group _ r' => no_bol r'
| Bol => false
| _ => true
end.

Definition shift_caps (i : nat) (cs : list (nat * (nat * nat)))
: list (nat * (nat * nat)) :=
map (fun c => (fst c, (i + fst (snd c), i + snd (snd c)))) cs.

Definition shift_state (i : nat) (st : mstate) : mstate :=
MS (rest st) (i + pos st) (shift_caps i (caps st)).

Definition shift_match (i : nat) (m : Match) : Match :=
MkMatch (i + m_start m) (i + m_end m) (shift_caps i (m_caps m)).

(** No part of the pattern can read the character [c], and the pattern
  has no [$]. *)
Fixpoint rejects (r : regex) (c : ascii) : bool :=
match r with
| Eps | Bol => true
| Lit l => negb (existsb (Ascii.eqb c) l)
| Cls p | Star p | LazyStar p => negb (p c)
| Seq a b | Alt a b => rejects a c && rejects b c
| Group _ r' => rejects r' c
| Eol => false
end.

Definition extend (u : str) (st : mstate) : mstate :=
MS (rest st ++ u) (pos st) (caps st).

End ReAnalysis.

(* ================================================================= *)
(** ** Vocabulary for the statements about the documentation extractor *)

Module DocStatements.

Import GenerateDocs.

(** [sub] occurs at no index below [n] of [content]. *)
Definition none_before (sub content : str) (n : nat) : bool :=
forallb (fun k => negb (PyStr.startswith (skipn k content) sub)) (seq 0 n).

(** The text above a run of comment lines leaves them alone: it is
  empty, or it ends with a newline and its last line is not a [//]
  comment. *)
Definition code_above (pre : str) : bool :=
match rev pre with
| [] => true
| c :: above =>
    Ascii.eqb c Re.newline
    && negb (PyStr.startswith
               (PyStr.strip (last (PyStr.split Re.newline (rev above)) []))
               (txt "//"))
end.

Definition file_comment : str := txt "/** File description. */".


Definition point_comment_line : str := txt "/// A 2D point." ++ nl.

(** Three lines that each read [/// A 2D point.]. *)
Definition comment3 : str :=
point_comment_line ++ point_comment_line ++ point_comment_line.

Definition point_declaration : str := txt "struct Point {".

(** The header that [parse_header] returns for [filepath]. *)
Definition parsed (w : world) (filepath : Path) : Header :=
match read_text w filepath with
| inl content => parse_content filepath content
| inr _ =>
    {| path := filepath; classes := []; functions := [];
       h_description := [] |}
end.

(** The page written for a header, with its path. *)
Definition page (output_dir : Path) (header : Header) : Path * str :=
(page_path output_dir header, page_of header).


(** The struct [Point] of the example, with description [d]. *)
Definition point_class (d : str) : Class :=
{| name := txt "Point"; description := d; methods := [];
   base_classes := []; is_struct := true |}.

End DocStatements.

(* ================================================================= *)
(** ** Concrete runs *)

Module Examples.

Definition text (s : string) : str + str := inl (txt s).

Definition point_hpp : str :=
  txt "/// A 2D point." ++ nl ++ txt "/// A 2D point." ++ nl
  ++ txt "/// A 2D point." ++ nl ++ txt "struct Point {" ++ nl
  ++ txt "  double x;" ++ nl ++ txt "  double y;" ++ nl ++ txt "};" ++ nl.

Definition foo_hpp : str :=
  txt "/** File description. */" ++ nl ++ txt "class Foo : public Bar {"
  ++ nl ++ txt "};" ++ nl.

(** A project under [/proj], and an empty [/tmp]. *)
Definition project : node :=
  Dir [(txt "proj",
        Dir [(txt "CMakeLists.txt", File (text "project(Zyrnix)"));
             (txt "tools",
              Dir [(txt "clang_format_all.py", File (text ""));
                   (txt "generate_docs.py", File (text ""))]);
             (txt "src",
              Dir [(txt "b.cpp", File (text "int b;"));
                   (txt "a.cpp", File (text "int  a;"));
                   (txt "notes.txt", File (text "notes"))]);
             (txt "build", Dir [(txt "gen.cpp", File (text "int g;"))]);
             (txt "include",
              Dir [(txt "Zyrnix",
                    Dir [(txt "point.hpp", File (inl point_hpp));
                         (txt "foo.hpp", File (inl foo_hpp))])])]);
       (txt "tmp", Dir [])].

Definition version_text : CompletedProcess :=
  {| returncode := 0; stdout := txt "clang-format version 17.0.6" ++ nl;
     stderr := [] |}.

Definition clean : CompletedProcess :=
  {| returncode := 0; stdout := []; stderr := [] |}.

Definition complaint : CompletedProcess :=
  {| returncode := 1; stdout := [];
     stderr := txt "error: code should be clang-formatted" |}.

(** A formatter that objects to [a.cpp], whatever the command. *)
Definition answer (history : list (list str)) (cmd : list str)
  : CompletedProcess :=
  if str_eqb (last cmd []) (txt "--version") then version_text
  else if str_eqb (last cmd []) (txt "/proj/src/a.cpp") then complaint
  else clean.

Definition proj_world : world :=
  {| fs := project;
     cwd := [txt "/"; txt "tmp"];
     script_dir := [txt "/"; txt "proj"; txt "tools"];
     installed := fun name => str_eqb name (txt "clang-format");
     respond := answer |}.

(** The same project on a machine without any formatter. *)
Definition bare_world : world :=
  {| fs := project;
     cwd := [txt "/"; txt "tmp"];
     script_dir := [txt "/"; txt "proj"; txt "tools"];
     installed := fun _ => false;
     respond := answer |}.

(** A project that sits in the root directory of the file system. *)
Definition root_project : node :=
  Dir [(txt "CMakeLists.txt", File (text "project(Zyrnix)"));
       (txt "tools", Dir [(txt "generate_docs.py", File (text ""))]);
       (txt "tmp", Dir [])].

Definition root_world : world :=
  {| fs := root_project;
     cwd := [txt "/"; txt "tmp"];
     script_dir := [txt "/"; txt "tools"];
     installed := fun name => str_eqb name (txt "clang-format");
     respond := answer |}.

Definition flags (c v d : bool) (ps : list Path) : ClangFormatAll.Args :=
  {| ClangFormatAll.check := c; ClangFormatAll.verbose := v;
     ClangFormatAll.dry_run := d; ClangFormatAll.paths := ps |}.

End Examples.

(* ================================================================= *)
(** ** Further vocabulary and runs *)

Module MoreStatements.

Import ClangFormatAll DriverReports.

(** The message of [check_clang_format] when no formatter answers. *)
Definition not_found_message : list str :=
[txt "Error: clang-format not found. Please install clang-format.";
 txt "  Ubuntu/Debian: sudo apt install clang-format";
 txt "  macOS:         brew install clang-format";
 txt "  Windows:       choco install llvm"].





(** The commands that tool resolution runs for the names it passes
  over: only the executables that exist are run. *)
Definition probes (w : world) (names : list str) : list (list str) :=
map version_cmd (filter (installed w) names).

(** The shortest prefix of a path that the locator examines: the root
  directory and the empty path are left out. *)
Definition lowest (p : Path) : nat := if is_absolute p then 2 else 1.

End MoreStatements.

Module TreeStatements.

(** The node that the names [rel] lead to from the node [n], each name
  being the name of an entry of the directory reached before it. *)
Fixpoint below (n : node) (rel : list str) : option node :=
match rel with
| [] => Some n
| c :: rel' =>
    match n with
    | Dir entries =>
        match find_entry c entries with
        | Some child => below child rel'
        | None => None
        end
    | _ => None
    end
end.

(** [p] names something that lies in the tree under the directory
  [root], at any depth. *)
Definition in_tree (w : world) (root p : Path) : Prop :=
exists entries rel,
  lookup w root = Some (Dir entries)
  /\ rel <> [] /\ p = root ++ rel
  /\ below (Dir entries) rel <> None.

End TreeStatements.

Module MoreAnalysis.

Import Re.

(** Some part of the pattern can read the character [c]. *)
Fixpoint reads (r : regex) (c : ascii) : bool :=
match r with
| Lit l => existsb (Ascii.eqb c) l
| Cls p | Star p | LazyStar p => p c
| Seq a b | Alt a b => reads a c || reads b c
| Group _ r' => reads r' c
| Eps | Bol | Eol => false
end.

(** The characters between the keyword of a declaration and its brace. *)
Definition head_char (c : ascii) : bool :=
PyStr.isspace c || PyStr.isword c || Ascii.eqb c ":"%char.

(** The text that a match covers. *)
Definition matched (content : str) (m : Match) : str :=
firstn (m_end m - m_start m) (skipn (m_start m) content).

(** A text of a comment line: not empty, on one line, without white
  space at its ends and without asterisk. *)
Definition plain_text (t : str) : bool :=
negb (str_eqb t []) && str_eqb (PyStr.strip t) t
&& negb (existsb (Ascii.eqb "*"%char) t)
&& negb (existsb (Ascii.eqb newline) t).

(** The lines of a block comment after the opening one: [ * text] for
  each text, then [ */]. *)
Definition block_lines (texts : list str) : str :=
List.concat (map (fun t => txt " * " ++ t ++ nl) texts) ++ txt " */".

(** The block comment with one line per text. *)
Definition doxygen_block (texts : list str) : str :=
txt "/**" ++ nl ++ block_lines texts.

(** A run of line comments: [/// text] on a line of its own for each
  text. *)
Definition doc_lines (texts : list str) : str :=
List.concat (map (fun t => txt "/// " ++ t ++ nl) texts).

(** No occurrence of [sub] in [s]. *)
Definition free (sub s : str) : Prop :=
forall k, PyStr.startswith (skipn k s) sub = false.

End MoreAnalysis.

Module MoreExamples.

Import Examples.

(** A machine where [clang-format-17] is broken and [clang-format-15]
  works; the plain name is not installed. *)
Definition versioned_answer (history : list (list str)) (cmd : list str)
: CompletedProcess :=
if str_eqb (hd [] cmd) (txt "clang-format-17") then complaint
else answer history cmd.

Definition versioned_world : world :=
{| fs := project;
   cwd := [txt "/"; txt "tmp"];
   script_dir := [txt "/"; txt "proj"; txt "tools"];
   installed := fun name =>
                  str_eqb name (txt "clang-format-17")
                  || str_eqb name (txt "clang-format-15");
   respond := versioned_answer |}.

(** The project of [Examples.project] with the entries of its
  directories listed in another order. *)
Definition project_reordered : node :=
Dir [(txt "tmp", Dir []);
     (txt "proj",
      Dir [(txt "include",
            Dir [(txt "Zyrnix",
                  Dir [(txt "foo.hpp", File (inl foo_hpp));
                       (txt "point.hpp", File (inl point_hpp))])]);
           (txt "build", Dir [(txt "gen.cpp", File (text "int g;"))]);
           (txt "src",
            Dir [(txt "notes.txt", File (text "notes"));
                 (txt "a.cpp", File (text "int  a;"));
                 (txt "b.cpp", File (text "int b;"))]);
           (txt "tools",
            Dir [(txt "generate_docs.py", File (text ""));
                 (txt "clang_format_all.py", File (text ""))]);
           (txt "CMakeLists.txt", File (text "project(Zyrnix)"))])].

Definition reordered_world : world :=
{| fs := project_reordered;
   cwd := [txt "/"; txt "tmp"];
   script_dir := [txt "/"; txt "proj"; txt "tools"];
   installed := fun name => str_eqb name (txt "clang-format");
   respond := answer |}.

(** A header that cannot be decoded, and no include directory at all. *)
Definition damaged_project : node :=
Dir [(txt "proj",
      Dir [(txt "CMakeLists.txt", File (text "project(Zyrnix)"));
           (txt "tools", Dir [(txt "generate_docs.py", File (text ""))]);
           (txt "include",
            Dir [(txt "Zyrnix",
                  Dir [(txt "broken.hpp",
                        File (inr (txt "'utf-8' codec can't decode byte 0xff")))])])]);
     (txt "tmp", Dir [])].

Definition damaged_world : world :=
{| fs := damaged_project;
   cwd := [txt "/"; txt "tmp"];
   script_dir := [txt "/"; txt "proj"; txt "tools"];
   installed := fun _ => false;
   respond := answer |}.



End MoreExamples.

(* ================================================================= *)
(** * Proofs *)

Lemma str_eqb_eq (a b : str) : str_eqb a b = true <-> a = b.
Proof.
  unfold str_eqb. destruct (list_eq_dec ascii_dec a b); split; congruence.
Qed.

Lemma str_eqb_refl (a : str) : str_eqb a a = true.
Proof. now apply str_eqb_eq. Qed.

Lemma str_eqb_neq (a b : str) : str_eqb a b = false <-> a <> b.
Proof.
  unfold str_eqb. destruct (list_eq_dec ascii_dec a b); split; congruence.
Qed.

Module PathOrder.

Lemma ascii_compare_eq (a b : ascii) : Ascii.compare a b = Eq <-> a = b.
Proof.
  split; [apply Ascii.compare_eq_iff|].
  intros ->. unfold Ascii.compare. apply N.compare_refl.
Qed.

Lemma ascii_compare_antisym (a b : ascii) :
  Ascii.compare b a = CompOpp (Ascii.compare a b).
Proof. apply Ascii.compare_antisym. Qed.

Lemma ascii_compare_trans (a b c : ascii) (r : comparison) :
  Ascii.compare a b = r -> Ascii.compare b c = r -> Ascii.compare a c = r.
Proof.
  unfold Ascii.compare. destruct r; intros H1 H2.
  - apply N.compare_eq_iff in H1, H2. apply N.compare_eq_iff. congruence.
  - rewrite N.compare_lt_iff in *. lia.
  - rewrite N.compare_gt_iff in *. lia.
Qed.

Lemma str_compare_eq (a b : str) : str_compare a b = Eq <-> a = b.
Proof. apply list_compare_refl, ascii_compare_eq. Qed.

Lemma str_compare_antisym (a b : str) :
  str_compare b a = CompOpp (str_compare a b).
Proof.
  apply list_compare_antisym;
    auto using ascii_compare_eq, ascii_compare_antisym.
Qed.

Lemma str_compare_trans (a b c : str) (r : comparison) :
  str_compare a b = r -> str_compare b c = r -> str_compare a c = r.
Proof.
  apply list_compare_trans.
  - apply ascii_compare_eq.
  - intros x y z. apply ascii_compare_trans.
  - apply ascii_compare_antisym.
Qed.

Lemma path_compare_eq (p q : Path) : path_compare p q = Eq <-> p = q.
Proof. apply list_compare_refl, str_compare_eq. Qed.

Lemma path_compare_antisym (p q : Path) :
  path_compare q p = CompOpp (path_compare p q).
Proof.
  apply list_compare_antisym;
    auto using str_compare_eq, str_compare_antisym.
Qed.

Lemma path_compare_trans (p q r : Path) (c : comparison) :
  path_compare p q = c -> path_compare q r = c -> path_compare p r = c.
Proof.
  apply list_compare_trans.
  - apply str_compare_eq.
  - intros x y z. apply str_compare_trans.
  - apply str_compare_antisym.
Qed.

Definition path_le (p q : Path) : Prop := path_compare p q <> Gt.

Lemma path_leb_le p q : path_leb p q = true <-> path_le p q.
Proof.
  unfold path_leb, path_le. destruct (path_compare p q); split; congruence.
Qed.

Lemma path_le_total p q : path_leb p q = false -> path_le q p.
Proof.
  unfold path_leb, path_le. rewrite (path_compare_antisym p q).
  destruct (path_compare p q); cbn; congruence.
Qed.

Lemma path_le_trans p q r : path_le p q -> path_le q r -> path_le p r.
Proof.
  unfold path_le. intros H1 H2.
  destruct (path_compare p q) eqn:E1; [| |congruence].
  - apply path_compare_eq in E1. now subst.
  - destruct (path_compare q r) eqn:E2; [| |congruence].
    + apply path_compare_eq in E2. subst. now rewrite E1.
    + now rewrite (path_compare_trans p q r Lt E1 E2).
Qed.

Lemma path_le_lt p q : path_le p q -> p <> q -> path_lt p q.
Proof.
  unfold path_le, path_lt. intros H Hne.
  destruct (path_compare p q) eqn:E; [|reflexivity|congruence].
  now apply path_compare_eq in E.
Qed.

Lemma insert_perm p l : Permutation (p :: l) (insert p l).
Proof.
  induction l as [|q l IH]; cbn [insert]; [reflexivity|].
  destruct (path_leb p q); [reflexivity|].
  rewrite perm_swap. now constructor.
Qed.

Lemma sorted_perm l : Permutation l (sorted l).
Proof.
  induction l as [|p l IH]; cbn [sorted]; [constructor|].
  rewrite <- insert_perm. now constructor.
Qed.

Lemma insert_sorted p l :
  StronglySorted path_le l -> StronglySorted path_le (insert p l).
Proof.
  induction 1 as [|q l Hl IH Hq]; cbn [insert].
  - repeat constructor.
  - destruct (path_leb p q) eqn:E.
    + apply path_leb_le in E. constructor; [now constructor|].
      constructor; [exact E|].
      eapply Forall_impl; [|exact Hq]. intros r. now apply path_le_trans.
    + apply path_le_total in E. constructor; [exact IH|].
      apply (Permutation_Forall (insert_perm p l)). now constructor.
Qed.

Lemma sorted_sorted l : StronglySorted path_le (sorted l).
Proof.
  induction l as [|p l IH]; cbn [sorted]; [constructor|].
  now apply insert_sorted.
Qed.

Lemma strict_of_nodup l :
  StronglySorted path_le l -> NoDup l -> StronglySorted path_lt l.
Proof.
  induction 1 as [|p l Hl IH Hp]; intros Hnd; [constructor|].
  inversion Hnd as [|? ? Hnotin Hnd']; subst.
  constructor; [now apply IH|].
  rewrite Forall_forall in *. intros q Hq.
  apply path_le_lt; [now apply Hp|]. intros ->. contradiction.
Qed.

End PathOrder.

Module TreeFacts.

(** Induction over a tree, with the hypothesis for every entry of a
    directory. *)
Lemma node_induction (P : node -> Prop) :
  (forall c, P (File c)) ->
  (forall e, P (Special e)) ->
  (forall entries, Forall (fun e => P (snd e)) entries -> P (Dir entries)) ->
  forall n, P n.
Proof.
  intros HF HS HD. fix IH 1. intros [c|e|entries]; [apply HF|apply HS|].
  apply HD. revert entries. fix IHes 1.
  intros [|[nm child] entries]; constructor; [apply IH | apply IHes].
Qed.

Lemma distinct_NoDup names : distinct names = true -> NoDup names.
Proof.
  induction names as [|nm names IH]; cbn [distinct]; [constructor|].
  rewrite andb_true_iff, negb_true_iff. intros [Hn Hd].
  constructor; [|auto]. intros Hin.
  assert (existsb (str_eqb nm) names = true); [|congruence].
  apply existsb_exists. exists nm. split; [exact Hin|apply str_eqb_refl].
Qed.

Lemma wf_Dir entries :
  wf_node (Dir entries) = true <->
  distinct (entry_names entries) = true /\
  Forall (fun e => wf_node (snd e) = true) entries.
Proof.
  cbn [wf_node]. rewrite andb_true_iff.
  apply and_iff_compat_l.
  induction entries as [|[nm child] entries IH].
  - split; [constructor|reflexivity].
  - rewrite andb_true_iff, IH. split.
    + intros [? ?]. now constructor.
    + intros H. inversion H; subst. now split.
Qed.

(** The listing of a directory, entry by entry. *)
Lemma enum_Dir_nil : enum (Dir []) = [].
Proof. reflexivity. Qed.

Lemma enum_Dir_cons nm child entries :
  enum (Dir ((nm, child) :: entries))
  = ([nm] :: map (cons nm) (enum child)) ++ enum (Dir entries).
Proof. reflexivity. Qed.

Lemma enum_head entries p :
  In p (enum (Dir entries)) ->
  exists nm rel, p = nm :: rel /\ In nm (entry_names entries).
Proof.
  induction entries as [|[nm child] entries IH].
  - intros [].
  - rewrite enum_Dir_cons. intros H. apply in_app_or in H.
    destruct H as [[<-|H]|H].
    + exists nm, []. split; [reflexivity|now left].
    + apply in_map_iff in H. destruct H as (rel & <- & _).
      exists nm, rel. split; [reflexivity|now left].
    + destruct (IH H) as (nm' & rel & -> & Hin).
      exists nm', rel. split; [reflexivity|now right].
Qed.

Lemma enum_nonempty n : ~ In [] (enum n).
Proof.
  destruct n as [c|e|entries]; [intros []|intros []|].
  intros H. apply enum_head in H. destruct H as (nm & rel & E & _).
  discriminate.
Qed.

Lemma enum_NoDup n : wf_node n = true -> NoDup (enum n).
Proof.
  induction n as [c|e|entries IH] using node_induction;
    [constructor|constructor|].
  rewrite wf_Dir. intros [Hd Hwf]. apply distinct_NoDup in Hd.
  induction entries as [|[nm child] entries IHes]; [constructor|].
  inversion IH as [|? ? IHchild IHrest]; subst.
  inversion Hwf as [|? ? Hchild Hrest]; subst.
  cbn [entry_names map fst] in Hd.
  inversion Hd as [|? ? Hnotin Hd']; subst.
  rewrite enum_Dir_cons. apply NoDup_app.
  - constructor.
    + intros H. apply in_map_iff in H. destruct H as (rel & E & Hrel).
      injection E. intros ->. now apply enum_nonempty in Hrel.
    + apply Injective_map_NoDup; [|now apply IHchild].
      intros a b E. now injection E.
  - now apply IHes.
  - intros p H1 H2. apply enum_head in H2.
    destruct H2 as (nm' & rel & -> & Hin).
    assert (nm' = nm); [|now subst].
    destruct H1 as [E|H1]; [now injection E|].
    apply in_map_iff in H1. destruct H1 as (rel' & E & _).
    now injection E.
Qed.

Lemma find_entry_wf nm entries n :
  Forall (fun e => wf_node (snd e) = true) entries ->
  find_entry nm entries = Some n -> wf_node n = true.
Proof.
  induction 1 as [|[k child] entries Hc _ IH]; cbn [find_entry];
    [discriminate|].
  destruct (str_eqb k nm); [|exact IH].
  intros E. injection E. now intros <-.
Qed.

Lemma walk_wf comps :
  forall up cur up' n,
    wf_node cur = true ->
    Forall (fun d => wf_node d = true) up ->
    walk up cur comps = Some (up', n) ->
    wf_node n = true /\ Forall (fun d => wf_node d = true) up'.
Proof.
  induction comps as [|c comps IH]; intros up cur up' n Hcur Hup;
    cbn [walk].
  - intros E. injection E. intros <- <-. now split.
  - destruct cur as [?|?|entries]; try discriminate.
    destruct (str_eqb c dotdot).
    + destruct up as [|d up1]; [now apply IH|].
      inversion Hup; subst. now apply IH.
    + destruct (find_entry c entries) as [child|] eqn:E; [|discriminate].
      apply IH; [|now constructor].
      apply wf_Dir in Hcur. eapply find_entry_wf; [apply Hcur|exact E].
Qed.

Lemma lookup_wf w p n :
  wf_node (fs w) = true -> lookup w p = Some n -> wf_node n = true.
Proof.
  intros Hwf. unfold lookup.
  destruct (is_absolute p).
  - destruct (walk [] (fs w) (tl p)) as [[up n']|] eqn:E; [|discriminate].
    cbn. intros H. injection H. intros <-.
    eapply walk_wf; [exact Hwf|constructor|exact E].
  - destruct (walk [] (fs w) (tl (cwd w))) as [[up cur]|] eqn:E;
      [|discriminate].
    destruct (walk up cur p) as [[up' n']|] eqn:E'; [|discriminate].
    cbn. intros H. injection H. intros <-.
    destruct (walk_wf _ _ _ _ _ Hwf (Forall_nil _) E) as [Hcur Hup].
    eapply walk_wf; [exact Hcur|exact Hup|exact E'].
Qed.

Lemma rglob_NoDup w root :
  wf_node (fs w) = true -> NoDup (rglob w root).
Proof.
  intros Hwf. unfold rglob.
  destruct (lookup w root) as [[c|e|entries]|] eqn:E; try constructor.
  apply Injective_map_NoDup.
  - intros a b. apply app_inv_head.
  - apply enum_NoDup. eapply lookup_wf; eauto.
Qed.

(** Everything found below [root] has [root] as a proper prefix. *)
Lemma rglob_below w root p :
  In p (rglob w root) -> exists rel, rel <> [] /\ p = root ++ rel.
Proof.
  unfold rglob.
  destruct (lookup w root) as [[c|e|entries]|]; try (intros []).
  intros H. apply in_map_iff in H. destruct H as (rel & <- & Hrel).
  exists rel. split; [|reflexivity].
  intros ->. now apply enum_nonempty in Hrel.
Qed.

End TreeFacts.

Module DiscoveryFacts.

Import ClangFormatAll PathOrder TreeFacts.

Lemma mem_In x items : mem x items = true <-> In x items.
Proof.
  unfold mem. rewrite existsb_exists. split.
  - intros (y & Hy & E). apply str_eqb_eq in E. now subst.
  - intros H. exists x. split; [exact H|apply str_eqb_refl].
Qed.

Lemma skipped_spec path :
  skipped path = true <-> exists c, In c path /\ In c SKIP_DIRS.
Proof.
  unfold skipped. rewrite existsb_exists. split.
  - intros (d & Hd & Hm). apply mem_In in Hm. now exists d.
  - intros (c & Hc & Hs). exists c. split; [exact Hs|now apply mem_In].
Qed.

Lemma wanted_spec w path :
  wanted w path = true <->
  is_file w path = true /\ In (suffix path) CPP_EXTENSIONS /\
  (forall c, In c path -> ~ In c SKIP_DIRS).
Proof.
  unfold wanted. destruct (skipped path) eqn:E.
  - apply skipped_spec in E. destruct E as (c & Hc & Hs).
    split; [discriminate|]. intros (_ & _ & H). now elim (H c).
  - rewrite andb_true_iff, mem_In. split.
    + intros [? ?]. repeat split; auto. intros c Hc Hs.
      assert (skipped path = true); [|congruence].
      apply skipped_spec. now exists c.
    + tauto.
Qed.

Lemma find_cpp_files_In w root p :
  In p (find_cpp_files w root) <->
  In p (rglob w root) /\ wanted w p = true.
Proof.
  unfold find_cpp_files. rewrite <- filter_In. split.
  - apply Permutation_in. symmetry. apply sorted_perm.
  - apply Permutation_in. apply sorted_perm.
Qed.

End DiscoveryFacts.


Section MonadFacts.

Lemma bind_inl {A B} (m : M A) (k : A -> M B) st a st' :
  m st = (inl a, st') -> bind m k st = k a st'.
Proof. unfold bind. intros ->. reflexivity. Qed.

Lemma bind_inr {A B} (m : M A) (k : A -> M B) st e st' :
  m st = (inr e, st') -> bind m k st = (inr e, st').
Proof. unfold bind. intros ->. reflexivity. Qed.

Lemma bind_ret_snd {A B} (m : M A) (b : B) st :
  snd ((m ;;; ret b) st) = snd (m st).
Proof. unfold bind. destruct (m st) as [[a|e] st']; reflexivity. Qed.

Lemma add_printed_nil st : add_printed [] st = st.
Proof. destruct st. unfold add_printed. cbn. now rewrite app_nil_r. Qed.

Lemma add_procs_nil st : add_procs [] st = st.
Proof. destruct st. unfold add_procs. cbn. now rewrite app_nil_r. Qed.

Lemma add_printed_app a b st :
  add_printed b (add_printed a st) = add_printed (a ++ b) st.
Proof. unfold add_printed. cbn. now rewrite app_assoc. Qed.

Lemma add_procs_app a b st :
  add_procs b (add_procs a st) = add_procs (a ++ b) st.
Proof. unfold add_procs. cbn. now rewrite app_assoc. Qed.

Lemma add_procs_printed a b st :
  add_procs b (add_printed a st) = add_printed a (add_procs b st).
Proof. reflexivity. Qed.

End MonadFacts.

Ltac state_eq :=
  unfold ret, add_printed, add_procs, add_written, add_made_dirs;
  cbn [printed procs written made_dirs app];
  rewrite <- ?app_assoc, ?app_nil_r; cbn [app]; reflexivity.

Module DriverFacts.

Import ClangFormatAll DriverReports.

Section Loop.

Variable w : world.
Variable cf : str.
Hypothesis Hcf : installed w cf = true.

Lemma run_installed cmd st :
  hd [] cmd = cf ->
  subprocess_run w cmd st = (inl (respond w (procs st) cmd), add_procs [cmd] st).
Proof. unfold subprocess_run. intros ->. now rewrite Hcf. Qed.

Lemma format_file_fix f v st :
  format_file w cf f false v st
  = (inl (returncode (respond w (procs st) (fix_cmd cf f)) =? 0)%Z,
     add_printed (fix_report w cf v (procs st) [f])
                 (add_procs [fix_cmd cf f] st)).
Proof.
  unfold format_file. cbn [fix_report].
  set (r := respond w (procs st) (fix_cmd cf f)).
  assert (Hrun : forall st0, procs st0 = procs st ->
            subprocess_run w (fix_cmd cf f) st0 = (inl r, add_procs [fix_cmd cf f] st0)).
  { intros st0 E. rewrite run_installed by reflexivity. now rewrite E. }
  destruct v.
  - erewrite bind_inl by reflexivity.
    erewrite bind_inl by (apply Hrun; reflexivity).
    destruct (returncode r =? 0)%Z; cbn [negb].
    + state_eq.
    + erewrite bind_inl by reflexivity. state_eq.
  - erewrite bind_inl by reflexivity.
    erewrite bind_inl by (apply Hrun; reflexivity).
    destruct (returncode r =? 0)%Z; cbn [negb].
    + destruct st; state_eq.
    + erewrite bind_inl by reflexivity. state_eq.
Qed.

Lemma fix_loop v files :
  forall n st,
  exists n',
    for_fold files
      (fun needs_formatting filepath =>
         changed <- format_file w cf filepath false v ;;
         ret (if changed then needs_formatting + 1 else needs_formatting))
      n st
    = (inl n',
       add_printed (fix_report w cf v (procs st) files)
                   (add_procs (map (fix_cmd cf) files) st)).
Proof.
  induction files as [|f files IH]; intros n st.
  - exists n. cbn. now rewrite add_procs_nil, add_printed_nil.
  - cbn [for_fold].
    erewrite bind_inl
      by (erewrite bind_inl by apply format_file_fix; reflexivity).
    match goal with |- context [for_fold files _ ?a ?s] =>
      destruct (IH a s) as [n' E] end.
    exists n'. rewrite E. f_equal.
    cbn [fix_report map]. 
    rewrite add_procs_printed, add_procs_app, add_printed_app.
    cbn [procs add_printed add_procs]. 
    rewrite <- !app_assoc. reflexivity.
Qed.

Lemma format_file_check f v st :
  format_file w cf f true v st
  = (inl (needs_reformatting w cf (procs st) f),
     add_printed (check_report w cf v (procs st) [f])
                 (add_procs [check_cmd cf f] st)).
Proof.
  unfold format_file, needs_reformatting. cbn [check_report].
  unfold needs_reformatting.
  set (r := respond w (procs st) (check_cmd cf f)).
  assert (Hrun : forall st0, procs st0 = procs st ->
            subprocess_run w (check_cmd cf f) st0
            = (inl r, add_procs [check_cmd cf f] st0)).
  { intros st0 E. rewrite run_installed by reflexivity. now rewrite E. }
  destruct v.
  - erewrite bind_inl by reflexivity.
    erewrite bind_inl by (apply Hrun; reflexivity).
    destruct (returncode r =? 0)%Z; cbn [negb].
    + state_eq.
    + erewrite bind_inl by reflexivity. state_eq.
  - erewrite bind_inl by reflexivity.
    erewrite bind_inl by (apply Hrun; reflexivity).
    destruct (returncode r =? 0)%Z; cbn [negb].
    + destruct st; state_eq.
    + erewrite bind_inl by reflexivity. state_eq.
Qed.

Lemma check_loop v files :
  forall n st,
    for_fold files
      (fun needs_formatting filepath =>
         changed <- format_file w cf filepath true v ;;
         ret (if changed then needs_formatting + 1 else needs_formatting))
      n st
    = (inl (n + List.length (flagged w cf (procs st) files)),
       add_printed (check_report w cf v (procs st) files)
                   (add_procs (map (check_cmd cf) files) st)).
Proof.
  induction files as [|f files IH]; intros n st.
  - cbn. rewrite Nat.add_0_r, add_procs_nil, add_printed_nil. reflexivity.
  - cbn [for_fold].
    erewrite bind_inl
      by (erewrite bind_inl by apply format_file_check; reflexivity).
    rewrite IH. f_equal.
    + f_equal. cbn [flagged procs add_printed add_procs].
      rewrite length_app.
      destruct (needs_reformatting w cf (procs st) f); cbn; lia.
    + cbn [check_report map flagged].
      rewrite add_procs_printed, add_procs_app, add_printed_app.
      cbn [procs add_printed add_procs].
      rewrite <- !app_assoc. reflexivity.
Qed.

End Loop.

(** The listing loop of the dry run prints and runs nothing else. *)
Lemma listing_loop root files :
  forall st,
    Forall (under root) files ->
    for_each files
      (fun f =>
         match relative_to f root with
         | Some rel => print (txt "  " ++ to_str rel)
         | None => raise ValueError
         end) st
    = (inl tt, add_printed (map (listing_line root) files) st).
Proof.
  induction files as [|f files IH]; intros st H.
  - cbn. now rewrite add_printed_nil.
  - inversion H as [|? ? Hf Hfs]; subst. cbn [for_each map].
    unfold under in Hf. unfold listing_line at 1.
    destruct (relative_to f root) as [rel|]; [|congruence].
    erewrite bind_inl by reflexivity. rewrite IH by assumption.
    now rewrite add_printed_app.
Qed.

Lemma listing_loop_procs root files :
  forall st,
    procs (snd (for_each files
      (fun f =>
         match relative_to f root with
         | Some rel => print (txt "  " ++ to_str rel)
         | None => raise ValueError
         end) st)) = procs st.
Proof.
  induction files as [|f files IH]; intros st.
  - reflexivity.
  - cbn [for_each]. unfold bind at 1.
    destruct (relative_to f root) as [rel|].
    + cbn. rewrite IH. reflexivity.
    + reflexivity.
Qed.

(** One iteration of the loop of [check_clang_format]. *)
Lemma probe_step w name names st :
  probe w (name :: names) st
  = if installed w name then
      if (returncode (respond w (procs st) (version_cmd name)) =? 0)%Z
      then (inl name, add_procs [version_cmd name] st)
      else probe w names (add_procs [version_cmd name] st)
    else probe w names st.
Proof.
  cbn [probe]. unfold bind at 1, except_FileNotFoundError.
  unfold bind at 1, subprocess_run. cbn [hd version_cmd].
  destruct (installed w name); [|reflexivity].
  unfold ret at 1.
  destruct (returncode _ =? 0)%Z; reflexivity.
Qed.

(** Tool resolution: it runs version probes only; when it returns, the
    name returned is installed and nothing was printed. *)
Lemma probe_outcome w names :
  forall st,
  exists tried,
    incl tried names /\
    procs (snd (probe w names st)) = procs st ++ map version_cmd tried /\
    written (snd (probe w names st)) = written st /\
    made_dirs (snd (probe w names st)) = made_dirs st /\
    match fst (probe w names st) with
    | inl cf => In cf names /\ installed w cf = true
                /\ printed (snd (probe w names st)) = printed st
    | inr e => e = SystemExit 1%Z
    end.
Proof.
  induction names as [|name names IH]; intros st.
  - exists []. cbn. rewrite app_nil_r. repeat split; auto using incl_nil_l.
  - rewrite probe_step.
    destruct (installed w name) eqn:Hi;
      [destruct (returncode _ =? 0)%Z|].
    + exists [name]. cbn. repeat split; auto.
      intros x [<-|[]]. now left.
    + destruct (IH (add_procs [version_cmd name] st))
        as (tried & Hin & Hp & Hw & Hm & Hr).
      exists (name :: tried). rewrite Hp, Hw, Hm.
      cbn [procs written made_dirs add_procs map].
      rewrite <- app_assoc. repeat split; auto.
      * intros x [<-|Hx]; [now left|right; auto].
      * destruct (fst (probe w names _)); [|assumption].
        destruct Hr as (? & ? & ?). repeat split; auto. now right.
    + destruct (IH st) as (tried & Hin & Hp & Hw & Hm & Hr).
      exists tried. repeat split; auto.
      * intros x Hx. right. auto.
      * destruct (fst (probe w names st)); [|assumption].
        destruct Hr as (? & ? & ?). repeat split; auto. now right.
Qed.

Lemma collect_flat_map w paths :
  forall acc, collect w paths acc = acc ++ flat_map (expand w) paths.
Proof.
  induction paths as [|p paths IH]; intros acc; cbn [collect flat_map].
  - now rewrite app_nil_r.
  - unfold expand at 1.
    destruct (is_file w p); [|destruct (is_dir w p)];
      rewrite IH, <- ?app_assoc; reflexivity.
Qed.

End DriverFacts.

Module DriverRuns.

Import ClangFormatAll DriverReports DriverFacts.

Section Resolved.

Variables (w : world) (args : Args) (cf : str) (st1 : pystate).
Hypothesis Hres : check_clang_format w (banner w) = (inl cf, st1).

Lemma resolved_installed : installed w cf = true.
Proof.
  destruct (probe_outcome w tool_names (banner w)) as (_ & _ & _ & _ & _ & H).
  unfold check_clang_format in Hres. rewrite Hres in H. cbn [fst snd] in H. tauto.
Qed.

Lemma resolved_known : In cf tool_names.
Proof.
  destruct (probe_outcome w tool_names (banner w)) as (_ & _ & _ & _ & _ & H).
  unfold check_clang_format in Hres. rewrite Hres in H. cbn [fst snd] in H. tauto.
Qed.

Lemma resolved_written : written st1 = [].
Proof.
  destruct (probe_outcome w tool_names (banner w)) as (_ & _ & _ & H & _).
  unfold check_clang_format in Hres. rewrite Hres in H. exact H.
Qed.

Lemma main_resolved :
  main w args initial
  = (if dry_run args then
       print (nl ++ txt "Files that would be formatted:") ;;;
       for_each (candidates w args (find_project_root w))
         (fun f =>
            match relative_to f (find_project_root w) with
            | Some rel => print (txt "  " ++ to_str rel)
            | None => raise ValueError
            end) ;;;
       ret 0%Z
     else
       needs_formatting <-
         for_fold (candidates w args (find_project_root w))
           (fun needs_formatting filepath =>
              changed <- format_file w cf filepath
                           (check args) (verbose args) ;;
              ret (if changed then needs_formatting + 1
                   else needs_formatting))
           0 ;;
       if check args then
         if 0 <? needs_formatting then
           print (nl ++ PyStr.of_nat needs_formatting
                  ++ txt " file(s) need formatting.") ;;;
           print (txt "Run 'python tools/clang_format_all.py' to fix.") ;;;
           ret 1%Z
         else
           print (nl ++ txt "All files are properly formatted!") ;;;
           ret 0%Z
       else
         print (nl ++ txt "Formatted " ++ PyStr.of_nat
                  (List.length
                     (candidates w args (find_project_root w)))
                ++ txt " files.") ;;;
         ret 0%Z) (ready w args cf st1).
Proof.
  unfold main.
  erewrite bind_inl by reflexivity.
  erewrite bind_inl by exact Hres.
  erewrite bind_inl
    by (apply (run_installed w cf resolved_installed); reflexivity).
  erewrite bind_inl by reflexivity.
  erewrite bind_inl by reflexivity.
  f_equal. unfold ready, preamble. state_eq.
Qed.

End Resolved.

End DriverRuns.

Import ClangFormatAll DriverReports DriverFacts DriverRuns Examples.

(** C2.  A run in fix mode that reaches the loop over the files exits
    with status 0 whatever the formatter returns: every file is handed
    to the formatter, in order, a failure only adds the line with the
    error text of the formatter, and the run ends with the summary. *)
Theorem fix_mode_exit_status :
  forall (w : world) (args : Args) (cf : str) (st1 : pystate),
    check args = false ->
    dry_run args = false ->
    check_clang_format w (banner w) = (inl cf, st1) ->
    let files := candidates w args (find_project_root w) in
    let history := procs st1 ++ [version_cmd cf] in
    fst (run w args) = 0%Z /\
    procs (snd (run w args)) = history ++ map (fix_cmd cf) files /\
    printed (snd (run w args))
    = printed st1 ++ preamble w cf (procs st1) files
      ++ fix_report w cf (verbose args) history files
      ++ [nl ++ txt "Formatted " ++ PyStr.of_nat (List.length files)
          ++ txt " files."].
Proof.
  intros w args cf st1 Hc Hd Hres files history.
  unfold run. rewrite (main_resolved w args cf st1 Hres), Hd.
  destruct (fix_loop w cf (resolved_installed w cf st1 Hres) (verbose args)
              files 0 (ready w args cf st1)) as [n E].
  rewrite Hc. fold files.
  erewrite bind_inl by exact E.
  erewrite bind_inl by reflexivity.
  cbn [fst snd exit_status ret]. split; [reflexivity|].
  unfold ready. cbn [procs printed add_printed add_procs].
  fold history. rewrite <- !app_assoc. split; reflexivity.
Qed.

Lemma fix_mode_exit_status_witness :
  fst (run proj_world (flags false false false [])) = 0%Z.
Proof.
  apply (fix_mode_exit_status proj_world (flags false false false [])
           (txt "clang-format")
           (add_procs [version_cmd (txt "clang-format")] (banner proj_world)));
    reflexivity.
Defined.

(** C1, as the code has it.  A run with [--check] and without
    [--dry-run] in which a formatter is found exits with status 1 when
    the check invocation of at least one file to process returns a
    non-zero code and with status 0 otherwise; besides the version
    probes it runs the formatter only in its [--dry-run --Werror] form,
    once per file, and writes no file itself. *)
Theorem check_mode_exit_status :
  forall (w : world) (args : Args) (cf : str) (st1 : pystate),
    check args = true ->
    dry_run args = false ->
    check_clang_format w (banner w) = (inl cf, st1) ->
    let files := candidates w args (find_project_root w) in
    let history := procs st1 ++ [version_cmd cf] in
    fst (run w args)
    = match flagged w cf history files with
      | [] => 0%Z
      | _ :: _ => 1%Z
      end /\
    procs (snd (run w args)) = history ++ map (check_cmd cf) files /\
    written (snd (run w args)) = [].
Proof.
  intros w args cf st1 Hc Hd Hres files history.
  unfold run. rewrite (main_resolved w args cf st1 Hres), Hd, Hc.
  fold files.
  erewrite bind_inl
    by apply (check_loop w cf (resolved_installed w cf st1 Hres)).
  assert (Hh : procs (ready w args cf st1) = history) by reflexivity.
  rewrite Hh. cbn [Nat.add].
  assert (Hw : written (ready w args cf st1) = [])
    by (cbn; apply (resolved_written w cf st1 Hres)).
  destruct (flagged w cf history files) as [|f fl]; cbn [List.length Nat.ltb Nat.leb].
  - erewrite bind_inl by reflexivity.
    cbn [fst snd exit_status ret procs written add_printed add_procs].
    rewrite Hh, Hw. repeat split; reflexivity.
  - erewrite bind_inl by reflexivity. erewrite bind_inl by reflexivity.
    cbn [fst snd exit_status ret procs written add_printed add_procs].
    rewrite Hh, Hw. repeat split; reflexivity.
Qed.

Lemma check_mode_exit_status_witness :
  fst (run proj_world (flags true false false [])) = 1%Z /\
  written (snd (run proj_world (flags true false false []))) = [].
Proof.
  pose proof
    (check_mode_exit_status proj_world (flags true false false [])
       (txt "clang-format")
       (add_procs [version_cmd (txt "clang-format")] (banner proj_world))
       eq_refl eq_refl eq_refl) as H.
  split; [exact (proj1 H) | exact (proj2 (proj2 H))].
Defined.

(** C1 fails as stated: with [--check] on a machine without a formatter
    the exit status is 1 although no check invocation ran, so that no
    file was found to require reformatting; and with [--check --dry-run]
    the exit status is 0 although the formatter objects to a file of
    the project. *)
Lemma check_mode_exit_status_counterexample :
  (check (flags true false false []) = true /\
   procs (snd (run bare_world (flags true false false []))) = [] /\
   fst (run bare_world (flags true false false [])) = 1%Z) /\
  (check (flags true false true []) = true /\
   In [txt "/"; txt "proj"; txt "src"; txt "a.cpp"]
      (candidates proj_world (flags true false true [])
         (find_project_root proj_world)) /\
   (forall history,
       needs_reformatting proj_world (txt "clang-format") history
         [txt "/"; txt "proj"; txt "src"; txt "a.cpp"] = true) /\
   fst (run proj_world (flags true false true [])) = 0%Z).
Proof.
  split; [repeat split; vm_compute; reflexivity|].
  split; [reflexivity|]. split; [vm_compute; tauto|].
  split; [intros history; reflexivity | vm_compute; reflexivity].
Qed.

(** C5, as the code has it.  A run with [--dry-run] never hands a file
    to the formatter: the only commands it runs are version probes of
    the known executable names.  When a formatter is found and every
    file to process lies under the project root, the run prints the
    list of these files, relative to the project root, and exits with
    status 0. *)
Theorem dry_run_only_probes :
  forall (w : world) (args : Args),
    dry_run args = true ->
    Forall is_probe (procs (snd (run w args))) /\
    (forall cf st1,
        check_clang_format w (banner w) = (inl cf, st1) ->
        let files := candidates w args (find_project_root w) in
        Forall (under (find_project_root w)) files ->
        fst (run w args) = 0%Z /\
        procs (snd (run w args)) = procs st1 ++ [version_cmd cf] /\
        printed (snd (run w args))
        = printed st1 ++ preamble w cf (procs st1) files
          ++ [nl ++ txt "Files that would be formatted:"]
          ++ map (listing_line (find_project_root w)) files).
Proof.
  intros w args Hd. split.
  - destruct (probe_outcome w tool_names (banner w))
      as (tried & Hin & Hp & _ & _ & Hr).
    assert (Htried : Forall is_probe (map version_cmd tried)).
    { apply Forall_forall. intros c Hc. apply in_map_iff in Hc.
      destruct Hc as (name & <- & Hn). exists name. split; auto. }
    fold (check_clang_format w) in Hp, Hr.
    destruct (check_clang_format w (banner w)) as [[cf|e] st1] eqn:Hres;
      cbn [fst snd] in Hp, Hr.
    + unfold run. rewrite (main_resolved w args cf st1 Hres), Hd.
      erewrite bind_inl by reflexivity.
      cbn [snd]. rewrite bind_ret_snd, listing_loop_procs.
      cbn [procs ready add_printed add_procs]. rewrite Hp.
      cbn [procs banner add_printed initial app].
      apply Forall_app. split; [exact Htried|].
      constructor; [|constructor]. exists cf. tauto.
    + unfold run, main.
      erewrite bind_inl by reflexivity.
      erewrite bind_inr by exact Hres.
      cbn [fst snd]. rewrite Hp. exact Htried.
  - intros cf st1 Hres files Hunder.
    unfold run. rewrite (main_resolved w args cf st1 Hres), Hd.
    erewrite bind_inl by reflexivity. fold files.
    erewrite bind_inl by (apply listing_loop; exact Hunder).
    cbn [fst snd exit_status ret]. split; [reflexivity|].
    unfold ready. cbn [procs printed add_printed add_procs].
    rewrite <- !app_assoc. split; reflexivity.
Qed.

Lemma dry_run_only_probes_witness :
  Forall is_probe (procs (snd (run proj_world (flags false false true []))))
  /\ fst (run proj_world (flags false false true [])) = 0%Z
  /\ printed (snd (run proj_world (flags false false true [])))
     = [txt "Project root: /proj";
        txt "Using: clang-format version 17.0.6";
        txt "Found 4 C++ files";
        nl ++ txt "Files that would be formatted:";
        txt "  include/Zyrnix/foo.hpp";
        txt "  include/Zyrnix/point.hpp";
        txt "  src/a.cpp";
        txt "  src/b.cpp"].
Proof.
  destruct (dry_run_only_probes proj_world (flags false false true [])
              eq_refl) as [Hprobes Hlist].
  split; [exact Hprobes|].
  destruct (Hlist (txt "clang-format")
              (add_procs [version_cmd (txt "clang-format")]
                 (banner proj_world)) eq_refl) as (Hexit & _ & Hprinted).
  - vm_compute. repeat constructor; discriminate.
  - split; [exact Hexit|]. rewrite Hprinted. reflexivity.
Defined.

(** C5 fails as stated: a dry run probes the formatter for its version,
    twice when the first executable name answers. *)
Lemma dry_run_only_probes_counterexample :
  dry_run (flags false false true []) = true /\
  procs (snd (run proj_world (flags false false true [])))
  = [[txt "clang-format"; txt "--version"];
     [txt "clang-format"; txt "--version"]].
Proof. split; vm_compute; reflexivity. Qed.

(** C10.  A positional argument that is a regular file is among the
    files to process, whatever its suffix and whatever the directories
    on its path.  An argument that is neither a regular file nor a
    directory adds nothing to the files to process.  Beside other
    arguments the run is the run without it: the same lines printed,
    the same commands, the same exit status.  When it is the only
    argument the project is not searched in its place: no file is
    processed, and once a formatter is found the run prints the
    preamble for 0 files and the closing line of its mode, runs no
    command after the version query and exits with status 0. *)
Theorem positional_arguments :
  forall (w : world) (args : Args) (before after : list Path) (p : Path),
    paths args = before ++ p :: after ->
    let root := find_project_root w in
    (is_file w p = true -> In p (candidates w args root)) /\
    (is_file w p = false -> is_dir w p = false ->
     candidates w args root = flat_map (expand w) (before ++ after) /\
     (before ++ after <> [] ->
      main w args = main w (with_paths args (before ++ after))) /\
     (before ++ after = [] ->
      candidates w args root = [] /\
      forall cf st1,
        check_clang_format w (banner w) = (inl cf, st1) ->
        run w args
        = (0%Z,
           add_printed
             (preamble w cf (procs st1) [] ++ [nothing_to_do args])
             (add_procs [version_cmd cf] st1)))).
Proof.
  intros w args before after p Hp root.
  assert (Hc : candidates w args root = flat_map (expand w) (paths args)).
  { unfold candidates. rewrite Hp.
    destruct (before ++ p :: after) eqn:E.
    - destruct before; discriminate.
    - now rewrite collect_flat_map. }
  split.
  - intros Hf. rewrite Hc, Hp. apply in_flat_map. exists p. split.
    + apply in_or_app. right. now left.
    + unfold expand. rewrite Hf. now left.
  - intros Hf Hd.
    assert (Hdrop : flat_map (expand w) (before ++ p :: after)
                    = flat_map (expand w) (before ++ after)).
    { rewrite !flat_map_app. cbn [flat_map]. unfold expand at 2.
      now rewrite Hf, Hd. }
    assert (Hc' : candidates w args root = flat_map (expand w) (before ++ after))
      by now rewrite Hc, Hp.
    split; [exact Hc'|]. split.
    + intros Hne. unfold main. fold root.
      assert (E : candidates w (with_paths args (before ++ after)) root
                  = candidates w args root).
      { rewrite Hc'. unfold candidates, with_paths. cbn [paths].
        destruct (before ++ after) eqn:E; [congruence|].
        now rewrite collect_flat_map. }
      rewrite E. reflexivity.
    + intros Hnil.
      rewrite Hnil in Hc'. cbn [flat_map] in Hc'.
      split; [exact Hc'|]. intros cf st1 Hres.
      unfold run. rewrite (main_resolved w args cf st1 Hres).
      unfold ready, nothing_to_do. fold root. rewrite Hc'.
      destruct (dry_run args).
      * cbn [for_each]. unfold bind, print, ret.
        cbn [fst snd exit_status]. f_equal. state_eq.
      * cbn [for_fold]. erewrite bind_inl by reflexivity.
        destruct (check args); cbn [Nat.ltb Nat.leb List.length];
          unfold bind, print, ret; cbn [fst snd exit_status];
          f_equal; state_eq.
Qed.

Lemma positional_arguments_witness :
  In [txt "/"; txt "proj"; txt "build"; txt "gen.cpp"]
     (candidates proj_world
        (flags true false false
           [[txt "/"; txt "proj"; txt "build"; txt "gen.cpp"];
            [txt "/"; txt "proj"; txt "src"; txt "notes.txt"];
            [txt "/"; txt "nowhere"]])
        (find_project_root proj_world))
  /\ run proj_world (flags true false false [[txt "/"; txt "nowhere"]])
     = (0%Z,
        {| printed := [txt "Project root: /proj";
                       txt "Using: clang-format version 17.0.6";
                       txt "Found 0 C++ files";
                       nl ++ txt "All files are properly formatted!"];
           procs := [[txt "clang-format"; txt "--version"];
                     [txt "clang-format"; txt "--version"]];
           written := [];
           made_dirs := [] |}).
Proof.
  split.
  - refine (proj1 (positional_arguments proj_world
              (flags true false false
                 [[txt "/"; txt "proj"; txt "build"; txt "gen.cpp"];
                  [txt "/"; txt "proj"; txt "src"; txt "notes.txt"];
                  [txt "/"; txt "nowhere"]])
              [] [[txt "/"; txt "proj"; txt "src"; txt "notes.txt"];
                  [txt "/"; txt "nowhere"]]
              [txt "/"; txt "proj"; txt "build"; txt "gen.cpp"] eq_refl) _).
    reflexivity.
  - exact (eq_trans
             (proj2 (proj2 (proj2 (proj2
                (positional_arguments proj_world
                   (flags true false false [[txt "/"; txt "nowhere"]])
                   [] [] [txt "/"; txt "nowhere"] eq_refl)
                eq_refl eq_refl)) eq_refl)
                (txt "clang-format")
                (snd (check_clang_format proj_world (banner proj_world)))
                eq_refl)
             eq_refl).
Defined.

(** C10 fails as stated: in the project of the examples a check without
    arguments exits with status 1, as [a.cpp] needs formatting, while
    the check with the one argument [/nowhere], which is neither a file
    nor a directory, exits with status 0: the argument is dropped, yet
    it changes the exit status. *)
Lemma positional_arguments_counterexample :
  is_file proj_world [txt "/"; txt "nowhere"] = false
  /\ is_dir proj_world [txt "/"; txt "nowhere"] = false
  /\ fst (run proj_world (flags true false false [[txt "/"; txt "nowhere"]]))
     = 0%Z
  /\ fst (run proj_world (flags true false false [])) = 1%Z.
Proof. repeat split; vm_compute; reflexivity. Qed.

Import PathOrder TreeFacts DiscoveryFacts.


Module TreeCompleteness.

Import TreeStatements.

Lemma find_entry_In nm entries child :
find_entry nm entries = Some child -> In (nm, child) entries.
Proof.
induction entries as [|[k c] entries IH]; cbn [find_entry]; [discriminate|].
destruct (str_eqb k nm) eqn:E.
- apply str_eqb_eq in E. subst k. intros H. injection H as ->. now left.
- intros H. right. now apply IH.
Qed.

Lemma In_find_entry nm entries child :
distinct (entry_names entries) = true ->
In (nm, child) entries -> find_entry nm entries = Some child.
Proof.
induction entries as [|[k c] entries IH]; [intros _ []|].
cbn [entry_names map fst distinct find_entry].
rewrite andb_true_iff, negb_true_iff. intros [Hk Hd] [E|Hin].
- injection E as -> ->. now rewrite str_eqb_refl.
- destruct (str_eqb k nm) eqn:E; [|now apply IH].
  apply str_eqb_eq in E. subst k. exfalso.
  assert (Hex : existsb (str_eqb nm) (map fst entries) = true).
  { apply existsb_exists. exists nm. split; [|apply str_eqb_refl].
    apply in_map_iff. now exists (nm, child). }
  unfold entry_names in Hk. congruence.
Qed.

(** The paths listed under a directory, entry by entry. *)
Lemma enum_Dir_In entries rel :
In rel (enum (Dir entries)) <->
exists nm child rest,
  In (nm, child) entries /\ rel = nm :: rest
  /\ (rest = [] \/ In rest (enum child)).
Proof.
induction entries as [|[k c] entries IH].
- split; [intros []|]. now intros (nm & child & rest & [] & _).
- rewrite enum_Dir_cons. split.
  + intros H. apply in_app_or in H. destruct H as [[<-|H]|H].
    * exists k, c, []. split; [now left|]. split; [reflexivity|now left].
    * apply in_map_iff in H. destruct H as (rest & <- & Hrest).
      exists k, c, rest. split; [now left|]. split; [reflexivity|now right].
    * apply IH in H. destruct H as (nm & child & rest & Hin & E & Hrest).
      exists nm, child, rest. split; [now right|]. now split.
  + intros (nm & child & rest & [E|Hin] & -> & Hrest).
    * injection E as -> ->. apply in_or_app. left.
      destruct Hrest as [->|Hrest]; [now left|].
      right. apply in_map_iff. now exists rest.
    * apply in_or_app. right. apply IH.
      exists nm, child, rest. now split.
Qed.

(** The listing of a well-formed tree is complete: it holds the paths
  that lead somewhere in the tree, and only these. *)
Lemma enum_below n :
wf_node n = true ->
forall rel, In rel (enum n) <-> rel <> [] /\ below n rel <> None.
Proof.
induction n as [c|e|entries IH] using node_induction; intros Hwf rel.
- split; [intros []|]. intros [Hne H]. destruct rel; [congruence|].
  now elim H.
- split; [intros []|]. intros [Hne H]. destruct rel; [congruence|].
  now elim H.
- apply wf_Dir in Hwf. destruct Hwf as [Hd Hwf].
  rewrite enum_Dir_In. rewrite Forall_forall in IH, Hwf. split.
  + intros (nm & child & rest & Hin & -> & Hrest).
    split; [discriminate|]. cbn [below].
    rewrite (In_find_entry nm entries child Hd Hin).
    destruct Hrest as [->|Hrest]; [discriminate|].
    apply (IH (nm, child) Hin (Hwf (nm, child) Hin)). exact Hrest.
  + intros [Hne H]. destruct rel as [|nm rest]; [congruence|].
    cbn [below] in H.
    destruct (find_entry nm entries) as [child|] eqn:E; [|now elim H].
    apply find_entry_In in E. exists nm, child, rest.
    split; [exact E|]. split; [reflexivity|].
    destruct rest as [|c rest]; [now left|right].
    apply (IH (nm, child) E (Hwf (nm, child) E)).
    split; [discriminate|exact H].
Qed.

(** [rglob] lists what lies in the tree under the root. *)
Lemma rglob_in_tree w root p :
wf_node (fs w) = true ->
In p (rglob w root) <-> in_tree w root p.
Proof.
intros Hwf. unfold rglob, in_tree.
destruct (lookup w root) as [[c|e|entries]|] eqn:E.
- split; [intros []|]. now intros (es & rel & H & _).
- split; [intros []|]. now intros (es & rel & H & _).
- pose proof (lookup_wf w root _ Hwf E) as Hn.
  rewrite in_map_iff. split.
  + intros (rel & <- & Hrel). apply (enum_below _ Hn) in Hrel.
    exists entries, rel. tauto.
  + intros (es & rel & H & Hne & -> & Hb). injection H as <-.
    exists rel. split; [reflexivity|]. now apply (enum_below _ Hn).
- split; [intros []|]. now intros (es & rel & H & _).
Qed.

Lemma walk_app a :
forall up cur b,
  walk up cur (a ++ b)
  = match walk up cur a with
    | Some (up', cur') => walk up' cur' b
    | None => None
    end.
Proof.
induction a as [|c a IH]; intros up cur b; [reflexivity|].
cbn [app walk]. destruct cur as [?|?|entries]; try reflexivity.
destruct (str_eqb c dotdot).
- destruct up; apply IH.
- destruct (find_entry c entries); [apply IH|reflexivity].
Qed.

(** Along names that are not [..], resolution descends in the tree. *)
Lemma walk_below rel :
(forall c, In c rel -> c <> dotdot) ->
forall up cur, option_map snd (walk up cur rel) = below cur rel.
Proof.
induction rel as [|c rel IH]; intros Hrel up cur; [reflexivity|].
cbn [walk below]. destruct cur as [?|?|entries]; try reflexivity.
assert (Hc : str_eqb c dotdot = false)
  by (apply str_eqb_neq, Hrel; now left).
rewrite Hc. destruct (find_entry c entries); [|reflexivity].
apply IH. intros c' Hc'. apply Hrel. now right.
Qed.

Lemma lookup_below w root d rel :
lookup w root = Some d ->
(forall c, In c rel -> c <> dotdot /\ c <> sep) ->
lookup w (root ++ rel) = below d rel.
Proof.
intros Hroot Hrel.
assert (Hdd : forall c, In c rel -> c <> dotdot)
  by (intros c Hc; now apply Hrel).
unfold lookup in *.
destruct root as [|r root].
- cbn [app is_absolute] in *.
  assert (Habs : is_absolute rel = false).
  { destruct rel as [|c rel]; [reflexivity|]. cbn [is_absolute].
    apply str_eqb_neq, Hrel. now left. }
  rewrite Habs.
  destruct (walk [] (fs w) (tl (cwd w))) as [[up cur]|]; [|discriminate].
  cbn [walk option_map snd] in Hroot. injection Hroot as ->.
  now apply walk_below.
- cbn [app is_absolute tl] in *.
  destruct (str_eqb r sep).
  + rewrite walk_app.
    destruct (walk [] (fs w) root) as [[up cur]|]; [|discriminate].
    cbn [option_map snd] in Hroot. injection Hroot as ->.
    now apply walk_below.
  + destruct (walk [] (fs w) (tl (cwd w))) as [[up0 cur0]|];
      [|discriminate].
    change (r :: root ++ rel) with ((r :: root) ++ rel).
    rewrite walk_app.
    destruct (walk up0 cur0 (r :: root)) as [[up cur]|]; [|discriminate].
    cbn [option_map snd] in Hroot. injection Hroot as ->.
    now apply walk_below.
Qed.

End TreeCompleteness.

Import TreeStatements TreeCompleteness.

(** C4.  On a well-formed tree, [find_cpp_files] returns the paths that
    lie in the tree under the root, at any depth, are regular files,
    have a recognised suffix and have no part in the list of skipped
    directories, and only these; a path made of the names of entries is
    a regular file when it leads to a file of the tree; the list is
    strictly increasing in the order of paths, so it is sorted and
    holds no path twice; a path with a skipped part is never in it. *)
Theorem find_cpp_files_spec :
  forall (w : world) (root : Path),
    wf_node (fs w) = true ->
    let found := find_cpp_files w root in
    StronglySorted path_lt found /\
    NoDup found /\
    (forall p,
        In p found <->
        in_tree w root p /\ is_file w p = true /\
        In (suffix p) CPP_EXTENSIONS /\
        (forall c, In c p -> ~ In c SKIP_DIRS)) /\
    (forall entries rel,
        lookup w root = Some (Dir entries) ->
        (forall c, In c rel -> c <> dotdot /\ c <> sep) ->
        (is_file w (root ++ rel) = true <->
         exists content, below (Dir entries) rel = Some (File content))) /\
    (forall p c, In c p -> In c SKIP_DIRS -> ~ In p found).
Proof.
  intros w root Hwf found.
  assert (Hnd : NoDup found).
  { unfold found, find_cpp_files.
    apply (Permutation_NoDup (sorted_perm _)).
    apply NoDup_filter. now apply rglob_NoDup. }
  assert (Hin : forall p,
             In p found <->
             in_tree w root p /\ is_file w p = true /\
             In (suffix p) CPP_EXTENSIONS /\
             (forall c, In c p -> ~ In c SKIP_DIRS)).
  { intros p. unfold found.
    rewrite find_cpp_files_In, wanted_spec, (rglob_in_tree w root p Hwf).
    tauto. }
  split; [|split; [|split; [|split]]].
  - apply strict_of_nodup; [apply sorted_sorted|exact Hnd].
  - exact Hnd.
  - exact Hin.
  - intros entries rel Hroot Hrel. unfold is_file.
    rewrite (lookup_below w root _ rel Hroot Hrel).
    destruct (below (Dir entries) rel) as [[c|e|es]|]; split;
      try discriminate; try (now intros [content H]).
    intros _. now exists c.
  - intros p c Hc Hs Hp. apply Hin in Hp.
    destruct Hp as (_ & _ & _ & H). now elim (H c).
Qed.

Lemma find_cpp_files_spec_witness :
  StronglySorted path_lt (find_cpp_files proj_world [txt "/"; txt "proj"]) /\
  NoDup (find_cpp_files proj_world [txt "/"; txt "proj"]) /\
  In [txt "/"; txt "proj"; txt "include"; txt "Zyrnix"; txt "foo.hpp"]
     (find_cpp_files proj_world [txt "/"; txt "proj"]) /\
  ~ In [txt "/"; txt "proj"; txt "build"; txt "gen.cpp"]
       (find_cpp_files proj_world [txt "/"; txt "proj"]).
Proof.
  pose proof (find_cpp_files_spec proj_world [txt "/"; txt "proj"] eq_refl)
    as H.
  cbv zeta in H. destruct H as (Hs & Hn & Hin & _ & Hskip).
  split; [exact Hs|]. split; [exact Hn|]. split.
  - apply Hin. split.
    + unfold in_tree. eexists. exists [txt "include"; txt "Zyrnix"; txt "foo.hpp"].
      split; [reflexivity|]. split; [discriminate|].
      split; [reflexivity|discriminate].
    + split; [reflexivity|]. split.
      * vm_compute. tauto.
      * intros c Hc Hsk.
        repeat (destruct Hc as [<-|Hc];
                [repeat (destruct Hsk as [Hsk|Hsk]; [discriminate Hsk|]);
                 exact Hsk|]).
        exact Hc.
  - apply (Hskip _ (txt "build")).
    + right. right. now left.
    + now left.
Defined.

Module ReFacts.

Import Re ReAnalysis.

Lemma strip_prefix_startswith l s :
strip_prefix l s = None <-> PyStr.startswith s l = false.
Proof.
revert s. induction l as [|a l IH]; intros s; cbn.
- destruct s; split; intros H; discriminate H.
- destruct s as [|b s]; cbn; [tauto|].
  destruct (Ascii.eqb a b); cbn; [apply IH|tauto].
Qed.

Lemma strip_prefix_length l s s' :
strip_prefix l s = Some s' ->
List.length s = List.length l + List.length s'.
Proof.
revert s. induction l as [|a l IH]; intros s; cbn.
- intros E. injection E. now intros ->.
- destruct s as [|b s]; [discriminate|].
  destruct (Ascii.eqb a b); [|discriminate].
  intros E. apply IH in E. cbn. lia.
Qed.

(** *** Positions advance with the input consumed *)


Lemma star_greedy_balanced p s i s' i' :
In (s', i') (star_greedy p s i) ->
i' + List.length s' = i + List.length s /\ i <= i'.
Proof.
revert i. induction s as [|c s IH]; intros i; cbn.
- intros [E|[]]. injection E. intros <- <-. split; reflexivity.
- destruct (p c).
  + intros H. apply in_app_or in H. destruct H as [H|[E|[]]].
    * apply IH in H. cbn [List.length]. lia.
    * injection E. intros <- <-. split; reflexivity.
  + intros [E|[]]. injection E. intros <- <-. split; reflexivity.
Qed.

Lemma star_lazy_balanced p s i s' i' :
In (s', i') (star_lazy p s i) ->
i' + List.length s' = i + List.length s /\ i <= i'.
Proof.
revert i. induction s as [|c s IH]; intros i; cbn.
- intros [E|[]]. injection E. intros <- <-. split; reflexivity.
- intros [E|H].
  + injection E. intros <- <-. split; reflexivity.
  + destruct (p c); [|destruct H]. apply IH in H. cbn [List.length]. lia.
Qed.

Lemma rmatch_balanced r :
forall st st', In st' (rmatch r st) -> balanced st st'.
Proof.
unfold balanced.
induction r as [|l|p|a IHa b IHb|a IHa b IHb|p|p|n r IH| |];
  intros st st'; cbn [rmatch].
- intros [<-|[]]. split; reflexivity.
- destruct (strip_prefix l (rest st)) as [s'|] eqn:E; [|intros []].
  intros [<-|[]]. cbn. apply strip_prefix_length in E. lia.
- destruct (rest st) as [|c s'] eqn:E; [intros []|].
  destruct (p c); [|intros []]. intros [<-|[]]. cbn. lia.
- intros H. apply in_flat_map in H. destruct H as (st1 & H1 & H2).
  apply IHa in H1. apply IHb in H2. lia.
- intros H. apply in_app_or in H. destruct H as [H|H]; auto.
- intros H. apply in_map_iff in H. destruct H as ([s' i'] & <- & H).
  cbn. now apply star_greedy_balanced in H.
- intros H. apply in_map_iff in H. destruct H as ([s' i'] & <- & H).
  cbn. now apply star_lazy_balanced in H.
- intros H. apply in_map_iff in H. destruct H as (st1 & <- & H).
  cbn. now apply IH in H.
- destruct (pos st =? 0); [|intros []]. intros [<-|[]]. split; reflexivity.
- destruct (rest st) as [|c [|d s']] eqn:E.
  + intros [<-|[]]. rewrite E. split; reflexivity.
  + destruct (Ascii.eqb c newline); [|intros []].
    intros [<-|[]]. rewrite E. split; reflexivity.
  + intros [].
Qed.

Lemma match_at_end r s i m :
match_at r s i = Some m ->
m_start m = i /\ i <= m_end m <= i + List.length s.
Proof.
unfold match_at. destruct (rmatch r (MS s i [])) as [|st l] eqn:E;
  [discriminate|].
intros H. injection H. intros <-. cbn.
assert (Hin : In st (rmatch r (MS s i []))) by (rewrite E; now left).
apply rmatch_balanced in Hin. unfold balanced in Hin. cbn in Hin.
split; [reflexivity|lia].
Qed.

(** *** Matching does not depend on where the input starts

  A pattern without [^] gives, at index [i + j], the matches it gives
  at index [j], moved by [i]. *)



Lemma star_greedy_shift p i s j :
star_greedy p s (i + j)
= map (fun si => (fst si, i + snd si)) (star_greedy p s j).
Proof.
revert j. induction s as [|c s IH]; intros j; cbn; [reflexivity|].
destruct (p c); [|reflexivity].
rewrite map_app. cbn. rewrite <- IH. now rewrite Nat.add_succ_r.
Qed.

Lemma star_lazy_shift p i s j :
star_lazy p s (i + j)
= map (fun si => (fst si, i + snd si)) (star_lazy p s j).
Proof.
revert j. induction s as [|c s IH]; intros j; cbn; [reflexivity|].
destruct (p c); [|reflexivity].
rewrite <- IH. now rewrite Nat.add_succ_r.
Qed.

Lemma rmatch_shift i r :
no_bol r = true ->
forall st, rmatch r (shift_state i st) = map (shift_state i) (rmatch r st).
Proof.
induction r as [|l|p|a IHa b IHb|a IHa b IHb|p|p|n r IH| |];
  cbn [no_bol]; intros Hb st; cbn [rmatch shift_state rest pos caps].
- reflexivity.
- destruct (strip_prefix l (rest st)); [|reflexivity].
  cbn. unfold shift_state. cbn. now rewrite Nat.add_assoc.
- destruct (rest st) as [|c s']; [reflexivity|].
  destruct (p c); [|reflexivity].
  cbn. unfold shift_state. cbn. now rewrite Nat.add_succ_r.
- apply andb_true_iff in Hb. destruct Hb as [Ha Hb].
  fold (shift_state i st). rewrite (IHa Ha).
  induction (rmatch a st) as [|st1 l IHl]; [reflexivity|].
  cbn [map flat_map]. rewrite (IHb Hb), map_app. now rewrite IHl.
- apply andb_true_iff in Hb. destruct Hb as [Ha Hb].
  fold (shift_state i st). now rewrite (IHa Ha), (IHb Hb), map_app.
- rewrite star_greedy_shift, !map_map. reflexivity.
- rewrite star_lazy_shift, !map_map. reflexivity.
- fold (shift_state i st). rewrite (IH Hb), !map_map.
  apply map_ext. intros st1. reflexivity.
- discriminate.
- destruct (rest st) as [|c [|d s']]; [reflexivity| |reflexivity].
  destruct (Ascii.eqb c newline); reflexivity.
Qed.

Lemma match_at_shift r s i :
no_bol r = true ->
match_at r s i = option_map (shift_match i) (match_at r s 0).
Proof.
intros Hb. unfold match_at.
change (MS s i []) with (MS s i (shift_caps i [])).
rewrite <- (Nat.add_0_r i) at 1.
change (MS s (i + 0) (shift_caps i [])) with (shift_state i (MS s 0 [])).
rewrite (rmatch_shift i r Hb).
destruct (rmatch r (MS s 0 [])) as [|st l]; [reflexivity|].
cbn. unfold shift_match. cbn. now rewrite Nat.add_0_r.
Qed.

(** *** A character that the pattern cannot read ends every match *)



Lemma strip_prefix_extend l c t s :
existsb (Ascii.eqb c) l = false ->
strip_prefix l (s ++ c :: t)
= option_map (fun s' => s' ++ c :: t) (strip_prefix l s).
Proof.
revert s. induction l as [|a l IH]; intros s Hc.
- destruct s; reflexivity.
- cbn in Hc. apply orb_false_iff in Hc. destruct Hc as [Hca Hc].
  destruct s as [|b s]; cbn.
  + rewrite Ascii.eqb_sym, Hca. reflexivity.
  + destruct (Ascii.eqb a b); [now apply IH|reflexivity].
Qed.

Lemma star_greedy_extend p c t s i :
p c = false ->
star_greedy p (s ++ c :: t) i
= map (fun si => (fst si ++ c :: t, snd si)) (star_greedy p s i).
Proof.
intros Hc. revert i. induction s as [|b s IH]; intros i; cbn.
- now rewrite Hc.
- destruct (p b); [|reflexivity]. rewrite map_app, IH. reflexivity.
Qed.

Lemma star_lazy_extend p c t s i :
p c = false ->
star_lazy p (s ++ c :: t) i
= map (fun si => (fst si ++ c :: t, snd si)) (star_lazy p s i).
Proof.
intros Hc. revert i. induction s as [|b s IH]; intros i; cbn.
- now rewrite Hc.
- destruct (p b); [|reflexivity]. now rewrite IH.
Qed.

Lemma rmatch_extend c t r :
rejects r c = true ->
forall st,
  rmatch r (extend (c :: t) st) = map (extend (c :: t)) (rmatch r st).
Proof.
induction r as [|l|p|a IHa b IHb|a IHa b IHb|p|p|n r IH| |];
  cbn [rejects]; intros Hr st; cbn [rmatch extend rest pos caps].
- reflexivity.
- apply negb_true_iff in Hr. rewrite (strip_prefix_extend l c t _ Hr).
  destruct (strip_prefix l (rest st)); reflexivity.
- apply negb_true_iff in Hr.
  destruct (rest st) as [|b s']; cbn; [now rewrite Hr|].
  destruct (p b); reflexivity.
- apply andb_true_iff in Hr. destruct Hr as [Ha Hb].
  fold (extend (c :: t) st). rewrite (IHa Ha).
  induction (rmatch a st) as [|st1 l IHl]; [reflexivity|].
  cbn [map flat_map]. rewrite (IHb Hb), map_app. now rewrite IHl.
- apply andb_true_iff in Hr. destruct Hr as [Ha Hb].
  fold (extend (c :: t) st). now rewrite (IHa Ha), (IHb Hb), map_app.
- apply negb_true_iff in Hr.
  rewrite (star_greedy_extend p c t _ _ Hr), !map_map. reflexivity.
- apply negb_true_iff in Hr.
  rewrite (star_lazy_extend p c t _ _ Hr), !map_map. reflexivity.
- fold (extend (c :: t) st). rewrite (IH Hr), !map_map.
  apply map_ext. intros st1. reflexivity.
- destruct (pos st =? 0); reflexivity.
- discriminate.
Qed.

Lemma match_at_extend c t r s i :
rejects r c = true ->
match_at r (s ++ c :: t) i = match_at r s i.
Proof.
intros Hr. unfold match_at.
change (MS (s ++ c :: t) i []) with (extend (c :: t) (MS s i [])).
rewrite (rmatch_extend c t r Hr).
destruct (rmatch r (MS s i [])); reflexivity.
Qed.

(** *** Scanning *)

Lemma finditer_from_skip r a b :
forall i,
  finditer_from r (a ++ b) i (List.length a)
  = finditer_from r b (i + List.length a) 0.
Proof.
induction a as [|c a IH]; intros i; cbn [List.length app].
- now rewrite Nat.add_0_r.
- cbn [finditer_from]. rewrite IH. f_equal. lia.
Qed.

Lemma finditer_from_miss r n :
forall s i,
  n <= List.length s ->
  (forall k, k < n -> match_at r (skipn k s) (i + k) = None) ->
  finditer_from r s i 0 = finditer_from r (skipn n s) (i + n) 0.
Proof.
induction n as [|n IH]; intros s i Hn Hmiss.
- cbn. now rewrite Nat.add_0_r.
- destruct s as [|c s]; [cbn in Hn; lia|].
  cbn [finditer_from skipn].
  pose proof (Hmiss 0 (Nat.lt_0_succ n)) as H0.
  cbn in H0. rewrite Nat.add_0_r in H0. rewrite H0.
  rewrite IH.
  + f_equal. lia.
  + cbn in Hn. lia.
  + intros k Hk. specialize (Hmiss (S k)). cbn in Hmiss.
    rewrite Nat.add_succ_r in Hmiss. apply Hmiss. lia.
Qed.


(** Before a character that the pattern cannot read, the scan finds
  matches that end before it, and starts afresh at it. *)
Lemma finditer_from_reject r c t :
rejects r c = true ->
forall pre i skip,
  skip <= List.length pre ->
  exists ms,
    finditer_from r (pre ++ c :: t) i skip
    = ms ++ finditer_from r (c :: t) (i + List.length pre) 0.
Proof.
intros Hr. induction pre as [|a pre IH]; intros i skip Hs.
- cbn in Hs. assert (skip = 0) as -> by lia.
  exists []. cbn [app List.length]. now rewrite Nat.add_0_r.
- cbn [List.length] in *.
  replace (i + S (List.length pre)) with (S i + List.length pre) by lia.
  destruct skip as [|k].
  + cbn [app finditer_from].
    change (a :: pre ++ c :: t) with ((a :: pre) ++ c :: t).
    rewrite (match_at_extend c t r (a :: pre) i Hr).
    destruct (match_at r (a :: pre) i) as [m|] eqn:E.
    * apply match_at_end in E. cbn [List.length] in E.
      destruct (IH (S i) (m_end m - i - 1)) as [ms Hms]; [lia|].
      exists (m :: ms). rewrite Hms. reflexivity.
    * destruct (IH (S i) 0) as [ms Hms]; [lia|].
      exists ms. exact Hms.
  + cbn [app finditer_from].
    destruct (IH (S i) k) as [ms Hms]; [lia|].
    exists ms. exact Hms.
Qed.

End ReFacts.

Module StrFacts.

Import PyStr.

Lemma lstrip_app a b : lstrip a <> [] -> lstrip (a ++ b) = lstrip a ++ b.
Proof.
induction a as [|c a IH]; cbn; [congruence|].
destruct (isspace c); [exact IH|reflexivity].
Qed.

Lemma rstrip_app a b : rstrip b <> [] -> rstrip (a ++ b) = a ++ rstrip b.
Proof.
unfold rstrip. intros H. rewrite rev_app_distr, lstrip_app.
- now rewrite rev_app_distr, rev_involutive.
- intros E. apply H. now rewrite E.
Qed.

Lemma startswith_nil s : startswith s [] = true.
Proof. destruct s; reflexivity. Qed.

Lemma startswith_app x y p :
List.length p <= List.length x ->
startswith (x ++ y) p = startswith x p.
Proof.
revert x. induction p as [|a p IH]; intros x Hl.
- now rewrite !startswith_nil.
- destruct x as [|b x]; [cbn in Hl; lia|].
  cbn. rewrite IH; [reflexivity|cbn in Hl; lia].
Qed.

Lemma endswith_app a b suffix :
List.length suffix <= List.length b ->
endswith (a ++ b) suffix = endswith b suffix.
Proof.
intros H. unfold endswith. rewrite rev_app_distr.
apply startswith_app. now rewrite !length_rev.
Qed.


Lemma startswith_shorter s p q :
startswith s (p ++ q) = true -> startswith s p = true.
Proof.
revert s. induction p as [|a p IH]; intros s.
- now rewrite !startswith_nil.
- destruct s as [|b s]; [discriminate|]. cbn.
  rewrite !andb_true_iff. intros [? H]. split; [assumption|].
  now apply IH.
Qed.

Lemma rfind_app a b sub j :
rfind b sub = Some j -> rfind (a ++ b) sub = Some (List.length a + j).
Proof.
intros H. induction a as [|c a IH]; [exact H|].
cbn [app rfind]. now rewrite IH.
Qed.

Lemma split_nonempty sep s : split sep s <> [].
Proof.
destruct s as [|c s]; cbn; [discriminate|].
destruct (Ascii.eqb c sep); [discriminate|].
destruct (split sep s); discriminate.
Qed.

(** Splitting at a separator splits the list of the lines. *)
Lemma split_at sep a b :
split sep (a ++ sep :: b) = split sep a ++ split sep b.
Proof.
induction a as [|c a IH]; cbn [app split].
- now rewrite Ascii.eqb_refl.
- destruct (Ascii.eqb c sep); [now rewrite IH|].
  rewrite IH. pose proof (split_nonempty sep a) as Hne.
  destruct (split sep a); [congruence|reflexivity].
Qed.

Lemma rev_split_head sep s :
exists ls, rev (split sep s) = last (split sep s) [] :: ls.
Proof.
pose proof (split_nonempty sep s) as Hne.
destruct (exists_last Hne) as (ls & l & E). rewrite E.
rewrite rev_app_distr, last_last. cbn. now exists (rev ls).
Qed.

End StrFacts.

Module ExtractFacts.

Import PyStr Re ReAnalysis ReFacts StrFacts GenerateDocs DocStatements.

Lemma none_before_spec sub content n k :
none_before sub content n = true ->
k < n ->
startswith (skipn k content) sub = false.
Proof.
unfold none_before. rewrite forallb_forall. intros H Hk.
apply negb_true_iff, H, in_seq. lia.
Qed.


Lemma finditer_from_hit r c s i m :
match_at r (c :: s) i = Some m ->
finditer_from r (c :: s) i 0
= m :: finditer_from r s (S i) (m_end m - i - 1).
Proof. intros H. cbn [finditer_from]. now rewrite H. Qed.

(** A class pattern matches only where a keyword starts. *)
Lemma class_pattern_keyword s i :
startswith s (txt "class") = false ->
startswith s (txt "struct") = false ->
match_at class_pattern s i = None.
Proof.
intros H1 H2. apply strip_prefix_startswith in H1, H2.
unfold match_at, class_pattern. cbn [rmatch rest]. now rewrite H1, H2.
Qed.

Lemma file_comment_keyword s i :
startswith s (txt "/**") = false ->
match_at file_comment_re s i = None.
Proof.
intros H. apply strip_prefix_startswith in H.
unfold match_at, file_comment_re. cbn [rmatch rest]. now rewrite H.
Qed.

Lemma span_of_shift n g cs :
span_of g (shift_caps n cs)
= option_map (fun sp => (n + fst sp, n + snd sp)) (span_of g cs).
Proof.
induction cs as [|[k [a b]] cs IH]; [reflexivity|].
cbn. destruct (k =? g); [reflexivity|exact IH].
Qed.

(** The groups of a match moved by [n] are the groups of the match in
  the text from [n] on. *)
Lemma group_shift content n m g :
group content (shift_match n m) g = group (skipn n content) m g.
Proof.
unfold group. cbn [m_caps shift_match]. rewrite span_of_shift.
destruct (span_of g (m_caps m)) as [[a b]|]; [|reflexivity].
cbn [option_map fst snd]. rewrite skipn_skipn.
replace (n + b - (n + a)) with (b - a) by lia.
replace (n + a) with (a + n) by lia. reflexivity.
Qed.


(** The class found for the declaration [struct Point {]. *)
Lemma point_class_of_match content n post :
skipn n content = point_declaration ++ post ->
class_of_match content
  (shift_match n (MkMatch 0 14 [(2, (7, 12)); (1, (0, 6))]))
= point_class (extract_doxygen_comment content n).
Proof.
intros E. unfold class_of_match, group_text.
rewrite !group_shift, E. cbn [m_start shift_match].
rewrite Nat.add_0_r. reflexivity.
Qed.

(** The scan from a declaration on. *)
Lemma finditer_from_declaration decl post n m0 :
match_at class_pattern (decl ++ post) 0 = Some m0 ->
m_end m0 = List.length decl ->
decl <> [] ->
finditer_from class_pattern (decl ++ post) n 0
= shift_match n m0
  :: finditer_from class_pattern post (n + List.length decl) 0.
Proof.
intros Hm He Hne. destruct decl as [|c decl]; [congruence|].
cbn [app]. rewrite (finditer_from_hit class_pattern c (decl ++ post) n
                      (shift_match n m0)).
- f_equal. cbn [m_end shift_match]. rewrite He. cbn [List.length].
  replace (n + S (List.length decl) - n - 1) with (List.length decl) by lia.
  rewrite finditer_from_skip. f_equal. lia.
- change (c :: decl ++ post) with ((c :: decl) ++ post).
  rewrite match_at_shift by reflexivity. now rewrite Hm.
Qed.



End ExtractFacts.

Module LocatorFacts.

Import Locator.

(** The three ways through one turn of the loop of the locator. *)
Lemma find_project_root_from_top w current :
current = parent current ->
find_project_root_from w current = cwd w.
Proof.
intros Htop. funelim (find_project_root_from w current);
  [reflexivity|contradiction|contradiction].
Qed.

Lemma find_project_root_from_marker w current :
current <> parent current ->
exists_ w (joinpath current [marker]) = true ->
find_project_root_from w current = current.
Proof.
intros Hup Hm. funelim (find_project_root_from w current);
  [contradiction|reflexivity|congruence].
Qed.

Lemma find_project_root_from_up w current :
current <> parent current ->
exists_ w (joinpath current [marker]) = false ->
find_project_root_from w current = find_project_root_from w (parent current).
Proof.
intros Hup Hm. funelim (find_project_root_from w current);
  [contradiction|congruence|reflexivity].
Qed.

(** The locator returns the working directory or a directory that holds
  the marker and differs from its own parent: the root directory of
  the file system is never examined. *)
Lemma find_project_root_from_result w current :
find_project_root_from w current = cwd w
\/ (exists_ w (joinpath (find_project_root_from w current)
                 [marker]) = true
    /\ find_project_root_from w current
       <> parent (find_project_root_from w current)).
Proof.
funelim (find_project_root_from w current).
- now left.
- right. rewrite Heq. split; [reflexivity|assumption].
- exact H.
Qed.

End LocatorFacts.

Module DocFacts.

Import GenerateDocs.

(** [parse_header] always returns a header. *)
Lemma parse_header_returns w filepath st :
exists header st', parse_header w filepath st = (inl header, st').
Proof.
unfold parse_header. destruct (read_text w filepath) as [content|e].
- eexists. eexists. reflexivity.
- eexists. eexists. reflexivity.
Qed.

Lemma parse_header_classes w filepath st header st' :
parse_header w filepath st = (inl header, st') ->
classes header = []
\/ exists content,
    classes header
    = map (class_of_match content) (Re.finditer class_pattern content).
Proof.
unfold parse_header. destruct (read_text w filepath) as [content|e].
- intros E. injection E. intros _ <-. right. now exists content.
- intros E. injection E. intros _ <-. now left.
Qed.

(** One turn of the loop that parses the headers. *)
Lemma parse_step w acc p st :
exists st',
  (print (txt "Parsing: " ++ Pathlib.name p) ;;;
   header <- parse_header w p ;;
   ret (acc ++ [header])) st
  = (inl (acc ++ [DocStatements.parsed w p]), st')
  /\ written st' = written st.
Proof.
unfold parse_header, DocStatements.parsed.
destruct (read_text w p) as [content|e].
- eexists. split; reflexivity.
- eexists. split; reflexivity.
Qed.

(** The loop that parses the headers returns one header per path and
  writes nothing. *)
Lemma parse_loop w paths :
forall acc st,
exists st',
  for_fold paths
    (fun headers header_path =>
       print (txt "Parsing: " ++ Pathlib.name header_path) ;;;
       header <- parse_header w header_path ;;
       ret (headers ++ [header]))
    acc st
  = (inl (acc ++ map (DocStatements.parsed w) paths), st')
  /\ written st' = written st.
Proof.
induction paths as [|p paths IH]; intros acc st.
- exists st. cbn. now rewrite app_nil_r.
- cbn [for_fold map].
  destruct (parse_step w acc p st) as (st1 & E1 & W1).
  erewrite bind_inl by exact E1.
  destruct (IH (acc ++ [DocStatements.parsed w p]) st1) as (st2 & E2 & W2).
  exists st2. rewrite E2, <- app_assoc. split; [reflexivity|congruence].
Qed.

(** A write adds the file to those written, or raises and changes
  nothing. *)
Lemma write_text_cases w p content st :
write_text w p content st = (inl tt, add_written [(p, content)] st)
\/ exists e, write_text w p content st = (inr e, st).
Proof.
unfold write_text.
destruct (lookup w p) as [[c|e|entries]|]; eauto.
destruct (made st p); eauto.
destruct (is_dir w (parent p) || made st (parent p)); eauto.
destruct (blocked w p); eauto.
Qed.

(** [mkdir] writes and prints nothing. *)
Lemma mkdir_cases w p st :
exists r st',
  mkdir w p st = (r, st')
  /\ written st' = written st /\ printed st' = printed st.
Proof.
unfold mkdir.
destruct (lookup w p) as [[c|e|entries]|]; eauto.
destruct (made st p); eauto.
destruct (blocked w p); eauto.
Qed.

(** The loop that writes the pages writes the pages of the headers, in
  order, as far as it gets. *)
Lemma page_loop_prefix w output_dir headers :
forall index_lines st,
exists k,
  written
    (snd (for_fold headers
            (fun index_lines header =>
               write_text w (page_path output_dir header) (page_of header) ;;;
               print (txt "Generated: "
                      ++ to_str (page_path output_dir header)) ;;;
               ret (index_lines ++ [index_line header]))
            index_lines st))
  = written st
    ++ map (DocStatements.page output_dir) (firstn k headers).
Proof.
induction headers as [|h headers IH]; intros index_lines st.
- exists 0. cbn. now rewrite app_nil_r.
- cbn [for_fold].
  destruct (write_text_cases w (page_path output_dir h) (page_of h) st)
    as [E|[e E]].
  + erewrite bind_inl
      by (erewrite bind_inl by exact E;
          erewrite bind_inl by reflexivity; reflexivity).
    match goal with |- context [for_fold headers _ ?a ?s] =>
      destruct (IH a s) as [k Hk] end.
    exists (S k). rewrite Hk. cbn [written add_printed add_written firstn map].
    now rewrite <- app_assoc.
  + exists 0. erewrite bind_inr by (erewrite bind_inr by exact E; reflexivity).
    cbn. now rewrite app_nil_r.
Qed.

(** Whatever the file system, [generate_docs] hands to [write_text] the
  pages of the headers only, in order. *)
Lemma generate_docs_prefix w project_root output_dir st :
exists k,
  written (snd (generate_docs w project_root output_dir st))
  = written st
    ++ map (fun p => DocStatements.page output_dir (DocStatements.parsed w p))
         (firstn k (sorted (glob_ext w (include_dir_of project_root)
                              (txt ".hpp")))).
Proof.
unfold generate_docs. cbv zeta.
destruct (exists_ w (include_dir_of project_root)); cbn [negb].
2:{ exists 0. cbn. now rewrite app_nil_r. }
set (headers := sorted (glob_ext w (include_dir_of project_root)
                          (txt ".hpp"))).
destruct (parse_loop w headers [] st) as (st1 & E1 & W1).
erewrite bind_inl by exact E1. cbn [app].
destruct (mkdir_cases w output_dir st1) as (r & st2 & E2 & W2 & _).
destruct r as [[]|e].
- erewrite bind_inl by exact E2.
  destruct (page_loop_prefix w output_dir (map (DocStatements.parsed w) headers)
              index_heading st2) as [k Hk].
  exists k. rewrite bind_ret_snd, Hk, W2, W1, firstn_map, map_map.
  reflexivity.
- erewrite bind_inr by exact E2. exists 0. cbn [snd firstn map].
  now rewrite W2, W1, app_nil_r.
Qed.

(** The file breaks the indentation rule at line 252. *)
Lemma load_fails st : load st = (inr (IndentationError 252), st).
Proof. reflexivity. Qed.

End DocFacts.

Import DocFacts.

(** C9.  [parse_header] always returns a header, and every class of a
    header it returns has an empty list of methods; so the branch
    [if cls.methods:] of [generate_class_doc] adds no line, and the text
    generated for the class is made of the heading, the description and
    the line of the base classes only. *)
Theorem methods_never_populated :
  forall (w : world) (filepath : Path) (st : pystate),
    (exists header st',
        GenerateDocs.parse_header w filepath st = (inl header, st')) /\
    (forall header st' cls,
        GenerateDocs.parse_header w filepath st = (inl header, st') ->
        In cls (GenerateDocs.classes header) ->
        GenerateDocs.methods cls = [] /\
        GenerateDocs.methods_section cls = [] /\
        GenerateDocs.generate_class_doc cls
        = PyStr.join nl (GenerateDocs.class_heading cls
                         ++ GenerateDocs.description_lines cls
                         ++ GenerateDocs.inherits_lines cls)).
Proof.
  intros w filepath st. split; [apply parse_header_returns|].
  intros header st' cls E Hin.
  assert (Hm : GenerateDocs.methods cls = []).
  { destruct (parse_header_classes w filepath st header st' E)
      as [Hnil|[content Hc]].
    - rewrite Hnil in Hin. destruct Hin.
    - rewrite Hc in Hin. apply in_map_iff in Hin.
      destruct Hin as (m & <- & _). reflexivity. }
  assert (Hs : GenerateDocs.methods_section cls = []).
  { unfold GenerateDocs.methods_section. now rewrite Hm. }
  repeat split; [exact Hm|exact Hs|].
  unfold GenerateDocs.generate_class_doc. now rewrite Hs, app_nil_r.
Qed.

Lemma methods_never_populated_witness :
  GenerateDocs.methods_section
    (DocStatements.point_class (txt "A 2D point. A 2D point. A 2D point."))
  = [] /\
  GenerateDocs.generate_class_doc
    (DocStatements.point_class (txt "A 2D point. A 2D point. A 2D point."))
  = txt "### `struct Point`" ++ nl ++ nl
    ++ txt "A 2D point. A 2D point. A 2D point." ++ nl.
Proof.
  refine (proj2 (proj2 (methods_never_populated Examples.proj_world
            [txt "/"; txt "proj"; txt "include"; txt "Zyrnix";
             txt "point.hpp"] initial)
            (GenerateDocs.parse_content
               [txt "/"; txt "proj"; txt "include"; txt "Zyrnix";
                txt "point.hpp"] Examples.point_hpp)
            initial _ eq_refl _)).
  vm_compute. left. reflexivity.
Defined.

(** C3.  No run of the script writes the index, nor anything else:
    line 251 holds the stray name [z] in the first column, so that the
    indented line 252 stands in no block; the compiler rejects the file
    with [IndentationError], and the run ends with exit status 1 before
    it has printed a line, made a directory or written a file.  The
    function [generate_docs] itself ends before the lines that write
    the index: whatever the file system, the files it hands to
    [write_text] are pages of headers, in order, and nothing else. *)
Theorem index_never_written :
  forall (w : world) (output : Path),
    fst (GenerateDocs.script w output initial) = inr (IndentationError 252)
    /\ GenerateDocs.run w output = (1%Z, initial)
    /\ forall (project_root output_dir : Path) (st : pystate),
        exists k,
          written (snd (GenerateDocs.generate_docs w project_root output_dir st))
          = written st
            ++ map (fun p => DocStatements.page output_dir
                               (DocStatements.parsed w p))
                 (firstn k
                    (sorted (glob_ext w
                               (GenerateDocs.include_dir_of project_root)
                               (txt ".hpp")))).
Proof.
  intros w output. split; [reflexivity|]. split; [reflexivity|].
  intros project_root output_dir st. apply generate_docs_prefix.
Qed.

(** C8: the run that shows the defect.  The marker file lies in the root
    directory of the file system and the script in [/tools]: the root
    directory is an ancestor that holds the marker, yet the locator
    returns the working directory. *)
Theorem root_directory_not_examined :
  exists_ Examples.root_world [txt "/"; Locator.marker] = true /\
  parent (script_dir Examples.root_world) = [txt "/"] /\
  exists_ Examples.root_world
    (joinpath (script_dir Examples.root_world) [Locator.marker]) = false /\
  Locator.find_project_root Examples.root_world = [txt "/"; txt "tmp"].
Proof. repeat split; vm_compute; reflexivity. Qed.

Import PyStr Re ReAnalysis ReFacts StrFacts GenerateDocs DocStatements
  ExtractFacts.

Module FooFacts.



End FooFacts.




Module PointFacts.

Import PyStr Re ReAnalysis ReFacts StrFacts GenerateDocs DocStatements
ExtractFacts.

Lemma comment_run_point rest acc :
comment_run (txt "/// A 2D point." :: rest) acc
= comment_run rest (txt "A 2D point." :: acc).
Proof. reflexivity. Qed.

Lemma comment_run_stop line rest acc :
startswith (strip line) (txt "//") = false ->
comment_run (line :: rest) acc = acc.
Proof.
intros H. cbn [comment_run].
destruct (startswith (strip line) (txt "///")) eqn:E.
- apply (startswith_shorter _ (txt "//") (txt "/")) in E. congruence.
- now rewrite H.
Qed.

(** The text above, as [code_above] sees it. *)
Lemma code_above_cases pre :
code_above pre = true ->
pre = []
\/ exists above,
    pre = above ++ [newline]
    /\ startswith (strip (last (split newline above) [])) (txt "//") = false.
Proof.
unfold code_above. destruct (rev pre) as [|c above] eqn:E.
- intros _. left. apply (f_equal (@rev ascii)) in E.
  now rewrite rev_involutive in E.
- rewrite andb_true_iff, negb_true_iff. intros [Hc Hl].
  apply Ascii.eqb_eq in Hc. subst c. right. exists (rev above).
  split; [|exact Hl].
  apply (f_equal (@rev ascii)) in E. now rewrite rev_involutive in E.
Qed.

(** The description read from three comment lines that end at index
  [length pre + 48]. *)
Lemma extract_point_comment pre tail :
code_above pre = true ->
extract_doxygen_comment (pre ++ comment3 ++ tail) (List.length pre + 48)
= txt "A 2D point. A 2D point. A 2D point.".
Proof.
intros Habove. unfold extract_doxygen_comment.
rewrite firstn_app_2.
change (firstn 48 (comment3 ++ tail)) with comment3.
rewrite rstrip_app by (vm_compute; discriminate).
rewrite endswith_app by (vm_compute; lia).
change (endswith (rstrip comment3) (txt "*/")) with false. cbv iota.
unfold line_comment.
destruct (code_above_cases pre Habove) as [->|(above & -> & Hline)].
- reflexivity.
- rewrite <- app_assoc. cbn [app]. rewrite split_at, rev_app_distr.
  change (rev (split newline (rstrip comment3)))
    with [txt "/// A 2D point."; txt "/// A 2D point.";
          txt "/// A 2D point."].
  cbn [app]. rewrite !comment_run_point.
  destruct (rev_split_head newline above) as [ls ->].
  now rewrite comment_run_stop.
Qed.

End PointFacts.

Import PointFacts.

(** C6, as the code has it.  Take a header whose text holds the
    declaration [struct Point {] right after three lines that each read
    [/// A 2D point.], where the text above these lines is empty or
    ends with a line that is not a [//] comment.  Then the classes
    parsed hold a struct [Point] whose description is the three comment
    texts joined by single spaces. *)
Theorem three_comment_lines :
  forall (filepath : Path) (pre post : str),
    code_above pre = true ->
    In (point_class (txt "A 2D point. A 2D point. A 2D point."))
       (classes (parse_content filepath
                   (pre ++ comment3 ++ point_declaration ++ post))).
Proof.
  intros filepath pre post Habove.
  set (content := pre ++ comment3 ++ point_declaration ++ post).
  unfold parse_content. cbn [classes]. unfold finditer.
  destruct (finditer_from_reject class_pattern "/"%char
              (skipn 1 (comment3 ++ point_declaration ++ post))
              eq_refl pre 0 0 (Nat.le_0_l _)) as [ms Hms].
  change ("/"%char :: skipn 1 (comment3 ++ point_declaration ++ post))
    with (comment3 ++ point_declaration ++ post) in Hms.
  fold content in Hms. rewrite Hms. cbn [Nat.add].
  rewrite (finditer_from_miss class_pattern 48).
  - change (skipn 48 (comment3 ++ point_declaration ++ post))
      with (point_declaration ++ post).
    rewrite (finditer_from_declaration point_declaration post
               (List.length pre + 48) (MkMatch 0 14 [(2, (7, 12)); (1, (0, 6))]))
      by (reflexivity || discriminate).
    rewrite map_app. apply in_or_app. right. cbn [map]. left.
    rewrite (point_class_of_match content (List.length pre + 48) post).
    + f_equal. now apply extract_point_comment.
    + unfold content. rewrite skipn_app.
      rewrite skipn_all2 by lia.
      replace (List.length pre + 48 - List.length pre) with 48 by lia.
      reflexivity.
  - rewrite !length_app. cbn. lia.
  - intros k Hk.
    apply class_pattern_keyword;
      apply (fun H => none_before_spec _ _ 48 k H Hk); reflexivity.
Qed.

Lemma three_comment_lines_witness :
  In (point_class (txt "A 2D point. A 2D point. A 2D point."))
     (classes (parse_content [txt "point.hpp"]
                 ([] ++ comment3 ++ point_declaration
                  ++ (nl ++ txt "  double x;" ++ nl ++ txt "  double y;"
                      ++ nl ++ txt "};" ++ nl)))).
Proof.
  apply (three_comment_lines [txt "point.hpp"] []
           (nl ++ txt "  double x;" ++ nl ++ txt "  double y;" ++ nl
            ++ txt "};" ++ nl)).
  reflexivity.
Defined.

(** C6 fails as stated: with three lines [/// A 2D point.] above
    [struct Point {] the one class parsed has the three texts as its
    description, so no class parsed has the description "A 2D point.". *)
Lemma three_comment_lines_counterexample :
  Examples.point_hpp
  = comment3 ++ point_declaration
    ++ (nl ++ txt "  double x;" ++ nl ++ txt "  double y;" ++ nl
        ++ txt "};" ++ nl)
  /\ classes (parse_content [txt "point.hpp"] Examples.point_hpp)
     = [point_class (txt "A 2D point. A 2D point. A 2D point.")]
  /\ ~ (exists cls,
          In cls (classes (parse_content [txt "point.hpp"] Examples.point_hpp))
          /\ is_struct cls = true
          /\ description cls = txt "A 2D point.").
Proof.
  split; [reflexivity|]. split; [vm_compute; reflexivity|].
  intros (cls & Hin & _ & Hd).
  assert (E : classes (parse_content [txt "point.hpp"] Examples.point_hpp)
              = [point_class (txt "A 2D point. A 2D point. A 2D point.")])
    by (vm_compute; reflexivity).
  rewrite E in Hin. destruct Hin as [<-|[]]. discriminate Hd.
Qed.

(* ================================================================= *)
(** * Further properties of the formatter driver *)

Module DriverExtras.

Import ClangFormatAll DriverReports DriverFacts DriverRuns MoreStatements
PathOrder TreeFacts DiscoveryFacts.

(** ** Tool resolution *)

Lemma probe_none w names :
(forall name, In name names -> installed w name = false) ->
forall st,
  probe w names st
  = (inr (SystemExit 1%Z), add_printed not_found_message st).
Proof.
induction names as [|name names IH]; intros Hnone st.
- cbn [probe]. repeat (erewrite bind_inl by reflexivity).
  unfold sys_exit, raise, not_found_message. f_equal.
  rewrite !add_printed_app. reflexivity.
- rewrite probe_step, (Hnone name) by now left.
  apply IH. intros n Hn. apply Hnone. now right.
Qed.

(** Without any formatter executable the run prints the project root
  and the installation hints, runs no command and exits with status
  1, whatever the flags and the arguments. *)
Theorem no_formatter_is_fatal :
forall (w : world) (args : Args),
  (forall name, In name tool_names -> installed w name = false) ->
  run w args = (1%Z, add_printed not_found_message (banner w)).
Proof.
intros w args Hnone. unfold run, main.
erewrite bind_inl by reflexivity.
erewrite bind_inr by (apply probe_none; exact Hnone).
reflexivity.
Qed.

Lemma no_formatter_is_fatal_witness :
run Examples.bare_world (Examples.flags false true false [])
= (1%Z, add_printed not_found_message (banner Examples.bare_world)).
Proof.
apply (no_formatter_is_fatal Examples.bare_world
         (Examples.flags false true false [])).
intros name _. reflexivity.
Defined.

Lemma probes_installed w name names :
installed w name = true ->
probes w (name :: names) = version_cmd name :: probes w names.
Proof. intros H. unfold probes. cbn [filter]. now rewrite H. Qed.

Lemma probes_missing w name names :
installed w name = false ->
probes w (name :: names) = probes w names.
Proof. intros H. unfold probes. cbn [filter]. now rewrite H. Qed.

Lemma app_cons_assoc {A} (l : list A) a m : (l ++ [a]) ++ m = l ++ a :: m.
Proof. now rewrite <- app_assoc. Qed.

Lemma probe_order w names :
forall st cf st',
  probe w names st = (inl cf, st') ->
  exists before after,
    names = before ++ cf :: after
    /\ installed w cf = true
    /\ (returncode (respond w (procs st ++ probes w before)
                      (version_cmd cf)) = 0)%Z
    /\ (forall b1 name b2,
           before = b1 ++ name :: b2 ->
           installed w name = true ->
           returncode (respond w (procs st ++ probes w b1)
                         (version_cmd name)) <> 0%Z)
    /\ procs st' = procs st ++ probes w before ++ [version_cmd cf]
    /\ printed st' = printed st.
Proof.
induction names as [|name names IH]; intros st cf st'.
- cbn [probe]. repeat (erewrite bind_inl by reflexivity). discriminate.
- rewrite probe_step. destruct (installed w name) eqn:Hi.
  + destruct (returncode (respond w (procs st) (version_cmd name)) =? 0)%Z
      eqn:Hrc.
    * intros E. injection E. intros <- <-.
      exists [], names. unfold probes. cbn [filter map app].
      rewrite app_nil_r. repeat split; auto.
      -- now apply Z.eqb_eq.
      -- intros b1 n b2 Hb. destruct b1; discriminate.
    * intros E. apply IH in E.
      destruct E as (before & after & -> & Hcf & Hrc' & Hskip & Hp & Hpr).
      cbn [procs add_procs printed] in Hrc', Hskip, Hp, Hpr.
      exists (name :: before), after.
      rewrite (probes_installed w name before Hi).
      rewrite app_cons_assoc in Hrc', Hp.
      split; [reflexivity|]. split; [exact Hcf|]. split; [exact Hrc'|].
      split; [|split; [exact Hp|exact Hpr]].
      intros b1 n b2 Hb Hn. destruct b1 as [|x b1]; cbn [app] in Hb.
      -- injection Hb as Hx _. subst n. unfold probes. cbn [filter map].
         rewrite app_nil_r. now apply Z.eqb_neq.
      -- injection Hb as Hx Hb'. subst x.
         rewrite (probes_installed w name b1 Hi), <- app_cons_assoc.
         now apply (Hskip b1 n b2).
  + intros E. apply IH in E.
    destruct E as (before & after & -> & Hcf & Hrc' & Hskip & Hp & Hpr).
    exists (name :: before), after.
    rewrite (probes_missing w name before Hi).
    split; [reflexivity|]. split; [exact Hcf|]. split; [exact Hrc'|].
    split; [|split; [exact Hp|exact Hpr]].
    intros b1 n b2 Hb Hn. destruct b1 as [|x b1]; cbn [app] in Hb.
    * injection Hb as Hx _. subst n. congruence.
    * injection Hb as Hx Hb'. subst x.
      rewrite (probes_missing w name b1 Hi). now apply (Hskip b1 n b2).
Qed.

(** The name that [check_clang_format] returns is the first one, in the
  order of the list, that is installed and answers [--version] with
  return code 0: every installed name before it answered with another
  code, the names that are not installed were not run, and nothing was
  printed. *)
Theorem tool_resolution_order :
forall (w : world) (st : pystate) (cf : str) (st' : pystate),
  check_clang_format w st = (inl cf, st') ->
  exists before after,
    tool_names = before ++ cf :: after
    /\ installed w cf = true
    /\ (returncode (respond w (procs st ++ probes w before)
                      (version_cmd cf)) = 0)%Z
    /\ (forall b1 name b2,
           before = b1 ++ name :: b2 ->
           installed w name = true ->
           returncode (respond w (procs st ++ probes w b1)
                         (version_cmd name)) <> 0%Z)
    /\ procs st' = procs st ++ probes w before ++ [version_cmd cf]
    /\ printed st' = printed st.
Proof. intros w st cf st'. apply probe_order. Qed.

Lemma tool_resolution_order_witness :
exists before after,
  tool_names = before ++ txt "clang-format-15" :: after
  /\ procs (snd (check_clang_format MoreExamples.versioned_world initial))
     = probes MoreExamples.versioned_world before
       ++ [version_cmd (txt "clang-format-15")].
Proof.
destruct (tool_resolution_order MoreExamples.versioned_world initial
            (txt "clang-format-15")
            (add_procs [version_cmd (txt "clang-format-17");
                        version_cmd (txt "clang-format-15")] initial)
            eq_refl)
  as (before & after & Hn & _ & _ & _ & Hp & _).
exists before, after. split; [exact Hn|exact Hp].
Defined.

Lemma main_unresolved w args e st1 :
check_clang_format w (banner w) = (inr e, st1) ->
main w args initial = (inr e, st1).
Proof.
intros Hres. unfold main.
erewrite bind_inl by reflexivity.
erewrite bind_inr by exact Hres. reflexivity.
Qed.

(** ** Check mode *)




(** ** The flag [--verbose] *)

Lemma flagged_of_loop w cf (Hcf : installed w cf = true) v files n st :
fst (for_fold files
       (fun needs_formatting filepath =>
          changed <- format_file w cf filepath true v ;;
          ret (if changed then needs_formatting + 1 else needs_formatting))
       n st)
= inl (n + List.length (flagged w cf (procs st) files)).
Proof. now rewrite (check_loop w cf Hcf). Qed.











(** ** Exit status *)

Lemma listing_loop_result root files st :
fst (for_each files
       (fun f =>
          match relative_to f root with
          | Some rel => print (txt "  " ++ to_str rel)
          | None => raise ValueError
          end) st) = inl tt
\/ fst (for_each files
       (fun f =>
          match relative_to f root with
          | Some rel => print (txt "  " ++ to_str rel)
          | None => raise ValueError
          end) st) = inr ValueError.
Proof.
revert st. induction files as [|f files IH]; intros st.
- now left.
- cbn [for_each]. destruct (relative_to f root) as [rel|].
  + erewrite bind_inl by reflexivity. apply IH.
  + right. reflexivity.
Qed.

(** Once the command line is parsed, the exit status of the formatter
  driver is 0 or 1, also when the run ends in [sys.exit] or in an
  exception that nothing catches.  ([parse_args] itself ends a run
  with status 2 on a command line that it rejects.) *)
Theorem exit_status_is_0_or_1 :
forall (w : world) (args : Args),
  fst (run w args) = 0%Z \/ fst (run w args) = 1%Z.
Proof.
intros w args.
destruct (check_clang_format w (banner w)) as [[cf|e] st1] eqn:Hres.
- pose proof (resolved_installed w cf st1 Hres) as Hcf.
  unfold run. rewrite (main_resolved w args cf st1 Hres).
  destruct (dry_run args).
  + erewrite bind_inl by reflexivity. unfold bind.
    match goal with |- context [for_each ?l ?b ?s] =>
      destruct (listing_loop_result (find_project_root w) l s) as [H|H];
      destruct (for_each l b s) as [r st2] end;
      cbn [fst] in H; subst r; [left|right]; reflexivity.
  + destruct (check args).
    * erewrite bind_inl by apply (check_loop w cf Hcf).
      match goal with |- context [0 <? ?x] => destruct (0 <? x) end.
      -- right. repeat (erewrite bind_inl by reflexivity). reflexivity.
      -- left. repeat (erewrite bind_inl by reflexivity). reflexivity.
    * destruct (fix_loop w cf Hcf (verbose args)
                  (candidates w args (find_project_root w)) 0
                  (ready w args cf st1)) as [n E].
      erewrite bind_inl by exact E.
      left. repeat (erewrite bind_inl by reflexivity). reflexivity.
- right. unfold run. rewrite (main_unresolved w args e st1 Hres).
  cbn [fst exit_status].
  destruct (probe_outcome w tool_names (banner w))
    as (_ & _ & _ & _ & _ & H).
  fold (check_clang_format w) in H. rewrite Hres in H. cbn [fst] in H.
  now subst e.
Qed.

(** ** Dry runs *)

Lemma strip_parts_app root rel : strip_parts root (root ++ rel) = Some rel.
Proof.
induction root as [|c root IH]; [reflexivity|].
cbn. now rewrite str_eqb_refl.
Qed.

Lemma relative_to_below root rel :
root <> [] -> relative_to (root ++ rel) root = Some rel.
Proof.
intros Hne. destruct root as [|c root]; [congruence|].
apply strip_parts_app.
Qed.

Lemma find_cpp_files_below w root p :
In p (find_cpp_files w root) -> exists rel, p = root ++ rel.
Proof.
intros H. apply find_cpp_files_In in H. destruct H as [H _].
apply rglob_below in H. destruct H as (rel & _ & ->). now exists rel.
Qed.

(** A dry run without positional arguments never fails once a formatter
  is found: every file found lies under the project root, so the run
  lists all of them, relative to the root, and exits with status 0. *)
Theorem dry_run_of_project :
forall (w : world) (args : Args) (cf : str) (st1 : pystate),
  dry_run args = true ->
  paths args = [] ->
  find_project_root w <> [] ->
  check_clang_format w (banner w) = (inl cf, st1) ->
  let root := find_project_root w in
  fst (run w args) = 0%Z
  /\ printed (snd (run w args))
     = printed st1 ++ preamble w cf (procs st1) (find_cpp_files w root)
       ++ [nl ++ txt "Files that would be formatted:"]
       ++ map (listing_line root) (find_cpp_files w root)
  /\ (forall f, In f (find_cpp_files w root) ->
                exists rel, f = root ++ rel
                            /\ listing_line root f = txt "  " ++ to_str rel).
Proof.
intros w args cf st1 Hd Hp Hroot Hres root.
assert (Hrel : forall f, In f (find_cpp_files w root) ->
                 exists rel, f = root ++ rel
                             /\ listing_line root f = txt "  " ++ to_str rel).
{ intros f Hf. apply find_cpp_files_below in Hf. destruct Hf as [rel ->].
  exists rel. split; [reflexivity|]. unfold listing_line.
  now rewrite relative_to_below. }
assert (Hcand : candidates w args root = find_cpp_files w root).
{ unfold candidates. now rewrite Hp. }
split; [|split; [|exact Hrel]].
- unfold run. rewrite (main_resolved w args cf st1 Hres), Hd.
  erewrite bind_inl by reflexivity. fold root. rewrite Hcand.
  erewrite bind_inl.
  2:{ apply listing_loop. apply Forall_forall. intros f Hf.
      destruct (Hrel f Hf) as (rel & -> & _). unfold under.
      now rewrite relative_to_below. }
  reflexivity.
- unfold run. rewrite (main_resolved w args cf st1 Hres), Hd.
  erewrite bind_inl by reflexivity. fold root. rewrite Hcand.
  erewrite bind_inl.
  2:{ apply listing_loop. apply Forall_forall. intros f Hf.
      destruct (Hrel f Hf) as (rel & -> & _). unfold under.
      now rewrite relative_to_below. }
  cbn [fst snd ret printed add_printed add_procs ready].
  fold root. rewrite Hcand, <- !app_assoc. reflexivity.
Qed.

Lemma dry_run_of_project_witness :
fst (run Examples.proj_world (Examples.flags false true true [])) = 0%Z.
Proof.
refine (proj1 (dry_run_of_project Examples.proj_world
                 (Examples.flags false true true [])
                 (txt "clang-format")
                 (add_procs [version_cmd (txt "clang-format")]
                    (banner Examples.proj_world))
                 eq_refl eq_refl _ eq_refl)).
vm_compute. discriminate.
Defined.

Lemma listing_loop_stops root good bad rest st :
Forall (under root) good ->
relative_to bad root = None ->
for_each (good ++ bad :: rest)
  (fun f =>
     match relative_to f root with
     | Some rel => print (txt "  " ++ to_str rel)
     | None => raise ValueError
     end) st
= (inr ValueError, add_printed (map (listing_line root) good) st).
Proof.
intros Hgood Hbad. revert st.
induction Hgood as [|f good Hf _ IH]; intros st; cbn [app for_each map].
- rewrite Hbad. unfold bind, raise. now rewrite add_printed_nil.
- unfold under in Hf. unfold listing_line at 1.
  destruct (relative_to f root) as [rel|]; [|congruence].
  erewrite bind_inl by reflexivity. rewrite IH.
  now rewrite add_printed_app.
Qed.

(** A dry run stops at the first file to process that does not lie
  under the project root (a positional file given by a relative path,
  for one): [relative_to] raises [ValueError], which nothing catches,
  so the run ends with exit status 1 after listing the files before
  it. *)
Theorem dry_run_outside_root :
forall (w : world) (args : Args) (cf : str) (st1 : pystate)
       (good : list Path) (bad : Path) (rest : list Path),
  dry_run args = true ->
  check_clang_format w (banner w) = (inl cf, st1) ->
  let root := find_project_root w in
  candidates w args root = good ++ bad :: rest ->
  Forall (under root) good ->
  relative_to bad root = None ->
  fst (main w args initial) = inr ValueError
  /\ fst (run w args) = 1%Z
  /\ printed (snd (run w args))
     = printed st1 ++ preamble w cf (procs st1) (good ++ bad :: rest)
       ++ [nl ++ txt "Files that would be formatted:"]
       ++ map (listing_line root) good.
Proof.
intros w args cf st1 good bad rest Hd Hres root Hcand Hgood Hbad.
assert (E : main w args initial
            = (inr ValueError,
               add_printed (map (listing_line root) good)
                 (add_printed [nl ++ txt "Files that would be formatted:"]
                    (ready w args cf st1)))).
{ rewrite (main_resolved w args cf st1 Hres), Hd.
  erewrite bind_inl by reflexivity. fold root. rewrite Hcand.
  erewrite bind_inr by (now apply listing_loop_stops). reflexivity. }
unfold run. rewrite E. cbn [fst snd exit_status].
split; [reflexivity|]. split; [reflexivity|].
cbn [printed add_printed add_procs ready]. fold root.
rewrite Hcand, <- !app_assoc. reflexivity.
Qed.

Lemma dry_run_outside_root_witness :
fst (run Examples.proj_world
       (Examples.flags false false true
          [[txt ".."; txt "proj"; txt "src"; txt "a.cpp"]])) = 1%Z.
Proof.
refine (proj1 (proj2 (dry_run_outside_root Examples.proj_world
          (Examples.flags false false true
             [[txt ".."; txt "proj"; txt "src"; txt "a.cpp"]])
          (txt "clang-format")
          (add_procs [version_cmd (txt "clang-format")]
             (banner Examples.proj_world))
          [] [txt ".."; txt "proj"; txt "src"; txt "a.cpp"] []
          eq_refl eq_refl eq_refl (Forall_nil _) eq_refl))).
Defined.

(** ** Discovery *)

Lemma filter_none {A} (f : A -> bool) l :
(forall x, In x l -> f x = false) -> filter f l = [].
Proof.
induction l as [|a l IH]; intros H; [reflexivity|].
cbn. rewrite (H a) by now left. apply IH. intros x Hx. apply H. now right.
Qed.

(** A root that has a skipped name among its own parts yields nothing:
  the parts of the root are parts of every path below it. *)
Theorem root_under_skipped_directory :
forall (w : world) (root : Path) (c : str),
  In c root ->
  In c SKIP_DIRS ->
  find_cpp_files w root = [].
Proof.
intros w root c Hc Hs. unfold find_cpp_files.
rewrite filter_none; [reflexivity|].
intros p Hp. apply rglob_below in Hp. destruct Hp as (rel & _ & ->).
unfold wanted.
assert (Hsk : skipped (root ++ rel) = true).
{ apply skipped_spec. exists c. split; [|exact Hs].
  apply in_or_app. now left. }
now rewrite Hsk.
Qed.

Lemma root_under_skipped_directory_witness :
find_cpp_files Examples.proj_world [txt "/"; txt "proj"; txt "build"] = [].
Proof.
apply (root_under_skipped_directory Examples.proj_world
         [txt "/"; txt "proj"; txt "build"] (txt "build")).
- cbn. tauto.
- cbn. tauto.
Defined.

Lemma path_lt_irrefl p : ~ path_lt p p.
Proof.
unfold path_lt. rewrite (proj2 (path_compare_eq p p) eq_refl). discriminate.
Qed.

Lemma path_lt_asym p q : path_lt p q -> ~ path_lt q p.
Proof.
unfold path_lt. intros H. rewrite (path_compare_antisym p q), H.
discriminate.
Qed.

(** Two strictly increasing lists with the same elements are equal. *)
Lemma strictly_sorted_unique l1 :
forall l2,
  StronglySorted path_lt l1 ->
  StronglySorted path_lt l2 ->
  (forall p, In p l1 <-> In p l2) ->
  l1 = l2.
Proof.
induction l1 as [|a l1 IH]; intros l2 H1 H2 Hin.
- destruct l2 as [|b l2]; [reflexivity|].
  destruct (proj2 (Hin b)). now left.
- destruct l2 as [|b l2]; [destruct (proj1 (Hin a)); now left|].
  inversion H1 as [|? ? H1' Ha]; subst.
  inversion H2 as [|? ? H2' Hb]; subst.
  rewrite Forall_forall in Ha, Hb.
  assert (a = b).
  { destruct (proj1 (Hin a) (or_introl eq_refl)) as [E|Hab]; [now subst|].
    destruct (proj2 (Hin b) (or_introl eq_refl)) as [E|Hba]; [now subst|].
    apply Hb in Hab. apply Ha in Hba. now apply path_lt_asym in Hab. }
  subst b. f_equal. apply IH; auto.
  intros p. split; intros Hp.
  + destruct (proj1 (Hin p) (or_intror Hp)) as [E|H]; [|exact H].
    subst p. apply Ha in Hp. now apply path_lt_irrefl in Hp.
  + destruct (proj2 (Hin p) (or_intror Hp)) as [E|H]; [|exact H].
    subst p. apply Hb in Hp. now apply path_lt_irrefl in Hp.
Qed.

Lemma find_cpp_files_sorted w root :
wf_node (fs w) = true -> StronglySorted path_lt (find_cpp_files w root).
Proof.
intros Hwf. unfold find_cpp_files.
apply strict_of_nodup; [apply sorted_sorted|].
apply (Permutation_NoDup (sorted_perm _)).
apply NoDup_filter. now apply rglob_NoDup.
Qed.

(** The result of the discovery does not depend on the order in which
  the directories list their entries: two file systems that show the
  same paths below the root, with the same regular files among them,
  give the same list. *)
Theorem discovery_ignores_listing_order :
forall (w w' : world) (root : Path),
  wf_node (fs w) = true ->
  wf_node (fs w') = true ->
  (forall p, In p (rglob w root) <-> In p (rglob w' root)) ->
  (forall p, In p (rglob w root) -> is_file w p = is_file w' p) ->
  find_cpp_files w root = find_cpp_files w' root.
Proof.
intros w w' root Hwf Hwf' Hsame Hfile.
apply strictly_sorted_unique; try now apply find_cpp_files_sorted.
intros p. rewrite !find_cpp_files_In. unfold wanted.
split; intros [Hp Hw].
- split; [now apply Hsame|]. now rewrite <- (Hfile p Hp).
- apply Hsame in Hp. split; [exact Hp|]. now rewrite (Hfile p Hp).
Qed.

Lemma discovery_ignores_listing_order_witness :
find_cpp_files Examples.proj_world [txt "/"; txt "proj"]
= find_cpp_files MoreExamples.reordered_world [txt "/"; txt "proj"].
Proof.
apply (discovery_ignores_listing_order Examples.proj_world
         MoreExamples.reordered_world [txt "/"; txt "proj"]).
- reflexivity.
- reflexivity.
- intros p. vm_compute. tauto.
- intros p H. vm_compute in H.
  repeat (destruct H as [<-|H]; [vm_compute; reflexivity|]).
  destruct H.
Defined.

End DriverExtras.

(* ================================================================= *)
(** * Further properties of the project-root locator *)

Module LocatorExtras.

Import Locator LocatorFacts MoreStatements.

Lemma joinpath_marker p : joinpath p [marker] = p ++ [marker].
Proof. reflexivity. Qed.

(** The loop goes on exactly while the path is longer than its lowest
  prefix. *)
Lemma parent_fixed p : p = parent p <-> List.length p < lowest p.
Proof.
unfold parent, lowest, is_absolute.
destruct p as [|c p]; cbn [List.length andb].
- split; [lia|reflexivity].
- destruct (str_eqb c sep).
  + destruct p as [|d p]; cbn [Nat.eqb List.length andb].
    * split; [lia|reflexivity].
    * split; [|lia]. intros E.
      apply (f_equal (@List.length str)) in E.
      rewrite removelast_firstn_len, length_firstn in E.
      cbn [List.length] in E. lia.
  + cbn [andb]. split; [|lia]. intros E.
    apply (f_equal (@List.length str)) in E.
    rewrite removelast_firstn_len, length_firstn in E.
    cbn [List.length] in E. lia.
Qed.

Lemma parent_firstn p :
p <> parent p -> parent p = firstn (List.length p - 1) p.
Proof.
intros Hne. unfold parent in *.
destruct (is_absolute p && (List.length p =? 1)); [congruence|].
rewrite removelast_firstn_len. f_equal. lia.
Qed.

Lemma lowest_parent p : p <> parent p -> lowest (parent p) = lowest p.
Proof.
intros Hne. pose proof (proj2 (parent_fixed p)) as Hfix.
unfold lowest, parent, is_absolute in *.
destruct p as [|c p]; [reflexivity|].
destruct (str_eqb c sep) eqn:Hc; cbn [andb] in *.
- destruct p as [|d p]; cbn [Nat.eqb List.length] in *.
  + exfalso. apply Hne. apply Hfix. lia.
  + cbn [removelast]. destruct p; now rewrite Hc.
- destruct p as [|d p]; [reflexivity|].
  cbn [removelast]. destruct p; now rewrite Hc.
Qed.

Lemma find_project_root_from_nearest w current :
(exists k,
    lowest current <= k <= List.length current
    /\ find_project_root_from w current = firstn k current
    /\ exists_ w (firstn k current ++ [marker]) = true
    /\ forall j, k < j <= List.length current ->
                 exists_ w (firstn j current ++ [marker]) = false)
\/ (find_project_root_from w current = cwd w
    /\ forall j, lowest current <= j <= List.length current ->
                 exists_ w (firstn j current ++ [marker]) = false).
Proof.
funelim (find_project_root_from w current).
- right. split; [reflexivity|]. intros j Hj.
  pose proof (proj1 (parent_fixed current) e). lia.
- left. exists (List.length current).
  pose proof (proj1 (parent_fixed current)) as Hfix.
  rewrite firstn_all. rewrite joinpath_marker in Heq.
  repeat split; auto; try lia.
  destruct (Nat.lt_ge_cases (List.length current) (lowest current));
    [|lia].
  exfalso. apply n. now apply parent_fixed.
- rewrite joinpath_marker in Heq.
  assert (Hlen : lowest current <= List.length current).
  { destruct (Nat.lt_ge_cases (List.length current) (lowest current));
      [|lia].
    exfalso. apply n. now apply parent_fixed. }
  assert (Hpl : List.length (parent current) = List.length current - 1).
  { rewrite (parent_firstn current n), length_firstn. lia. }
  assert (Hfn : forall j, j <= List.length current - 1 ->
                  firstn j (parent current) = firstn j current).
  { intros j Hj. rewrite (parent_firstn current n), firstn_firstn.
    f_equal. lia. }
  rewrite (lowest_parent current n), Hpl in H.
  destruct H as [(k & Hk & Hr & Hm & Hnone)|(Hr & Hnone)].
  + left. exists k. rewrite (Hfn k) in Hr, Hm by lia.
    repeat split; auto; try lia.
    intros j Hj.
    destruct (Nat.eq_dec j (List.length current)) as [->|Hne].
    * now rewrite firstn_all.
    * rewrite <- (Hfn j) by lia. apply Hnone. lia.
  + right. split; [exact Hr|]. intros j Hj.
    destruct (Nat.eq_dec j (List.length current)) as [->|Hne].
    * now rewrite firstn_all.
    * rewrite <- (Hfn j) by lia. apply Hnone. lia.
Qed.

(** The locator returns the longest prefix of the script directory,
  the root directory and the empty path left out, that holds the
  marker file; when no such prefix holds it, the working directory. *)
Theorem find_project_root_nearest :
forall (w : world),
  let sd := script_dir w in
  (exists k,
      lowest sd <= k <= List.length sd
      /\ find_project_root w = firstn k sd
      /\ exists_ w (firstn k sd ++ [marker]) = true
      /\ forall j, k < j <= List.length sd ->
                   exists_ w (firstn j sd ++ [marker]) = false)
  \/ (find_project_root w = cwd w
      /\ forall j, lowest sd <= j <= List.length sd ->
                   exists_ w (firstn j sd ++ [marker]) = false).
Proof. intros w. apply find_project_root_from_nearest. Qed.

End LocatorExtras.

(* ================================================================= *)
(** * Further properties of the documentation extractor *)

Module DocExtras.

Import PyStr Re ReAnalysis ReFacts StrFacts GenerateDocs DocStatements
ExtractFacts DocFacts MoreAnalysis.

(** ** Runs *)

(** Python rejects the file as a whole (line 252), so the statements
  below are about the functions [main] and [generate_docs] as they
  are written, called on their own. *)

(** Without the include directory [main] prints the two path lines and
  the error, then raises [SystemExit] with code 1; it makes no
  directory and writes no file. *)
Theorem missing_include_directory :
forall (w : world) (output : Path),
  let project_root := find_project_root w in
  exists_ w (include_dir_of project_root) = false ->
  GenerateDocs.main w output initial
  = (inr (SystemExit 1%Z),
     add_printed
       [txt "Project root: " ++ to_str project_root;
        txt "Output directory: " ++ to_str (joinpath project_root output);
        txt "Error: Include directory not found: "
        ++ to_str (include_dir_of project_root)]
       initial).
Proof.
intros w output project_root Hinc.
unfold GenerateDocs.main. fold project_root.
erewrite bind_inl by reflexivity. cbv zeta.
erewrite bind_inl by reflexivity.
erewrite bind_inr.
2:{ unfold generate_docs. cbv zeta. rewrite Hinc. cbn [negb].
    erewrite bind_inl by reflexivity. reflexivity. }
reflexivity.
Qed.

Lemma missing_include_directory_witness :
GenerateDocs.main Examples.root_world [txt "docs"; txt "api"] initial
= (inr (SystemExit 1%Z),
   add_printed
     [txt "Project root: /tmp";
      txt "Output directory: /tmp/docs/api";
      txt "Error: Include directory not found: /tmp/include/Zyrnix"]
     initial).
Proof.
apply (missing_include_directory Examples.root_world
         [txt "docs"; txt "api"]).
reflexivity.
Defined.

(** A loop keeps what each of its turns keeps. *)
Lemma for_fold_preserves {A B X} (f : pystate -> X) (items : list A)
    (body : B -> A -> M B) :
(forall b a st, f (snd (body b a st)) = f st) ->
forall b st, f (snd (for_fold items body b st)) = f st.
Proof.
intros Hbody. induction items as [|x items IH]; intros b st;
  [reflexivity|].
cbn [for_fold]. unfold bind.
specialize (Hbody b x st).
destruct (body b x st) as [[b'|e] st']; cbn [snd] in *.
- now rewrite IH.
- exact Hbody.
Qed.

Lemma parse_step_dirs w (acc : list Header) (p : Path) st :
made_dirs
  (snd ((print (txt "Parsing: " ++ Pathlib.name p) ;;;
         header <- parse_header w p ;;
         ret (acc ++ [header])) st))
= made_dirs st.
Proof.
unfold parse_header. destruct (read_text w p); reflexivity.
Qed.










(** When the output path names what is there and is no directory, a
  regular file for one, [mkdir] raises [FileExistsError]: [main]
  stops after it has parsed the headers, and has written nothing and
  made no directory. *)
Theorem output_path_taken :
forall (w : world) (output : Path),
  let project_root := find_project_root w in
  let output_dir := joinpath project_root output in
  exists_ w (include_dir_of project_root) = true ->
  exists_ w output_dir = true ->
  is_dir w output_dir = false ->
  exists st,
    GenerateDocs.main w output initial = (inr FileExistsError, st)
    /\ written st = []
    /\ made_dirs st = [].
Proof.
intros w output project_root output_dir Hinc Hex Hnd.
set (headers := sorted (glob_ext w (include_dir_of project_root)
                          (txt ".hpp"))).
set (st0 := add_printed [txt "Output directory: " ++ to_str output_dir]
              (add_printed [txt "Project root: " ++ to_str project_root]
                 initial)).
destruct (parse_loop w headers [] st0) as (st1 & E1 & W1).
assert (M1 : made_dirs st1 = []).
{ change st1 with (snd (@inl (list Header) exn
                          ([] ++ map (parsed w) headers), st1)).
  rewrite <- E1. now rewrite for_fold_preserves by apply parse_step_dirs. }
assert (Emk : mkdir w output_dir st1 = (inr FileExistsError, st1)).
{ unfold mkdir, exists_, is_dir in *.
  destruct (lookup w output_dir) as [[?|?|?]|]; try discriminate;
    reflexivity. }
exists st1. split; [|split; [now rewrite W1|exact M1]].
unfold GenerateDocs.main. fold project_root.
erewrite bind_inl by reflexivity. cbv zeta. fold output_dir.
erewrite bind_inl by reflexivity.
erewrite bind_inr; [reflexivity|].
unfold generate_docs. cbv zeta. rewrite Hinc. cbn [negb].
fold headers. erewrite bind_inl by exact E1. cbn [app].
erewrite bind_inr by exact Emk. reflexivity.
Qed.

Lemma output_path_taken_witness :
exists st,
  GenerateDocs.main Examples.proj_world [txt "CMakeLists.txt"] initial
  = (inr FileExistsError, st)
  /\ written st = []
  /\ made_dirs st = [].
Proof.
apply (output_path_taken Examples.proj_world [txt "CMakeLists.txt"]);
  reflexivity.
Defined.

(** ** Headers that cannot be read, headers without classes *)

(** A header that cannot be read costs one warning line and nothing
  else: [parse_header] returns a header without classes and without
  description, and the page written for such a header has its title
  and its header line only. *)
Theorem unreadable_header :
forall (w : world) (p : Path) (e : str) (st : pystate),
  read_text w p = inr e ->
  parse_header w p st
  = (inl (parsed w p),
     add_printed
       [txt "Warning: Could not read " ++ to_str p ++ txt ": " ++ e] st)
  /\ classes (parsed w p) = []
  /\ h_description (parsed w p) = []
  /\ page_of (parsed w p)
     = txt "# " ++ stem p ++ nl ++ nl
       ++ txt "Header: `include/Zyrnix/" ++ Pathlib.name p ++ txt "`" ++ nl.
Proof.
intros w p e st Hread. unfold parse_header, parsed. rewrite Hread.
repeat split. unfold page_of. cbn [classes path PyStr.join].
rewrite <- !app_assoc. reflexivity.
Qed.

Lemma unreadable_header_witness :
page_of (parsed MoreExamples.damaged_world
           [txt "/"; txt "proj"; txt "include"; txt "Zyrnix";
            txt "broken.hpp"])
= txt "# broken" ++ nl ++ nl
  ++ txt "Header: `include/Zyrnix/broken.hpp`" ++ nl.
Proof.
rewrite (proj2 (proj2 (proj2
           (unreadable_header MoreExamples.damaged_world
              [txt "/"; txt "proj"; txt "include"; txt "Zyrnix";
               txt "broken.hpp"]
              (txt "'utf-8' codec can't decode byte 0xff") initial
              eq_refl)))).
reflexivity.
Defined.

(** ** Comments and the declarations they belong to *)

Lemma lstrip_spaces ws s :
forallb isspace ws = true -> lstrip (ws ++ s) = lstrip s.
Proof.
induction ws as [|c ws IH]; [reflexivity|].
cbn. destruct (isspace c); [exact IH|discriminate].
Qed.

Lemma rstrip_spaces s ws :
forallb isspace ws = true -> rstrip (s ++ ws) = rstrip s.
Proof.
intros H. unfold rstrip. rewrite rev_app_distr, lstrip_spaces;
  [reflexivity|].
rewrite forallb_forall in *. intros c Hc. apply H. now apply in_rev.
Qed.

(** White space between a comment and the declaration does not detach
  the comment: the description read at the end of [above ++ ws],
  where [ws] is white space (blank lines, indentation), is the one
  read at the end of [above]. *)
Theorem blank_lines_keep_comment :
forall (above ws below : str),
  forallb isspace ws = true ->
  extract_doxygen_comment (above ++ ws ++ below)
    (List.length above + List.length ws)
  = extract_doxygen_comment above (List.length above).
Proof.
intros above ws below Hws. unfold extract_doxygen_comment.
rewrite firstn_app_2, firstn_all.
replace (firstn (List.length ws) (ws ++ below)) with ws
  by (rewrite <- (Nat.add_0_r (List.length ws)), firstn_app_2;
      cbn; now rewrite app_nil_r).
now rewrite rstrip_spaces.
Qed.

Lemma blank_lines_keep_comment_witness :
extract_doxygen_comment
  (txt "/// A queue." ++ (nl ++ nl ++ txt "  ") ++ txt "class Queue {")
  (12 + 4)
= txt "A queue.".
Proof.
exact (eq_trans
         (blank_lines_keep_comment (txt "/// A queue.")
            (nl ++ nl ++ txt "  ") (txt "class Queue {") eq_refl)
         eq_refl).
Defined.

Lemma split_line l :
existsb (Ascii.eqb newline) l = false -> split newline l = [l].
Proof.
induction l as [|c l IH]; [reflexivity|].
cbn [existsb split]. rewrite orb_false_iff. intros [Hc Hl].
rewrite Ascii.eqb_sym, Hc, (IH Hl). reflexivity.
Qed.

Lemma comment_run_skip xs :
forall l ys acc,
  startswith (strip l) (txt "//") = true ->
  startswith (strip l) (txt "///") = false ->
  comment_run (xs ++ l :: ys) acc = comment_run (xs ++ ys) acc.
Proof.
induction xs as [|x xs IH]; intros l ys acc H2 H3; cbn [app comment_run].
- now rewrite H3, H2.
- destruct (startswith (strip x) (txt "///")); [now apply IH|].
  destruct (startswith (strip x) (txt "//")); [now apply IH|reflexivity].
Qed.

(** A line that holds a [//] comment which is not a [///] comment is
  passed over wherever it stands among the lines before a
  declaration: taking it out leaves the description unchanged. *)
Theorem plain_comment_line_is_skipped :
forall (above line below : str),
  existsb (Ascii.eqb newline) line = false ->
  startswith (strip line) (txt "//") = true ->
  startswith (strip line) (txt "///") = false ->
  line_comment (above ++ nl ++ line ++ nl ++ below)
  = line_comment (above ++ nl ++ below).
Proof.
intros above line below Hnl H2 H3. unfold line_comment, nl.
cbn [app]. rewrite !split_at, (split_line line Hnl).
rewrite !rev_app_distr. cbn [rev app].
rewrite <- app_assoc. cbn [app].
now rewrite comment_run_skip.
Qed.

Lemma plain_comment_line_is_skipped_witness :
line_comment (txt "/// Reads one record." ++ nl ++ txt "// TODO: buffer"
              ++ nl ++ txt "/// Blocks until data arrives.")
= txt "Reads one record. Blocks until data arrives.".
Proof.
rewrite (plain_comment_line_is_skipped (txt "/// Reads one record.")
           (txt "// TODO: buffer") (txt "/// Blocks until data arrives.")
           eq_refl eq_refl eq_refl).
reflexivity.
Defined.

(** Without a comment right above, the description is empty: when the
  text before the declaration, white space at its end left out, does
  not end in [*/] and its last line is not a [//] comment, the
  description is the empty string. *)
Theorem no_comment_no_description :
forall (content : str) (pos : nat),
  let before := rstrip (firstn pos content) in
  endswith before (txt "*/") = false ->
  startswith (strip (last (split newline before) [])) (txt "//") = false ->
  extract_doxygen_comment content pos = [].
Proof.
intros content pos before Hblock Hline.
unfold extract_doxygen_comment. fold before. rewrite Hblock.
unfold line_comment.
destruct (rev_split_head newline before) as [ls ->].
cbn [comment_run].
destruct (startswith (strip (last (split newline before) [])) (txt "///"))
  eqn:E.
- apply (startswith_shorter _ (txt "//") (txt "/")) in E. congruence.
- rewrite Hline. reflexivity.
Qed.

Lemma no_comment_no_description_witness :
extract_doxygen_comment
  (txt "#pragma once" ++ nl ++ txt "struct Plain {") 13 = [].
Proof.
apply (no_comment_no_description
         (txt "#pragma once" ++ nl ++ txt "struct Plain {") 13);
  reflexivity.
Defined.

(** ** The description of the file *)

Lemma search_from_none r s :
forall i,
  (forall k, match_at r (skipn k s) (i + k) = None) ->
  search_from r s i = None.
Proof.
induction s as [|c s IH]; intros i H.
- cbn [search_from]. specialize (H 0). cbn [skipn] in H.
  rewrite Nat.add_0_r in H. now rewrite H.
- cbn [search_from]. pose proof (H 0) as H0. cbn [skipn] in H0.
  rewrite Nat.add_0_r in H0. rewrite H0. apply IH.
  intros k. specialize (H (S k)). cbn [skipn] in H.
  now rewrite Nat.add_succ_r in H.
Qed.

Lemma none_before_all sub s n k :
sub <> [] ->
List.length s <= n ->
none_before sub s n = true ->
startswith (skipn k s) sub = false.
Proof.
intros Hsub Hlen H.
destruct (Nat.lt_ge_cases k n) as [Hk|Hk].
- now apply (none_before_spec sub s n k).
- rewrite skipn_all2 by lia. destruct sub; [congruence|reflexivity].
Qed.

Lemma star_lazy_suffix p s i t j :
In (t, j) (star_lazy p s i) -> exists k, t = skipn k s.
Proof.
revert i. induction s as [|c s IH]; intros i; cbn [star_lazy].
- intros [E|[]]. injection E as <- _. now exists 0.
- intros [E|H].
  + injection E as <- _. now exists 0.
  + destruct (p c); [|destruct H]. apply IH in H.
    destruct H as [k ->]. now exists (S k).
Qed.

Lemma strip_prefix_suffix l s s' :
strip_prefix l s = Some s' -> s' = skipn (List.length l) s.
Proof.
revert s. induction l as [|a l IH]; intros s; cbn.
- intros E. now injection E.
- destruct s as [|b s]; [discriminate|].
  destruct (Ascii.eqb a b); [apply IH|discriminate].
Qed.

(** A block comment needs its end. *)
Lemma file_comment_needs_end s i :
(forall k, startswith (skipn k s) (txt "*/") = false) ->
match_at file_comment_re s i = None.
Proof.
intros H. unfold match_at.
destruct (rmatch file_comment_re (MS s i [])) as [|x xs] eqn:E;
  [reflexivity|exfalso].
assert (Hx : In x (rmatch file_comment_re (MS s i [])))
  by (rewrite E; now left).
clear E. unfold file_comment_re in Hx. cbn [rmatch] in Hx.
apply in_flat_map in Hx. destruct Hx as (st1 & H1 & Hx).
apply in_flat_map in Hx. destruct Hx as (st2 & H2 & Hx).
cbn [rest pos caps] in H1.
destruct (strip_prefix (txt "/**") s) as [s1|] eqn:E1; [|destruct H1].
destruct H1 as [<-|[]]. cbn [rest pos caps] in H2.
apply strip_prefix_suffix in E1.
apply in_map_iff in H2. destruct H2 as ([t j] & <- & Hin).
apply star_lazy_suffix in Hin. destruct Hin as [k ->].
cbn [rest pos caps fst snd] in Hx.
assert (Hk : strip_prefix (txt "*/") (skipn k s1) = None).
{ apply strip_prefix_startswith. subst s1. rewrite skipn_skipn. apply H. }
rewrite Hk in Hx. destruct Hx.
Qed.

(** The description of the file is empty when the first 500 characters
  hold no [/**], and also when they hold no [*/]: a comment that
  opens there and closes further down is not seen. *)
Theorem no_file_comment :
forall (filepath : Path) (content : str),
  none_before (txt "/**") (firstn 500 content) 500 = true
  \/ none_before (txt "*/") (firstn 500 content) 500 = true ->
  h_description (parse_content filepath content) = [].
Proof.
intros filepath content H. unfold parse_content. cbn [h_description].
assert (Hlen : List.length (firstn 500 content) <= 500)
  by (rewrite length_firstn; lia).
unfold search. rewrite search_from_none; [reflexivity|].
intros k. destruct H as [H|H].
- apply file_comment_keyword.
  apply (none_before_all _ _ 500); [discriminate|exact Hlen|exact H].
- apply file_comment_needs_end. intros j. rewrite skipn_skipn.
  apply (none_before_all _ _ 500); [discriminate|exact Hlen|exact H].
Qed.

Lemma no_file_comment_witness :
h_description
  (parse_content [txt "late.hpp"]
     (txt "#pragma once" ++ nl ++ txt "/** Opens here"
      ++ repeat " "%char 500 ++ txt "and closes too late. */"))
= [].
Proof.
apply (no_file_comment [txt "late.hpp"]).
right. vm_compute. reflexivity.
Defined.

(** ** The declarations that are found *)

Lemma strip_prefix_app l s s' : strip_prefix l s = Some s' -> s = l ++ s'.
Proof.
revert s. induction l as [|a l IH]; intros s; cbn.
- intros E. now injection E.
- destruct s as [|b s]; [discriminate|].
  destruct (Ascii.eqb a b) eqn:E; [|discriminate].
  apply Ascii.eqb_eq in E. subst b. intros H. f_equal. now apply IH.
Qed.

Lemma forallb_reads_lit l : forallb (reads (Lit l)) l = true.
Proof.
apply forallb_forall. intros c Hc. cbn [reads].
apply existsb_exists. exists c. split; [exact Hc|apply Ascii.eqb_refl].
Qed.

Lemma star_greedy_reads p s i t j :
In (t, j) (star_greedy p s i) ->
exists consumed,
  s = consumed ++ t /\ j = i + List.length consumed
  /\ forallb p consumed = true.
Proof.
revert i. induction s as [|c s IH]; intros i; cbn [star_greedy].
- intros [E|[]]. injection E as <- <-. exists []. cbn. now rewrite Nat.add_0_r.
- assert (Hhere : (c :: s, i) = (t, j) ->
                  exists consumed, c :: s = consumed ++ t
                    /\ j = i + List.length consumed
                    /\ forallb p consumed = true).
  { intros E. injection E as <- <-. exists []. cbn.
    now rewrite Nat.add_0_r. }
  destruct (p c) eqn:Ec.
  + intros H. apply in_app_or in H. destruct H as [H|[H|[]]]; [|auto].
    apply IH in H. destruct H as (consumed & -> & -> & Hall).
    exists (c :: consumed). cbn. rewrite Ec, Hall.
    repeat split. lia.
  + intros [H|[]]. auto.
Qed.

Lemma star_lazy_reads p s i t j :
In (t, j) (star_lazy p s i) ->
exists consumed,
  s = consumed ++ t /\ j = i + List.length consumed
  /\ forallb p consumed = true.
Proof.
revert i. induction s as [|c s IH]; intros i; cbn [star_lazy].
- intros [E|[]]. injection E as <- <-. exists []. cbn. now rewrite Nat.add_0_r.
- intros [E|H].
  + injection E as <- <-. exists []. cbn. now rewrite Nat.add_0_r.
  + destruct (p c) eqn:Ec; [|destruct H].
    apply IH in H. destruct H as (consumed & -> & -> & Hall).
    exists (c :: consumed). cbn. rewrite Ec, Hall.
    repeat split. lia.
Qed.

Lemma forallb_weaken (p q : ascii -> bool) l :
(forall c, p c = true -> q c = true) ->
forallb p l = true -> forallb q l = true.
Proof.
intros Hpq H. apply forallb_forall. intros c Hc. apply Hpq.
revert c Hc. now apply forallb_forall.
Qed.

(** A match reads a piece of the input, each character of it by some
  part of the pattern. *)
Lemma rmatch_reads r :
forall st st',
  In st' (rmatch r st) ->
  exists consumed,
    rest st = consumed ++ rest st'
    /\ pos st' = pos st + List.length consumed
    /\ forallb (reads r) consumed = true.
Proof.
assert (Hnone : forall st q, exists consumed : str,
           rest st = consumed ++ rest st
           /\ pos st = pos st + List.length consumed
           /\ forallb q consumed = true).
{ intros st q. exists []. cbn. now rewrite Nat.add_0_r. }
induction r as [|l|p|a IHa b IHb|a IHa b IHb|p|p|n r IH| |];
  intros st st'; cbn [rmatch].
- intros [<-|[]]. apply Hnone.
- destruct (strip_prefix l (rest st)) as [s'|] eqn:E; [|intros []].
  intros [<-|[]]. cbn [rest pos]. exists l.
  split; [now apply strip_prefix_app|].
  split; [reflexivity|apply forallb_reads_lit].
- destruct (rest st) as [|c s'] eqn:E; [intros []|].
  destruct (p c) eqn:Ec; [|intros []].
  intros [<-|[]]. cbn [rest pos]. exists [c]. cbn. rewrite Ec.
  repeat split. lia.
- intros H. apply in_flat_map in H. destruct H as (st1 & H1 & H2).
  apply IHa in H1. apply IHb in H2.
  destruct H1 as (c1 & E1 & P1 & A1), H2 as (c2 & E2 & P2 & A2).
  exists (c1 ++ c2). rewrite E1, E2, P2, P1, <- app_assoc, length_app.
  split; [reflexivity|]. split; [lia|].
  rewrite forallb_app. apply andb_true_iff. split.
  + revert A1. apply forallb_weaken. intros c Hc. cbn. now rewrite Hc.
  + revert A2. apply forallb_weaken. intros c Hc. cbn. rewrite Hc.
    apply orb_true_r.
- intros H. apply in_app_or in H. destruct H as [H|H].
  + apply IHa in H. destruct H as (c1 & E1 & P1 & A1). exists c1.
    repeat split; try assumption.
    revert A1. apply forallb_weaken. intros c Hc. cbn. now rewrite Hc.
  + apply IHb in H. destruct H as (c1 & E1 & P1 & A1). exists c1.
    repeat split; try assumption.
    revert A1. apply forallb_weaken. intros c Hc. cbn. rewrite Hc.
    apply orb_true_r.
- intros H. apply in_map_iff in H. destruct H as ([t j] & <- & H).
  cbn [rest pos fst snd]. now apply star_greedy_reads.
- intros H. apply in_map_iff in H. destruct H as ([t j] & <- & H).
  cbn [rest pos fst snd]. now apply star_lazy_reads.
- intros H. apply in_map_iff in H. destruct H as (st1 & <- & H).
  cbn [rest pos]. now apply IH.
- destruct (pos st =? 0); [|intros []]. intros [<-|[]]. apply Hnone.
- intros H. assert (E : st' = st).
  { destruct (rest st) as [|c [|d s']].
    + now destruct H as [<-|[]].
    + destruct (Ascii.eqb c newline); [|destruct H].
      now destruct H as [<-|[]].
    + destruct H. }
  subst st'. apply Hnone.
Qed.

Lemma finditer_from_In r m s :
forall i skip,
  In m (finditer_from r s i skip) ->
  exists k, match_at r (skipn k s) (i + k) = Some m.
Proof.
induction s as [|c s IH]; intros i skip; cbn [finditer_from].
- destruct skip; [|intros []].
  destruct (match_at r [] i) as [m'|] eqn:E; [|intros []].
  intros [<-|[]]. exists 0. cbn [skipn]. now rewrite Nat.add_0_r.
- assert (Hrest : forall skip', In m (finditer_from r s (S i) skip') ->
            exists k, match_at r (skipn k (c :: s)) (i + k) = Some m).
  { intros skip' H. apply IH in H. destruct H as [k H].
    exists (S k). cbn [skipn]. now rewrite Nat.add_succ_r. }
  destruct skip; [|apply Hrest].
  destruct (match_at r (c :: s) i) as [m'|] eqn:E; [|apply Hrest].
  intros [<-|H]; [|now apply Hrest in H].
  exists 0. cbn [skipn]. now rewrite Nat.add_0_r.
Qed.

Lemma firstn_length_app (a b : str) : firstn (List.length a) (a ++ b) = a.
Proof. induction a as [|c a IH]; cbn; [now destruct b|now rewrite IH]. Qed.

Lemma keyword_read st st' :
In st' (rmatch (Group 1 (Alt (Lit (txt "class")) (Lit (txt "struct")))) st) ->
exists kw,
  (kw = txt "class" \/ kw = txt "struct")
  /\ rest st = kw ++ rest st'
  /\ pos st' = pos st + List.length kw.
Proof.
cbn [rmatch]. intros H. apply in_map_iff in H.
destruct H as (st1 & <- & H). cbn [rest pos].
apply in_app_or in H. destruct H as [H|H].
- destruct (strip_prefix (txt "class") (rest st)) as [s'|] eqn:E;
    [|destruct H].
  destruct H as [<-|[]]. exists (txt "class"). cbn [rest pos].
  apply strip_prefix_app in E. auto.
- destruct (strip_prefix (txt "struct") (rest st)) as [s'|] eqn:E;
    [|destruct H].
  destruct H as [<-|[]]. exists (txt "struct"). cbn [rest pos].
  apply strip_prefix_app in E. auto.
Qed.

Ltac one_of_chars H :=
repeat (apply orb_true_iff in H; destruct H as [H|H]);
try discriminate H;
try (apply Ascii.eqb_eq in H; subst; reflexivity).

Lemma head_char_space c : isspace c = true -> head_char c = true.
Proof. intros H. unfold head_char. now rewrite H. Qed.

Lemma head_char_word c : isword c = true -> head_char c = true.
Proof. intros H. unfold head_char. rewrite H. now rewrite orb_true_r. Qed.

Lemma head_char_colon c : word_or_colon c = true -> head_char c = true.
Proof.
unfold word_or_colon, head_char. intros H.
apply orb_true_iff in H. destruct H as [H|H]; rewrite H.
- now rewrite orb_true_r.
- apply orb_true_r.
Qed.

Lemma reads_inheritance c :
reads (Opt (Star isspace >> Lit (txt ":") >> Star isspace
            >> Opt (Alt (Lit (txt "public"))
                      (Alt (Lit (txt "protected")) (Lit (txt "private"))))
            >> Star isspace
            >> Group 3 (Plus word_or_colon))) c = true ->
head_char c = true.
Proof.
unfold Opt, Plus. cbn [reads]. intros H.
destruct (isspace c) eqn:Hs; [now apply head_char_space|].
destruct (word_or_colon c) eqn:Hw; [now apply head_char_colon|].
cbn [existsb txt list_ascii_of_string orb] in H. one_of_chars H.
Qed.

(** A declaration that is found starts with the keyword and ends with
  the opening brace, and between them has white space, word characters
  and colons only: a declaration with a comma, a template argument
  list or a semicolon before the brace is not found. *)
Theorem class_match_shape :
forall (content : str) (m : Match),
  In m (finditer class_pattern content) ->
  exists kw body,
    (kw = txt "class" \/ kw = txt "struct")
    /\ matched content m = kw ++ body ++ txt "{"
    /\ forallb head_char body = true.
Proof.
intros content m H. apply finditer_from_In in H. destruct H as [k H].
cbn [Nat.add] in H. unfold match_at in H.
destruct (rmatch class_pattern (MS (skipn k content) k [])) as [|st sts]
  eqn:E; [discriminate|].
injection H as <-. unfold matched. cbn [m_start m_end].
assert (Hin : In st (rmatch class_pattern (MS (skipn k content) k [])))
  by (rewrite E; now left).
clear E. unfold class_pattern in Hin.
cbn [rmatch] in Hin.
apply in_flat_map in Hin. destruct Hin as (s1 & H1 & Hin).
apply in_flat_map in Hin. destruct Hin as (s2 & H2 & Hin).
apply in_flat_map in Hin. destruct Hin as (s3 & H3 & Hin).
apply in_flat_map in Hin. destruct Hin as (s4 & H4 & Hin).
apply in_flat_map in Hin. destruct Hin as (s5 & H5 & H6).
apply (keyword_read (MS (skipn k content) k [])) in H1.
destruct H1 as (kw & Hkw & E1 & P1). cbn [rest pos] in E1, P1.
apply (rmatch_reads (Plus isspace)) in H2.
destruct H2 as (c2 & E2 & P2 & A2).
apply (rmatch_reads (Group 2 (Plus isword))) in H3.
destruct H3 as (c3 & E3 & P3 & A3).
apply rmatch_reads in H4. destruct H4 as (c4 & E4 & P4 & A4).
apply (rmatch_reads (Star isspace)) in H5.
destruct H5 as (c5 & E5 & P5 & A5).
cbn [rmatch] in H6.
destruct (strip_prefix (txt "{") (rest s5)) as [s'|] eqn:E6;
  [|destruct H6].
destruct H6 as [<-|[]]. apply strip_prefix_app in E6. cbn [pos].
exists kw, (c2 ++ c3 ++ c4 ++ c5). split; [exact Hkw|]. split.
- rewrite E1, E2, E3, E4, E5, E6, P5, P4, P3, P2, P1.
  replace (k + List.length kw + List.length c2 + List.length c3
           + List.length c4 + List.length c5
           + List.length (txt "{") - k)
    with (List.length (kw ++ (c2 ++ c3 ++ c4 ++ c5) ++ txt "{"))
    by (rewrite !length_app; lia).
  replace (kw ++ c2 ++ c3 ++ c4 ++ c5 ++ txt "{" ++ s')
    with ((kw ++ (c2 ++ c3 ++ c4 ++ c5) ++ txt "{") ++ s')
    by (now rewrite <- !app_assoc).
  apply firstn_length_app.
- rewrite !forallb_app, !andb_true_iff. repeat split.
  + revert A2. apply forallb_weaken. intros c Hc.
    unfold Plus in Hc. cbn [reads] in Hc. apply head_char_space.
    now destruct (isspace c).
  + revert A3. apply forallb_weaken. intros c Hc.
    unfold Plus in Hc. cbn [reads] in Hc. apply head_char_word.
    now destruct (isword c).
  + revert A4. apply forallb_weaken. exact reads_inheritance.
  + revert A5. apply forallb_weaken. exact head_char_space.
Qed.

Lemma class_match_shape_witness :
exists kw body,
  (kw = txt "class" \/ kw = txt "struct")
  /\ matched (txt "struct Point : Shape {};")
       (MkMatch 0 22 [(3, (15, 20)); (2, (7, 12)); (1, (0, 6))])
     = kw ++ body ++ txt "{"
  /\ forallb head_char body = true.
Proof.
apply (class_match_shape (txt "struct Point : Shape {};")).
vm_compute. left. reflexivity.
Defined.

(** ** Block comments *)

Lemma rfind_free s sub : free sub s -> rfind s sub = None.
Proof.
unfold free. induction s as [|c s IH]; intros H.
- cbn [rfind]. pose proof (H 0) as H0. cbn [skipn] in H0. now rewrite H0.
- cbn [rfind]. rewrite IH.
  + pose proof (H 0) as H0. cbn [skipn] in H0. now rewrite H0.
  + intros k. exact (H (S k)).
Qed.

Lemma free_nil sub : sub <> [] -> free sub [].
Proof. intros H k. rewrite skipn_nil. destruct sub; [congruence|reflexivity]. Qed.

Lemma free_cons sub c s :
startswith (c :: s) sub = false -> free sub s -> free sub (c :: s).
Proof. intros H0 H [|k]; [exact H0|exact (H k)]. Qed.

Lemma free_not_slash c s :
Ascii.eqb "/"%char c = false ->
free (txt "/**") s -> free (txt "/**") (c :: s).
Proof.
intros Hc. apply free_cons.
cbn [txt list_ascii_of_string startswith]. now rewrite Hc.
Qed.

Lemma free_before_other c s :
startswith s (txt "*") = false ->
free (txt "/**") s -> free (txt "/**") (c :: s).
Proof.
intros Hs. apply free_cons.
change (startswith (c :: s) (txt "/**"))
  with (Ascii.eqb "/"%char c && startswith s (txt "**")).
destruct (startswith s (txt "**")) eqn:E; [|apply andb_false_r].
apply (startswith_shorter s (txt "*") (txt "*")) in E. congruence.
Qed.

Lemma startswith_no_star t s p :
existsb (Ascii.eqb "*"%char) t = false ->
startswith s (txt "*") = false ->
startswith (t ++ s) ("*"%char :: p) = false.
Proof.
destruct t as [|c t]; cbn [app existsb].
- intros _ H. destruct s as [|d s]; [reflexivity|].
  cbn [txt list_ascii_of_string startswith] in H |- *.
  rewrite startswith_nil, andb_true_r in H. now rewrite H.
- rewrite orb_false_iff. intros [Hc _] _.
  cbn [startswith]. now rewrite Hc.
Qed.

Lemma free_text t s :
existsb (Ascii.eqb "*"%char) t = false ->
startswith s (txt "*") = false ->
free (txt "/**") s -> free (txt "/**") (t ++ s).
Proof.
intros Ht Hs Hfree. induction t as [|c t IH]; [exact Hfree|].
cbn [existsb] in Ht. apply orb_false_iff in Ht. destruct Ht as [Hc Ht].
cbn [app]. apply free_before_other; [|now apply IH].
now apply (startswith_no_star t s []).
Qed.

Lemma block_lines_head texts : startswith (block_lines texts) (txt "*") = false.
Proof. destruct texts; reflexivity. Qed.

Lemma block_lines_cons t texts :
block_lines (t :: texts) = txt " * " ++ t ++ nl ++ block_lines texts.
Proof.
unfold block_lines. cbn [map List.concat]. now rewrite <- !app_assoc.
Qed.

Lemma block_lines_free texts :
forallb plain_text texts = true -> free (txt "/**") (block_lines texts).
Proof.
induction texts as [|t texts IH]; intros H.
- unfold block_lines. cbn. repeat (apply free_not_slash; [reflexivity|]).
  apply free_before_other; [reflexivity|]. now apply free_nil.
- cbn [forallb] in H. apply andb_true_iff in H. destruct H as [Ht H].
  rewrite block_lines_cons. cbn [txt list_ascii_of_string app].
  repeat (apply free_not_slash; [reflexivity|]).
  unfold plain_text in Ht. rewrite !andb_true_iff, !negb_true_iff in Ht.
  destruct Ht as [[[_ _] Hstar] _].
  apply free_text; [exact Hstar|reflexivity|].
  unfold nl. cbn [app]. apply free_not_slash; [reflexivity|]. now apply IH.
Qed.

Lemma block_lines_rstrip a texts :
rstrip (a ++ block_lines texts) = a ++ block_lines texts.
Proof.
unfold block_lines. rewrite !app_assoc.
rewrite rstrip_app; [reflexivity|discriminate].
Qed.

Lemma block_lines_end a texts :
endswith (a ++ block_lines texts) (txt "*/") = true.
Proof.
unfold block_lines. rewrite !app_assoc.
rewrite endswith_app; [reflexivity|cbn; lia].
Qed.

Lemma block_lines_split texts :
forallb plain_text texts = true ->
split newline (block_lines texts)
= map (fun t => txt " * " ++ t) texts ++ [txt " */"].
Proof.
induction texts as [|t texts IH]; intros H; [reflexivity|].
cbn [forallb] in H. apply andb_true_iff in H. destruct H as [Ht H].
rewrite block_lines_cons. unfold nl.
rewrite (app_assoc (txt " * ") t). cbn [app].
change (((txt " * " ++ t) ++ newline :: block_lines texts))
  with ((txt " * " ++ t) ++ newline :: block_lines texts).
rewrite split_at, (IH H), split_line; [reflexivity|].
unfold plain_text in Ht. rewrite !andb_true_iff, !negb_true_iff in Ht.
destruct Ht as [_ Hnl]. cbn [txt list_ascii_of_string app existsb].
now rewrite Hnl.
Qed.

Lemma sub_from_bol r s :
forall i, 0 < i -> sub_from (Bol >> r) s i 0 = s.
Proof.
induction s as [|c s IH]; intros i Hi; [reflexivity|].
cbn [sub_from]. unfold match_at. cbn [rmatch pos].
destruct (Nat.eqb_spec i 0) as [->|_]; [lia|].
cbn [flat_map]. rewrite IH by lia. reflexivity.
Qed.

Lemma sub_from_none r s :
(forall k i, match_at r (skipn k s) i = None) ->
forall i, sub_from r s i 0 = s.
Proof.
induction s as [|c s IH]; intros H i; [reflexivity|].
cbn [sub_from]. pose proof (H 0 i) as H0. cbn [skipn] in H0.
rewrite H0, IH; [reflexivity|].
intros k j. exact (H (S k) j).
Qed.

Lemma re_close_none s i :
startswith s (txt "*/") = false -> match_at re_close s i = None.
Proof.
intros H. apply strip_prefix_startswith in H.
unfold match_at, re_close. cbn [rmatch rest]. now rewrite H.
Qed.

Lemma no_star_suffix t k :
existsb (Ascii.eqb "*"%char) t = false ->
existsb (Ascii.eqb "*"%char) (skipn k t) = false.
Proof.
revert t. induction k as [|k IH]; intros t H; [exact H|].
destruct t as [|c t]; [reflexivity|]. cbn [skipn]. apply IH.
cbn [existsb] in H. now apply orb_false_iff in H.
Qed.

(** The three substitutions and the stripping of one line [ * text]. *)
Lemma clean_line_text t :
plain_text t = true -> clean_line (txt " * " ++ t) = t.
Proof.
unfold plain_text. rewrite !andb_true_iff, !negb_true_iff.
intros [[[_ Hstrip] Hstar] _].
unfold clean_line.
assert (Eopen : sub re_open (txt " * " ++ t) = txt " * " ++ t).
{ unfold sub, re_open. cbn [txt list_ascii_of_string app sub_from].
  replace (match_at (Bol >> Lit ("/"%char :: "*"%char :: "*"%char :: [])
                      >> Star isspace)
             (" "%char :: "*"%char :: " "%char :: t) 0)
    with (@None Match) by reflexivity.
  now rewrite sub_from_bol by lia. }
rewrite Eopen.
assert (Eclose : sub re_close (txt " * " ++ t) = txt " * " ++ t).
{ apply sub_from_none. intros k i. apply re_close_none.
  destruct k as [|[|[|k]]]; try reflexivity.
  cbn [txt list_ascii_of_string app skipn].
  rewrite <- (app_nil_r (skipn k t)).
  apply startswith_no_star; [now apply no_star_suffix|reflexivity]. }
rewrite Eclose.
assert (Estar : sub re_star (txt " * " ++ t) = t).
{ unfold sub, re_star. cbn [txt list_ascii_of_string app sub_from].
  replace (match_at (Bol >> Star isspace >> Lit ("*"%char :: [])
                      >> Opt (Cls isspace))
             (" "%char :: "*"%char :: " "%char :: t) 0)
    with (Some (MkMatch 0 3 [])) by reflexivity.
  cbn [m_end Nat.leb Nat.sub sub_from].
  now rewrite sub_from_bol by lia. }
rewrite Estar.
destruct (list_eq_dec ascii_dec (strip t) t) as [E|E];
  [exact E|].
unfold str_eqb in Hstrip.
destruct (list_eq_dec ascii_dec (strip t) t); [contradiction|discriminate].
Qed.

Lemma clean_lines_texts texts :
forallb plain_text texts = true ->
forall acc,
  clean_lines (map (fun t => txt " * " ++ t) texts ++ [txt " */"]) acc
  = acc ++ texts.
Proof.
induction texts as [|t texts IH]; intros H acc.
- cbn [map app clean_lines].
  replace (clean_line (txt " */")) with (@nil ascii) by reflexivity.
  now rewrite app_nil_r.
- cbn [forallb] in H. apply andb_true_iff in H. destruct H as [Ht H].
  cbn [map app clean_lines]. rewrite (clean_line_text t Ht).
  destruct t as [|c t]; [discriminate Ht|].
  rewrite (IH H), <- app_assoc. reflexivity.
Qed.

(** What is written as a block comment is read back: the description
  read at the end of the block [doxygen_block texts], whatever stands
  above and below it, is the texts of its lines joined by single
  spaces. *)
Theorem doxygen_block_round_trip :
forall (above below : str) (texts : list str),
  forallb plain_text texts = true ->
  extract_doxygen_comment (above ++ doxygen_block texts ++ below)
    (List.length above + List.length (doxygen_block texts))
  = join (txt " ") texts.
Proof.
intros above below texts H. unfold extract_doxygen_comment.
rewrite app_assoc, <- length_app, firstn_length_app.
unfold doxygen_block.
rewrite !app_assoc, block_lines_rstrip, block_lines_end.
rewrite <- !app_assoc.
rewrite (rfind_app above _ _ 0).
- rewrite Nat.add_0_r, skipn_app, skipn_all, Nat.sub_diag.
  cbn [app skipn]. unfold strip.
  replace (lstrip (txt "/**" ++ nl ++ block_lines texts))
    with (txt "/**" ++ nl ++ block_lines texts) by reflexivity.
  rewrite !app_assoc, block_lines_rstrip.
  unfold nl. rewrite <- app_assoc. cbn [app].
  change ("/"%char :: "*"%char :: "*"%char :: newline :: block_lines texts)
    with (txt "/**" ++ newline :: block_lines texts).
  rewrite split_at, (block_lines_split texts H).
  replace (split newline (txt "/**")) with [txt "/**"] by reflexivity.
  cbn [app clean_lines].
  replace (clean_line (txt "/**")) with (@nil ascii) by reflexivity.
  now rewrite (clean_lines_texts texts H).
- cbn [txt list_ascii_of_string app rfind].
  rewrite rfind_free; [reflexivity|].
  repeat (apply free_not_slash; [reflexivity|]).
  now apply block_lines_free.
Qed.

Lemma doxygen_block_round_trip_witness :
extract_doxygen_comment
  (txt "#pragma once" ++ nl
   ++ doxygen_block [txt "Writes records."; txt "See docs/sinks."]
   ++ nl ++ txt "class Sink {")
  (13 + 45)
= txt "Writes records. See docs/sinks.".
Proof.
exact (eq_trans
         (doxygen_block_round_trip (txt "#pragma once" ++ nl)
            (nl ++ txt "class Sink {")
            [txt "Writes records."; txt "See docs/sinks."] eq_refl)
         eq_refl).
Defined.

(** ** Runs of line comments *)

Lemma lstrip_length s : List.length (lstrip s) <= List.length s.
Proof.
induction s as [|c s IH]; cbn; [lia|].
destruct (isspace c); cbn; lia.
Qed.

Lemma rstrip_length s : List.length (rstrip s) <= List.length s.
Proof.
unfold rstrip. rewrite length_rev.
etransitivity; [apply lstrip_length|]. now rewrite length_rev.
Qed.

Lemma plain_text_parts t :
plain_text t = true ->
t <> [] /\ lstrip t = t /\ rstrip t = t
/\ existsb (Ascii.eqb "*"%char) t = false
/\ existsb (Ascii.eqb newline) t = false.
Proof.
unfold plain_text. rewrite !andb_true_iff, !negb_true_iff.
intros [[[Hne Hstrip] Hstar] Hnl].
assert (E : strip t = t).
{ unfold str_eqb in Hstrip.
  destruct (list_eq_dec ascii_dec (strip t) t); [assumption|discriminate]. }
assert (Hl : lstrip t = t).
{ destruct t as [|c t]; [reflexivity|]. cbn [lstrip].
  destruct (isspace c) eqn:Ec; [|reflexivity]. exfalso.
  unfold strip in E. cbn [lstrip] in E. rewrite Ec in E.
  pose proof (rstrip_length (lstrip t)) as H1.
  pose proof (lstrip_length t) as H2.
  rewrite E in H1. cbn [List.length] in H1. lia. }
repeat split; try assumption.
- intros ->. discriminate Hne.
- unfold strip in E. now rewrite Hl in E.
Qed.

Lemma doc_line_strip t :
plain_text t = true -> strip (txt "/// " ++ t) = txt "/// " ++ t.
Proof.
intros H. apply plain_text_parts in H.
destruct H as (Hne & _ & Hr & _). unfold strip.
replace (lstrip (txt "/// " ++ t)) with (txt "/// " ++ t) by reflexivity.
rewrite rstrip_app, Hr; [reflexivity|now rewrite Hr].
Qed.

Lemma doc_line_text t :
plain_text t = true -> strip (skipn 3 (txt "/// " ++ t)) = t.
Proof.
intros H. apply plain_text_parts in H.
destruct H as (_ & Hl & Hr & _).
cbn [txt list_ascii_of_string app skipn]. unfold strip.
replace (lstrip (" "%char :: t)) with (lstrip t) by reflexivity.
now rewrite Hl.
Qed.

Lemma comment_run_texts texts :
forallb plain_text texts = true ->
forall others acc,
  comment_run (rev (map (fun t => txt "/// " ++ t) texts) ++ others) acc
  = comment_run others (texts ++ acc).
Proof.
induction texts as [|t texts IH] using rev_ind; intros H others acc;
  [reflexivity|].
rewrite forallb_app in H. apply andb_true_iff in H.
destruct H as [H Ht]. cbn [forallb] in Ht. rewrite andb_true_r in Ht.
rewrite map_app, rev_app_distr. cbn [map rev app comment_run].
rewrite (doc_line_strip t Ht).
replace (startswith (txt "/// " ++ t) (txt "///")) with true by reflexivity.
rewrite <- (doc_line_strip t Ht) at 1.
rewrite (doc_line_strip t Ht), (doc_line_text t Ht), (IH H).
now rewrite <- app_assoc.
Qed.

Lemma doc_lines_last texts t :
doc_lines (texts ++ [t])
= doc_lines texts ++ (txt "/// " ++ t) ++ nl.
Proof.
unfold doc_lines. rewrite map_app, concat_app. cbn [map List.concat].
now rewrite app_nil_r, <- !app_assoc.
Qed.

Lemma doc_lines_split texts :
forallb plain_text texts = true ->
forall a t,
  plain_text t = true ->
  split newline (a ++ nl ++ doc_lines texts ++ txt "/// " ++ t)
  = split newline a ++ map (fun t => txt "/// " ++ t) (texts ++ [t]).
Proof.
assert (Hsplit : forall t, plain_text t = true ->
          split newline (txt "/// " ++ t) = [txt "/// " ++ t]).
{ intros t Ht. apply plain_text_parts in Ht.
  destruct Ht as (_ & _ & _ & _ & Hnl).
  apply split_line. cbn [txt list_ascii_of_string app existsb].
  now rewrite Hnl. }
induction texts as [|u texts IH]; intros H a t Ht.
- unfold nl. cbn [doc_lines map List.concat app].
  now rewrite split_at, (Hsplit t Ht).
- cbn [forallb] in H. apply andb_true_iff in H. destruct H as [Hu H].
  unfold doc_lines. cbn [map List.concat]. fold (doc_lines texts).
  unfold nl at 1. cbn [app]. rewrite split_at. f_equal.
  rewrite <- !app_assoc.
  specialize (IH H (txt "/// " ++ u) t Ht).
  rewrite <- app_assoc in IH. rewrite IH, (Hsplit u Hu). reflexivity.
Qed.

Lemma text_end a t :
plain_text t = true -> endswith (a ++ txt "/// " ++ t) (txt "*/") = false.
Proof.
intros Ht. apply plain_text_parts in Ht.
destruct Ht as (Hne & _ & _ & Hstar & _).
destruct (exists_last Hne) as (t' & c & ->).
rewrite existsb_app in Hstar. apply orb_false_iff in Hstar.
destruct Hstar as [Hstar _].
unfold endswith. rewrite !rev_app_distr. cbn [rev app txt list_ascii_of_string].
destruct (rev t') as [|d r] eqn:E.
- cbn [app startswith]. now rewrite andb_false_r.
- assert (Hd : Ascii.eqb "*"%char d = false).
  { assert (Hin : In d t') by (apply in_rev; rewrite E; now left).
    destruct (Ascii.eqb "*"%char d) eqn:Ed; [|reflexivity].
    assert (Hex : existsb (Ascii.eqb "*"%char) t' = true)
      by (apply existsb_exists; now exists d).
    congruence. }
  cbn [app startswith]. rewrite Hd. now rewrite andb_false_r.
Qed.

(** What is written as a run of [///] lines is read back: when the
  line above the run holds no [//] comment, the description read at
  the end of the run is the texts of its lines, in order, joined by
  single spaces. *)
Theorem line_comments_round_trip :
forall (above below : str) (texts : list str),
  texts <> [] ->
  forallb plain_text texts = true ->
  startswith (strip (last (split newline above) [])) (txt "//") = false ->
  extract_doxygen_comment (above ++ nl ++ doc_lines texts ++ below)
    (List.length above + 1 + List.length (doc_lines texts))
  = join (txt " ") texts.
Proof.
intros above below texts Hne H Habove.
destruct (exists_last Hne) as (texts' & t & ->).
pose proof H as Hall.
rewrite forallb_app in H. apply andb_true_iff in H.
destruct H as [H Ht]. cbn [forallb] in Ht. rewrite andb_true_r in Ht.
unfold extract_doxygen_comment.
replace (above ++ nl ++ doc_lines (texts' ++ [t]) ++ below)
  with ((above ++ nl ++ doc_lines (texts' ++ [t])) ++ below)
  by (now rewrite <- !app_assoc).
replace (List.length above + 1 + List.length (doc_lines (texts' ++ [t])))
  with (List.length (above ++ nl ++ doc_lines (texts' ++ [t])))
  by (rewrite !length_app; cbn [List.length nl]; lia).
rewrite firstn_length_app, doc_lines_last.
replace (above ++ nl ++ doc_lines texts' ++ (txt "/// " ++ t) ++ nl)
  with ((above ++ nl ++ doc_lines texts' ++ txt "/// " ++ t) ++ nl)
  by (now rewrite <- !app_assoc).
rewrite rstrip_spaces by reflexivity.
replace (above ++ nl ++ doc_lines texts' ++ txt "/// " ++ t)
  with ((above ++ nl ++ doc_lines texts') ++ txt "/// " ++ t)
  by (now rewrite <- !app_assoc).
pose proof (plain_text_parts t Ht) as (Htne & _ & Hr & _).
rewrite rstrip_app.
2:{ rewrite rstrip_app; rewrite Hr; [discriminate|exact Htne]. }
rewrite (rstrip_app (txt "/// ") t), Hr by (now rewrite Hr).
rewrite text_end by exact Ht.
unfold line_comment. rewrite <- !app_assoc.
rewrite (doc_lines_split texts' H above t Ht), rev_app_distr.
rewrite (comment_run_texts _ Hall), app_nil_r.
destruct (rev_split_head newline above) as [ls ->].
cbn [comment_run].
destruct (startswith (strip (last (split newline above) [])) (txt "///"))
  eqn:E3.
- apply (startswith_shorter _ (txt "//") (txt "/")) in E3. congruence.
- now rewrite Habove.
Qed.

Lemma line_comments_round_trip_witness :
extract_doxygen_comment
  (txt "#pragma once" ++ nl
   ++ doc_lines [txt "A sink."; txt "Keeps order."]
   ++ txt "class Sink {")
  (12 + 1 + 29)
= txt "A sink. Keeps order.".
Proof.
exact (eq_trans
         (line_comments_round_trip (txt "#pragma once")
            (txt "class Sink {")
            [txt "A sink."; txt "Keeps order."]
            ltac:(discriminate) eq_refl eq_refl)
         eq_refl).
Defined.

End DocExtras.
